(** * CPS_WSAN cluster head: relay buffer, advertising history and GATT tx queue

    A shallow embedding of the store-and-forward relay engine of
    [nrf52Tutorial/ble_aggregator/main.c] and of the transmit ring of
    [ble_thingy_client/ble_thingy_uis_c.c].

    C integers are modelled as [Z] with the wrap-around of their width written
    out ([u8], [u16]); C arrays are lists read and written by index ([rd],
    [wr]).  The source never checks an index: a read outside the array gives
    the default element here and a write outside it is dropped. *)

From Stdlib Require Import ZArith List Lia.
From stdpp Require Import base list.
Import ListNotations.
Local Open Scope Z_scope.

(** ** Machine integers and arrays *)

Definition u8 (x : Z) : Z := x mod 256.
Definition u16 (x : Z) : Z := x mod 65536.

Definition rd {A : Type} (d : A) (buf : list A) (i : Z) : A :=
  if 0 <=? i then default d (buf !! Z.to_nat i) else d.

Definition wr {A : Type} (buf : list A) (i : Z) (v : A) : list A :=
  if 0 <=? i then <[Z.to_nat i := v]> buf else buf.

(** [zrange a n] is [a; a+1; ...; a+n-1]: the indices a [for] loop visits. *)
Fixpoint zrange (a : Z) (n : nat) : list Z :=
  match n with
  | O => []
  | S k => a :: zrange (a + 1) k
  end.

(** [memcpy dst doff src soff n] copies [n] bytes of [src], from offset
    [soff], into [dst] at offset [doff]. *)
Fixpoint memcpy (dst : list Z) (doff : Z) (src : list Z) (soff : Z) (n : nat)
  : list Z :=
  match n with
  | O => dst
  | S k => memcpy (wr dst doff (rd 0 src soff)) (doff + 1) src (soff + 1) k
  end.

(** [uint8_array_t]: a length and the bytes the pointer refers to. *)
Record uint8_array_t := mk_uint8_array { size : Z; p_data : list Z }.

Definition CLUSTER_ID : Z := 5.
Definition SINK_ID : Z := 10.
Definition MAX_USERDATA_BUFFER_BLOCK : Z := 16.
Definition MAX_USERDATA_BUFFER_BLOCKSIZE : Z := 32.
Definition MAX_USERDATA_BUFFER : Z :=
  MAX_USERDATA_BUFFER_BLOCK * MAX_USERDATA_BUFFER_BLOCKSIZE.
Definition MAX_HIST_ADV_BUFF_SIZE : Z := 128.

(** The 24-bit identity [0x00AABBCC] the source builds from source id,
    destination id and packet id. *)
Definition make_ids (a b c : Z) : Z := Z.shiftl a 16 + Z.shiftl b 8 + c.

(** ** The advertising history buffer *)

Record adv_history_buff_t := mk_hist { h_id : Z; h_TTL : Z }.

Definition hist0 : adv_history_buff_t := mk_hist 0 0.

Record hist_state := mk_hist_state {
  g_buff_adv_hist : list adv_history_buff_t;
  g_buff_adv_hist_size : Z;
  g_buff_adv_hist_firstpos : Z;
  g_buff_adv_hist_lastpos : Z
}.

(** State after the [memset] and the assignments at the top of [main]. *)
Definition hist_init : hist_state :=
  mk_hist_state (replicate 128 hist0) 0 0 0.

(** [for (i = a; i < a + n; i++) if (id == g_buff_adv_hist[i].id) return i;] *)
Fixpoint hist_scan (h : list adv_history_buff_t) (id : Z) (i : Z) (n : nat)
  : option Z :=
  match n with
  | O => None
  | S k => if id =? h_id (rd hist0 h i) then Some i
           else hist_scan h id (i + 1) k
  end.

Definition vf_find_id_buff_adv_hist3 (id : Z) (s : hist_state) : Z :=
  let h := g_buff_adv_hist s in
  let first := g_buff_adv_hist_firstpos s in
  let last := g_buff_adv_hist_lastpos s in
  if g_buff_adv_hist_size s =? 0 then 0xFFFF
  else if first <? last then
    match hist_scan h id first (Z.to_nat (last - first)) with
    | Some i => i
    | None => 0xFFFF
    end
  else
    match hist_scan h id first (Z.to_nat (MAX_HIST_ADV_BUFF_SIZE - first)) with
    | Some i => i
    | None =>
        match hist_scan h id 0 (Z.to_nat last) with
        | Some i => i
        | None => 0xFFFF
        end
    end.

Definition vf_add_buff_adv_hist3 (ids : Z) (s : hist_state) : Z * hist_state :=
  if negb (vf_find_id_buff_adv_hist3 ids s =? 0xFFFF) then (0xFFFF, s)
  else
    let last := g_buff_adv_hist_lastpos s in
    let sz := g_buff_adv_hist_size s in
    let h := wr (g_buff_adv_hist s) last (mk_hist ids 10) in
    let last' :=
      if u8 (last + 1) =? MAX_HIST_ADV_BUFF_SIZE then 0 else u8 (last + 1) in
    let first' :=
      if negb (sz =? MAX_HIST_ADV_BUFF_SIZE) then g_buff_adv_hist_firstpos s
      else last' in
    let sz' := if sz <? MAX_HIST_ADV_BUFF_SIZE then u8 (sz + 1) else sz in
    (sz', mk_hist_state h sz' first' last').

(** The positions the source treats as live: exactly those its scans visit. *)
Definition hist_positions (s : hist_state) : list Z :=
  let first := g_buff_adv_hist_firstpos s in
  let last := g_buff_adv_hist_lastpos s in
  if g_buff_adv_hist_size s =? 0 then []
  else if first <? last then zrange first (Z.to_nat (last - first))
  else zrange first (Z.to_nat (MAX_HIST_ADV_BUFF_SIZE - first))
       ++ zrange 0 (Z.to_nat last).

(** The live entries, oldest first. *)
Definition hist_live (s : hist_state) : list adv_history_buff_t :=
  map (rd hist0 (g_buff_adv_hist s)) (hist_positions s).

Definition hist_ids (s : hist_state) : list Z := map h_id (hist_live s).

(** [for (i = a; i < a + n; i++) if (g_buff_adv_hist[i].TTL > 0) g_buff_adv_hist[i].TTL--;] *)
Fixpoint hist_dec (h : list adv_history_buff_t) (i : Z) (n : nat)
  : list adv_history_buff_t :=
  match n with
  | O => h
  | S k =>
      let e := rd hist0 h i in
      hist_dec (if 0 <? h_TTL e then wr h i (mk_hist (h_id e) (h_TTL e - 1))
                else h) (i + 1) k
  end.

(** [for (i = a; i < a + n; i++) if (test i) break;] gives the final [i]. *)
Fixpoint break_scan (test : Z -> bool) (i : Z) (n : nat) : Z :=
  match n with
  | O => i
  | S k => if test i then i else break_scan test (i + 1) k
  end.

(** The compaction loop
    [for (j = ..; j < ..; j++) { if (hist[j].TTL != 0) hist[i++] = hist[j];
    else count++; }], with the extra [if (i >= MAX) i = 0;] of the loop over
    the wrapped part when [wrap] is set.  Returns buffer, [i] and [count]. *)
Fixpoint hist_compact (wrap : bool) (h : list adv_history_buff_t)
    (i count j : Z) (n : nat) : list adv_history_buff_t * Z * Z :=
  match n with
  | O => (h, i, count)
  | S k =>
      let e := rd hist0 h j in
      let clip (x : Z) :=
        if wrap && (MAX_HIST_ADV_BUFF_SIZE <=? x) then 0 else x in
      if negb (h_TTL e =? 0)
      then hist_compact wrap (wr h i e) (clip (i + 1)) count (j + 1) k
      else hist_compact wrap h (clip i) (count + 1) (j + 1) k
  end.

(** The once-per-second history timer.  In its last branch the source tests
    [g_buff_adv_hist[j].TTL] with [j] never assigned on that path; the value
    [j] happens to hold is the parameter [j_uninit]. *)
Definition vf_refresh_history_buff_callback (j_uninit : Z) (s : hist_state)
  : hist_state :=
  let h := g_buff_adv_hist s in
  let sz := g_buff_adv_hist_size s in
  let first := g_buff_adv_hist_firstpos s in
  let last := g_buff_adv_hist_lastpos s in
  let M := MAX_HIST_ADV_BUFF_SIZE in
  if sz =? 0 then s
  else
    let h1 :=
      if first <? last then hist_dec h first (Z.to_nat (last - first))
      else hist_dec (hist_dec h first (Z.to_nat (M - first))) 0 (Z.to_nat last) in
    let zero (i : Z) := h_TTL (rd hist0 h1 i) =? 0 in
    if first <? last then
      let i := break_scan zero first (Z.to_nat (last - first)) in
      if negb (i =? last) then
        let '(h2, i2, c2) :=
          hist_compact false h1 i 1 (i + 1) (Z.to_nat (last - (i + 1))) in
        mk_hist_state h2 (u8 (sz - c2)) first (u8 i2)
      else mk_hist_state h1 sz first last
    else
      let i := break_scan zero first (Z.to_nat (M - first)) in
      if negb (i =? M) then
        let '(h2, i2, c2) :=
          hist_compact false h1 i 1 (i + 1) (Z.to_nat (M - (i + 1))) in
        let '(h3, i3, c3) := hist_compact true h2 i2 c2 0 (Z.to_nat last) in
        mk_hist_state h3 (u8 (sz - c3)) first (u8 i3)
      else
        let i := break_scan (fun _ => zero j_uninit) 0 (Z.to_nat last) in
        if negb (i =? last) then
          let '(h2, i2, c2) :=
            hist_compact false h1 i 1 (i + 1) (Z.to_nat (last - (i + 1))) in
          mk_hist_state h2 (u8 (sz - c2)) first (u8 i2)
        else mk_hist_state h1 sz first last.

(** What the history tick is specified to do, on the live entries: every
    ttl one lower, entries that reach zero removed, order kept. *)
Definition hist_tick_spec (l : list adv_history_buff_t)
  : list adv_history_buff_t :=
  filter (fun e => h_TTL e <> 0)
         (map (fun e => mk_hist (h_id e) (h_TTL e - 1)) l).

(** ** The block pool [g_userdata]

    A flat array of 16 blocks of 32 bytes.  Byte 0 of a block is 0 when the
    block is free and 0xFF when used, byte 1 the next block, byte 2 the
    previous block (0xFF for none), byte 3 the number of advertisements
    left, byte 4 the size, bytes 5.. the broadcast data: source id,
    destination id, packet id, hop count, user data. *)

Record pool_state := mk_pool {
  garr_userdata : list Z;
  g_userdata_size : Z;
  g_userdata_firstpos : Z;
  g_userdata_lastpos : Z;
  g_userdata_currpos : Z
}.

(** What the node hands to the radio: a relay payload copied into the
    advertising packet (with the block it came from, as the source prints
    it), or the cleared payload of [vf_stop_broadcast_data]. *)
Inductive adv_event :=
| AdvRelay (pos : Z) (bytes : list Z)
| AdvStop.

Record state := mk_state {
  pool : pool_state;
  hist : hist_state;
  g_packetID : Z;
  relay_data : list Z;          (* the static buffer of vf_relay_adv_data3 *)
  adv_log : list adv_event;     (* payloads handed to the advertiser *)
  phone_log : list (list Z)     (* calls of vf_app_adv_data_send_to_phone *)
}.

Definition pool_init : pool_state := mk_pool (replicate 512 0) 0 0 0 0.

Definition state_init : state :=
  mk_state pool_init hist_init 0 (replicate 32 0) [] [].

Definition set_pool (p : pool_state) (st : state) : state :=
  mk_state p (hist st) (g_packetID st) (relay_data st) (adv_log st)
           (phone_log st).

Definition set_hist (h : hist_state) (st : state) : state :=
  mk_state (pool st) h (g_packetID st) (relay_data st) (adv_log st)
           (phone_log st).

Definition blk (pos off : Z) : Z := pos * MAX_USERDATA_BUFFER_BLOCKSIZE + off.

(** The identity stored in block [pos]. *)
Definition block_ids (buf : list Z) (pos : Z) : Z :=
  make_ids (rd 0 buf (blk pos 5)) (rd 0 buf (blk pos 6)) (rd 0 buf (blk pos 7)).

Definition vf_delete_block_buffer3 (cond : bool) (st : state) : state :=
  let p := pool st in
  let buf := garr_userdata p in
  let pos1 := g_userdata_currpos p in
  let pos := u16 (pos1 * MAX_USERDATA_BUFFER_BLOCKSIZE) in
  let ids :=
    make_ids (rd 0 buf (pos + 5)) (rd 0 buf (pos + 6)) (rd 0 buf (pos + 7)) in
  let unlink (b : list Z) := wr (wr (wr b pos 0) (pos + 2) 0xFF) (pos + 1) 0xFF in
  if g_userdata_size p =? 0 then st
  else
    let p' :=
      if g_userdata_size p =? 1 then mk_pool (unlink buf) 0 0 0 0
      else if pos1 =? g_userdata_firstpos p then
        let nextpos := rd 0 buf (pos + 1) in
        mk_pool (wr (unlink buf) (blk nextpos 2) 0xFF)
                (u16 (g_userdata_size p - 1)) nextpos (g_userdata_lastpos p)
                nextpos
      else if pos1 =? g_userdata_lastpos p then
        let prepos := rd 0 buf (pos + 2) in
        mk_pool (wr (unlink buf) (blk prepos 1) 0xFF)
                (u16 (g_userdata_size p - 1)) (g_userdata_firstpos p) prepos
                (g_userdata_firstpos p)
      else
        let nextpos := rd 0 buf (pos + 1) in
        let prepos := rd 0 buf (pos + 2) in
        mk_pool (wr (wr (unlink buf) (blk nextpos 2) prepos) (blk prepos 1)
                    nextpos)
                (u16 (g_userdata_size p - 1)) (g_userdata_firstpos p)
                (g_userdata_lastpos p) nextpos in
    let st' := set_pool p' st in
    if cond then set_hist (snd (vf_add_buff_adv_hist3 ids (hist st'))) st'
    else st'.

Definition vf_stop_broadcast_data (st : state) : state :=
  mk_state (pool st) (hist st) (g_packetID st) (relay_data st)
           (adv_log st ++ [AdvStop]) (phone_log st).

(** The [else] branch of the scheduler loop: advertise the block at the
    cursor, count the advertisement, then release the block or move on. *)
Definition relay_transmit (st : state) : state :=
  let p := pool st in
  let buf := garr_userdata p in
  let pos := g_userdata_currpos p in
  let relay_size := rd 0 buf (blk pos 4) in
  let r := wr (wr (relay_data st) 0 relay_size) 1 0xFF in
  let r := memcpy r 2 buf (blk pos 5) (Z.to_nat (relay_size - 1)) in
  let r := wr r 5 (u8 (rd 0 r 5 + 1)) in
  let sent := map (rd 0 r) (zrange 0 (Z.to_nat (relay_size + 1))) in
  let ttl := u8 (rd 0 buf (blk pos 3) - 1) in
  let buf' := wr buf (blk pos 3) ttl in
  let st1 :=
    mk_state (mk_pool buf' (g_userdata_size p) (g_userdata_firstpos p)
                      (g_userdata_lastpos p) pos)
             (hist st) (g_packetID st) r
             (adv_log st ++ [AdvRelay pos sent]) (phone_log st) in
  if ttl =? 0 then vf_delete_block_buffer3 true st1
  else
    let cur' :=
      if pos =? g_userdata_lastpos p then g_userdata_firstpos p
      else rd 0 buf' (blk pos 1) in
    set_pool (mk_pool buf' (g_userdata_size p) (g_userdata_firstpos p)
                      (g_userdata_lastpos p) cur') st1.

(** The [while (g_userdata.size > 0)] loop of the scheduler; [None] only if
    [fuel] iterations were not enough. *)
Fixpoint relay_loop (fuel : nat) (st : state) : option state :=
  if 0 <? g_userdata_size (pool st) then
    match fuel with
    | O => None
    | S k =>
        let p := pool st in
        if rd 0 (garr_userdata p) (blk (g_userdata_currpos p) 4) =? 0 then
          let st1 := vf_delete_block_buffer3 false st in
          let st2 :=
            if g_userdata_size (pool st1) =? 0 then vf_stop_broadcast_data st1
            else st1 in
          relay_loop k st2
        else Some (relay_transmit st)
    end
  else Some st.

(** One scheduler tick.  Every pass through the loop that does not leave it
    frees a block, so [size] passes and one more are always enough. *)
Definition vf_relay_adv_data3 (st : state) : option state :=
  relay_loop (S (Z.to_nat (g_userdata_size (pool st)))) st.

(** [for (i = a; i < a + n; i++) if (g_userdata.p_data[i*32] == 0) break;] *)
Fixpoint find_free (buf : list Z) (i : Z) (n : nat) : option Z :=
  match n with
  | O => None
  | S k => if rd 0 buf (blk i 0) =? 0 then Some i else find_free buf (i + 1) k
  end.

Definition vf_add_packet_to_buffer3 (br_data : uint8_array_t) (st : state)
  : Z * state :=
  let p := pool st in
  let buf := garr_userdata p in
  if g_userdata_size p <? MAX_USERDATA_BUFFER_BLOCK then
    match find_free buf 0 (Z.to_nat MAX_USERDATA_BUFFER_BLOCK) with
    | None => (1, st)
    | Some pos =>
        let empty := g_userdata_size p =? 0 in
        let last := g_userdata_lastpos p in
        let b :=
          if empty then wr (wr buf (blk pos 2) 0xFF) (blk pos 1) 0xFF
          else wr (wr (wr buf (blk last 1) pos) (blk pos 2) last)
                  (blk pos 1) 0xFF in
        let b := wr b (blk pos 0) 0xFF in
        let b := wr b (blk pos 3) 2 in
        let b := wr b (blk pos 4) (u8 (size br_data + 1)) in
        let b := memcpy b (blk pos 5) (p_data br_data) 0
                        (Z.to_nat (size br_data)) in
        (0, set_pool (mk_pool b (u16 (g_userdata_size p + 1))
                              (if empty then pos else g_userdata_firstpos p)
                              pos
                              (if empty then pos else g_userdata_currpos p))
                     st)
    end
  else (1, st).

(** ** The ingest classifier of [on_adv_report] *)

Definition vf_check_source (data : uint8_array_t) : bool :=
  rd 0 (p_data data) 0 =? CLUSTER_ID.

Definition vf_check_destination (data : uint8_array_t) : bool :=
  rd 0 (p_data data) 1 =? CLUSTER_ID.

Definition data_ids (data : uint8_array_t) : Z :=
  make_ids (rd 0 (p_data data) 0) (rd 0 (p_data data) 1) (rd 0 (p_data data) 2).

(** On a history hit the source returns [i + 8000] with [i] never assigned;
    [i_uninit] is the value [i] happens to hold.  The [do]-[while] over the
    pool returns from its first pass on both branches of its [if], so only
    the first block is ever compared. *)
Definition vf_validate_relay_packet3 (i_uninit : Z) (checkdata : uint8_array_t)
    (st : state) : Z :=
  let ids := data_ids checkdata in
  if negb (vf_find_id_buff_adv_hist3 ids (hist st) =? 0xFFFF)
  then u16 (i_uninit + 8000)
  else if g_userdata_size (pool st) =? 0 then 0xFFFF
  else
    let pos := g_userdata_firstpos (pool st) in
    if block_ids (garr_userdata (pool st)) pos =? ids then pos else 0xFFFF.

Definition vf_app_adv_data_send_to_phone (data : uint8_array_t) (st : state)
  : state :=
  mk_state (pool st) (hist st) (g_packetID st) (relay_data st) (adv_log st)
           (phone_log st
              ++ [map (rd 0 (p_data data)) (zrange 0 (Z.to_nat (size data)))]).

Definition vf_process_adv_command3 (i_uninit : Z) (br_data : uint8_array_t)
    (st : state) : state :=
  let ids := data_ids br_data in
  if vf_validate_relay_packet3 i_uninit br_data st =? 0xFFFF then
    let st1 := vf_app_adv_data_send_to_phone br_data st in
    set_hist (snd (vf_add_buff_adv_hist3 ids (hist st1))) st1
  else st.

(** The part of [on_adv_report] that classifies the manufacturer data of a
    cluster-head advertisement. *)
Definition on_adv_report (i_uninit : Z) (userdata : uint8_array_t) (st : state)
  : state :=
  if vf_check_source userdata then st
  else if vf_check_destination userdata then
    vf_process_adv_command3 i_uninit userdata st
  else if vf_validate_relay_packet3 i_uninit userdata st =? 0xFFFF then
    snd (vf_add_packet_to_buffer3 userdata st)
  else st.

(** ** Local events: [vf_adv_thingy_data] *)

Record thingy_data_t := mk_thingy_data {
  local_id : Z;
  link_state : Z;
  button : Z;
  temperature : Z;
  pressure : Z;
  humidity : Z
}.

(** The [case] label [data->link_state] matches.  The header that gives the
    three labels their values is not part of the sources, so the label is
    passed next to the data. *)
Inductive link_case :=
| AGG_NODE_LINK_CONNECTED
| AGG_NODE_LINK_DISCONNECTED
| AGG_NODE_LINK_DATA_UPDATE.

(** [idata] as [vf_adv_thingy_data] fills it in. *)
Definition thingy_idata (c : link_case) (data : thingy_data_t) (st : state)
  : uint8_array_t :=
  let hdr := [CLUSTER_ID; SINK_ID; g_packetID st; 0;
              u8 (link_state data); u8 (local_id data)] in
  match c with
  | AGG_NODE_LINK_CONNECTED =>
      mk_uint8_array 15
        (hdr ++ [0x12; 0x12; 0x00; 0x01; 0x02; 0x03; 0x00; 0x78; 0x0])
  | AGG_NODE_LINK_DISCONNECTED => mk_uint8_array 6 hdr
  | AGG_NODE_LINK_DATA_UPDATE =>
      mk_uint8_array 15
        (hdr ++ [u8 (Z.shiftr (temperature data) 8);
                 Z.land (temperature data) 0x00FF;
                 u8 (Z.shiftr (pressure data) 24);
                 u8 (Z.shiftr (pressure data) 16);
                 u8 (Z.shiftr (pressure data) 8);
                 Z.land (pressure data) 0x00FF;
                 u8 (Z.shiftr (humidity data) 8);
                 Z.land (humidity data) 0x00FF;
                 u8 (button data)])
  end.

Definition vf_adv_thingy_data (c : link_case) (data : thingy_data_t)
    (st : state) : state :=
  let idata := thingy_idata c data st in
  let st1 :=
    mk_state (pool st) (hist st) (u8 (g_packetID st + 1)) (relay_data st)
             (adv_log st) (phone_log st) in
  snd (vf_add_packet_to_buffer3 idata st1).

(** The identity carried by a payload: source, destination, packet id. *)
Definition identity (data : uint8_array_t) : Z * Z * Z :=
  (rd 0 (p_data data) 0, rd 0 (p_data data) 1, rd 0 (p_data data) 2).

(** ** The transmit ring of [ble_thingy_uis_c.c] *)

Module ThingyUis.

Definition TX_BUFFER_MASK : Z := 0x07.
Definition TX_BUFFER_SIZE : Z := TX_BUFFER_MASK + 1.
Definition TUIS_WRITE_MESSAGE_LENGTH : Z := 8.

(** Values of the SoftDevice headers. *)
Definition NRF_SUCCESS : Z := 0.
Definition NRF_ERROR_INVALID_STATE : Z := 8.
Definition NRF_ERROR_BUSY : Z := 17.
Definition BLE_CONN_HANDLE_INVALID : Z := 0xFFFF.
Definition BLE_GATT_HVX_NOTIFICATION : Z := 1.
Definition BLE_GATT_OP_WRITE_REQ : Z := 1.

Inductive tx_request_t := READ_REQ | WRITE_REQ.

Record write_params_t := mk_write_params {
  gattc_value : list Z;
  gattc_handle : Z;
  gattc_len : Z;
  gattc_offset : Z;
  gattc_write_op : Z
}.

Record tx_message_t := mk_tx_message {
  conn_handle : Z;
  type : tx_request_t;
  read_handle : Z;
  write_req : write_params_t
}.

Definition tx_message0 : tx_message_t :=
  mk_tx_message 0 READ_REQ 0 (mk_write_params (replicate 8 0) 0 0 0 0).

(** A call into the SoftDevice. *)
Inductive sd_call :=
| sd_ble_gattc_read (conn : Z) (handle : Z)
| sd_ble_gattc_write (conn : Z) (params : write_params_t).

Record uis_state := mk_uis {
  m_tx_buffer : list tx_message_t;
  m_tx_insert_index : Z;
  m_tx_index : Z;
  sd_calls : list (sd_call * Z)   (* each call with the code it returned *)
}.

Definition uis_init : uis_state := mk_uis (replicate 8 tx_message0) 0 0 [].

(** [err_code] is what the SoftDevice answers if it is called. *)
Definition tx_buffer_process (err_code : Z) (s : uis_state) : uis_state :=
  if negb (m_tx_index s =? m_tx_insert_index s) then
    let m := rd tx_message0 (m_tx_buffer s) (m_tx_index s) in
    let call :=
      match type m with
      | READ_REQ => sd_ble_gattc_read (conn_handle m) (read_handle m)
      | WRITE_REQ => sd_ble_gattc_write (conn_handle m) (write_req m)
      end in
    mk_uis (m_tx_buffer s) (m_tx_insert_index s)
           (if err_code =? NRF_SUCCESS
            then Z.land (m_tx_index s + 1) TX_BUFFER_MASK
            else m_tx_index s)
           (sd_calls s ++ [(call, err_code)])
  else s.

(** The message [cccd_configure] leaves in the slot it is given. *)
Definition cccd_message (old : tx_message_t) (conn handle_cccd : Z)
    (enable : bool) : tx_message_t :=
  let cccd_val := if enable then BLE_GATT_HVX_NOTIFICATION else 0 in
  let v := wr (wr (gattc_value (write_req old)) 0 (Z.land cccd_val 0xFF)) 1
              (Z.shiftr (Z.land cccd_val 0xFF00) 8) in
  mk_tx_message conn WRITE_REQ (read_handle old)
                (mk_write_params v handle_cccd 2 0 BLE_GATT_OP_WRITE_REQ).

Definition cccd_configure (conn handle_cccd : Z) (enable : bool)
    (err_code : Z) (s : uis_state) : Z * uis_state :=
  let slot := m_tx_insert_index s in
  let msg := cccd_message (rd tx_message0 (m_tx_buffer s) slot) conn
                          handle_cccd enable in
  let s1 := mk_uis (wr (m_tx_buffer s) slot msg)
                   (Z.land (slot + 1) TX_BUFFER_MASK) (m_tx_index s)
                   (sd_calls s) in
  (NRF_SUCCESS, tx_buffer_process err_code s1).

Record ble_thingy_uis_c_t := mk_uis_c {
  uis_conn_handle : Z;
  led_handle : Z;
  button_handle : Z;
  button_cccd_handle : Z
}.

(** The message [ble_thingy_uis_led_status_send] leaves in its slot when
    the copy stays within [gattc_value]. *)
Definition led_message (old : tx_message_t) (c : ble_thingy_uis_c_t)
    (led_state : list Z) (length : Z) : tx_message_t :=
  mk_tx_message (uis_conn_handle c) WRITE_REQ (read_handle old)
    (mk_write_params
       (memcpy (gattc_value (write_req old)) 0 led_state 0 (Z.to_nat length))
       (led_handle c) length 0 BLE_GATT_OP_WRITE_REQ).

(** The source copies [length] bytes of [led_state] into [gattc_value]
    without a check.  A copy of more than TUIS_WRITE_MESSAGE_LENGTH bytes, or
    of more bytes than [led_state] has, leaves the object it started in,
    which C does not define (in the memory of the target it runs on into
    [gattc_params], whose layout comes from a header that is not part of the
    sources): the result is then [None]. *)
Definition ble_thingy_uis_led_status_send (c : ble_thingy_uis_c_t)
    (led_state : list Z) (length : Z) (err_code : Z) (s : uis_state)
  : option (Z * uis_state) :=
  if uis_conn_handle c =? BLE_CONN_HANDLE_INVALID
  then Some (NRF_ERROR_INVALID_STATE, s)
  else if (TUIS_WRITE_MESSAGE_LENGTH <? length)
          || (Z.of_nat (List.length led_state) <? length)
  then None
  else
    let slot := m_tx_insert_index s in
    let msg := led_message (rd tx_message0 (m_tx_buffer s) slot) c led_state
                           length in
    let s1 := mk_uis (wr (m_tx_buffer s) slot msg)
                     (Z.land (slot + 1) TX_BUFFER_MASK) (m_tx_index s)
                     (sd_calls s) in
    Some (NRF_SUCCESS, tx_buffer_process err_code s1).

(** The slots between the read index and the insert index, in ring order:
    the requests stored and not yet accepted by the SoftDevice. *)
Definition tx_pending_slots (s : uis_state) : list Z :=
  map (fun k => Z.land (m_tx_index s + k) TX_BUFFER_MASK)
      (zrange 0 (Z.to_nat ((m_tx_insert_index s - m_tx_index s)
                           mod TX_BUFFER_SIZE))).

Definition tx_pending (s : uis_state) : list tx_message_t :=
  map (rd tx_message0 (m_tx_buffer s)) (tx_pending_slots s).

(** The request a stored message is issued as. *)
Definition tx_call (m : tx_message_t) : sd_call :=
  match type m with
  | READ_REQ => sd_ble_gattc_read (conn_handle m) (read_handle m)
  | WRITE_REQ => sd_ble_gattc_write (conn_handle m) (write_req m)
  end.

(** The requests the SoftDevice accepted, in the order it accepted them. *)
Definition tx_issued (s : uis_state) : list sd_call :=
  map fst (filter (fun c => snd c = NRF_SUCCESS) (sd_calls s)).

Definition uis_wf (s : uis_state) : Prop :=
  length (m_tx_buffer s) = 8%nat /\
  0 <= m_tx_index s < TX_BUFFER_SIZE /\
  0 <= m_tx_insert_index s < TX_BUFFER_SIZE.

(** The state after a message was written at the insert index, before the
    ring is processed: the common part of the two enqueuing functions. *)
Definition tx_stored (m : tx_message_t) (s : uis_state) : uis_state :=
  mk_uis (wr (m_tx_buffer s) (m_tx_insert_index s) m)
         (Z.land (m_tx_insert_index s + 1) TX_BUFFER_MASK) (m_tx_index s)
         (sd_calls s).

(** Seven CCCD requests stored while the SoftDevice is busy. *)
Definition uis_seven_pending : uis_state :=
  Nat.iter 7 (fun s => snd (cccd_configure 1 10 true NRF_ERROR_BUSY s)) uis_init.

(** Three CCCD requests stored while the SoftDevice is busy. *)
Definition uis_three_pending : uis_state :=
  Nat.iter 3 (fun s => snd (cccd_configure 1 10 true NRF_ERROR_BUSY s)) uis_init.

(** *** Events and the rest of the client interface *)

Definition BLE_GATT_HANDLE_INVALID : Z := 0.

(** [on_write_rsp]: [evt_conn] is the connection the write response came
    on.  The response of another link is ignored; otherwise the ring, which
    all instances share, is processed. *)
Definition on_write_rsp (c : ble_thingy_uis_c_t) (evt_conn : Z) (err_code : Z)
    (s : uis_state) : uis_state :=
  if negb (uis_conn_handle c =? evt_conn) then s
  else tx_buffer_process err_code s.

Definition on_disconnected (c : ble_thingy_uis_c_t) (evt_conn : Z)
  : ble_thingy_uis_c_t :=
  if uis_conn_handle c =? evt_conn then
    mk_uis_c BLE_CONN_HANDLE_INVALID BLE_GATT_HANDLE_INVALID
             BLE_GATT_HANDLE_INVALID BLE_GATT_HANDLE_INVALID
  else c.

(** [p_peer_handles] may be NULL: the handles are then kept. *)
Definition ble_thingy_uis_c_handles_assign (c : ble_thingy_uis_c_t)
    (conn : Z) (p_peer_handles : option (Z * Z * Z))
  : Z * ble_thingy_uis_c_t :=
  (NRF_SUCCESS,
   match p_peer_handles with
   | Some (led, btn, cccd) => mk_uis_c conn led btn cccd
   | None => mk_uis_c conn (led_handle c) (button_handle c)
                      (button_cccd_handle c)
   end).

Definition ble_thingy_uis_c_button_notif_enable (c : ble_thingy_uis_c_t)
    (err_code : Z) (s : uis_state) : Z * uis_state :=
  if uis_conn_handle c =? BLE_CONN_HANDLE_INVALID
  then (NRF_ERROR_INVALID_STATE, s)
  else cccd_configure (uis_conn_handle c) (button_cccd_handle c) true
                      err_code s.

(** Write responses on the links [conns], in this order, each with the
    answer the SoftDevice gives to the request that is issued. *)
Definition write_responses (c : ble_thingy_uis_c_t) (rsps : list (Z * Z))
    (s : uis_state) : uis_state :=
  fold_left (fun s e => on_write_rsp c (fst e) (snd e) s) rsps s.
(** *** Service discovery: [ble_thingy_uis_on_db_disc_evt] *)

(** A discovered characteristic, as far as the handler reads it. *)
Record gatt_db_char := mk_gatt_db_char {
  char_uuid : Z;
  handle_value : Z;
  cccd_handle : Z
}.

(** [thingy_uis_db_t]: the handles of the peer. *)
Record thingy_uis_db_t := mk_uis_db {
  db_led_handle : Z;
  db_button_handle : Z;
  db_button_cccd_handle : Z
}.

Section Discovery.

(** The four UUIDs come from [ble_thingy_uis_c.h], which is not part of the
    sources. *)
Variables (THINGY_UIS_UUID_SERVICE THINGY_SENSOR_UUID_SERVICE
           THINGY_UIS_UUID_LED_CHAR THINGY_UIS_UUID_BUTTON_CHAR : Z).

(** The loop over the discovered characteristics; it fills [evt.params.peer_db]
    and looks at a characteristic only when the service is the UI service. *)
Definition disc_chars (srv_uuid : Z) (chars : list gatt_db_char)
    (peer_db : thingy_uis_db_t) : thingy_uis_db_t :=
  fold_left
    (fun db ch =>
       if srv_uuid =? THINGY_UIS_UUID_SERVICE then
         if char_uuid ch =? THINGY_UIS_UUID_LED_CHAR then
           mk_uis_db (handle_value ch) (db_button_handle db)
                     (db_button_cccd_handle db)
         else if char_uuid ch =? THINGY_UIS_UUID_BUTTON_CHAR then
           mk_uis_db (db_led_handle db) (handle_value ch) (cccd_handle ch)
         else db
       else db)
    chars peer_db.

(** [uuid_type] is the field of the instance, [complete] tells whether the
    event is BLE_DB_DISCOVERY_COMPLETE, [srv_uuid] and [srv_type] are the
    UUID of the discovered service.  The local [evt] is not initialised:
    [peer_db_uninit] is what its [params.peer_db] happens to hold.  The
    result is the instance and the event handed to its handler, if any. *)
Definition ble_thingy_uis_on_db_disc_evt (c : ble_thingy_uis_c_t)
    (uuid_type : Z) (complete : bool) (srv_uuid srv_type evt_conn : Z)
    (chars : list gatt_db_char) (peer_db_uninit : thingy_uis_db_t)
  : ble_thingy_uis_c_t * option (Z * thingy_uis_db_t) :=
  if complete
     && ((srv_uuid =? THINGY_UIS_UUID_SERVICE)
         || (srv_uuid =? THINGY_SENSOR_UUID_SERVICE))
     && (srv_type =? uuid_type)
  then
    let db := disc_chars srv_uuid chars peer_db_uninit in
    let c' :=
      if negb (uis_conn_handle c =? BLE_CONN_HANDLE_INVALID) then
        if (led_handle c =? BLE_GATT_HANDLE_INVALID)
           && (button_handle c =? BLE_GATT_HANDLE_INVALID)
           && (button_cccd_handle c =? BLE_GATT_HANDLE_INVALID)
        then mk_uis_c (uis_conn_handle c) (db_led_handle db)
                      (db_button_handle db) (db_button_cccd_handle db)
        else c
      else c in
    (c', Some (evt_conn, db))
  else (c, None).

End Discovery.

End ThingyUis.

(** The ring discipline of the history buffer: indices inside the array and
    [size] the number of positions from [firstpos] up to [lastpos]. *)
Definition hist_wf (s : hist_state) : Prop :=
  let first := g_buff_adv_hist_firstpos s in
  let last := g_buff_adv_hist_lastpos s in
  let sz := g_buff_adv_hist_size s in
  length (g_buff_adv_hist s) = 128%nat /\
  0 <= first < MAX_HIST_ADV_BUFF_SIZE /\
  0 <= last < MAX_HIST_ADV_BUFF_SIZE /\
  ((sz = 0 /\ first = last) \/
   (first < last /\ sz = last - first) \/
   (last <= first /\ sz = MAX_HIST_ADV_BUFF_SIZE - first + last)).

(** The history buffer after inserting the identities of [l], in order. *)
Definition hist_inserts (l : list Z) (s : hist_state) : hist_state :=
  fold_left (fun h id => snd (vf_add_buff_adv_hist3 id h)) l s.

Definition ring (sz first last : Z) : list Z :=
  hist_positions (mk_hist_state [] sz first last).

Definition ring_next (last : Z) : Z := if last + 1 =? 128 then 0 else last + 1.


(** The state after the local events [evs], in order. *)
Definition run_thingy (evs : list (link_case * thingy_data_t)) (st : state)
  : state :=
  fold_left (fun s e => vf_adv_thingy_data (fst e) (snd e) s) evs st.

(** Block [i] is marked used (byte 0 is not 0). *)
Definition block_used (buf : list Z) (i : Z) : bool :=
  negb (rd 0 buf (blk i 0) =? 0).

(** The number of blocks marked used. *)
Definition used_count (buf : list Z) : Z :=
  Z.of_nat (length (List.filter (block_used buf)
                                (zrange 0 (Z.to_nat MAX_USERDATA_BUFFER_BLOCK)))).

(** The bytes [relay_transmit] hands to the advertiser. *)
Definition relay_payload (buf : list Z) (c : Z) : list Z :=
  let rs := rd 0 buf (blk c 4) in
  rs :: 0xFF :: rd 0 buf (blk c 5) :: rd 0 buf (blk c 6) :: rd 0 buf (blk c 7)
     :: (rd 0 buf (blk c 8) + 1) mod 256
     :: map (rd 0 buf) (zrange (blk c 9) (Z.to_nat (rs - 5))).


(** *** The ordered list threaded through the used blocks *)

Definition nxt (buf : list Z) (a : Z) : Z := rd 0 buf (blk a 1).
Definition prv (buf : list Z) (a : Z) : Z := rd 0 buf (blk a 2).

(** [lseg buf p l q]: the blocks of [l] are linked in this order, the first
    pointing back to [p] and the last pointing on to [q]. *)
Fixpoint lseg (buf : list Z) (p : Z) (l : list Z) (q : Z) : Prop :=
  match l with
  | [] => True
  | a :: r => prv buf a = p /\ nxt buf a = List.hd q r /\ lseg buf a r q
  end.

(** [chain_ok pl ch]: [ch] lists the used blocks in list order, from
    [firstpos] to [lastpos], with 0xFF closing the list at both ends, and
    [size] counts them. *)
Definition chain_ok (pl : pool_state) (ch : list Z) : Prop :=
  let buf := garr_userdata pl in
  length buf = 512%nat /\
  List.NoDup ch /\
  (forall a, In a ch -> 0 <= a < 16) /\
  g_userdata_size pl = Z.of_nat (length ch) /\
  (forall a, 0 <= a < 16 -> (block_used buf a = true <-> In a ch)) /\
  lseg buf 0xFF ch 0xFF /\
  (ch <> [] ->
   g_userdata_firstpos pl = List.hd 0 ch /\
   g_userdata_lastpos pl = List.last ch 0).

(** [pool_repr pl rot]: the pool holds the blocks of [rot]; read from the
    cursor onwards and around the end of the list they come in the order of
    [rot]. *)
Definition pool_repr (pl : pool_state) (rot : list Z) : Prop :=
  match rot with
  | [] => chain_ok pl []
  | c :: r =>
      exists l1 l2, r = l2 ++ l1 /\ chain_ok pl (l1 ++ c :: l2) /\
                    g_userdata_currpos pl = c
  end.

(** Every block of [rot] holds a record and has one or two advertisements
    left. *)
Definition blocks_ok (buf : list Z) (rot : list Z) : Prop :=
  forall a, In a rot ->
            rd 0 buf (blk a 4) <> 0 /\ 1 <= rd 0 buf (blk a 3) <= 2.

(** The number of times block [p] was handed to the advertiser. *)
Definition relay_count (p : Z) (log : list adv_event) : nat :=
  length (List.filter
            (fun e => match e with
                      | AdvRelay q _ => q =? p
                      | AdvStop => false
                      end) log).

(** [n] scheduler ticks in a row. *)
Fixpoint ticks (n : nat) (st : state) : option state :=
  match n with
  | O => Some st
  | S k =>
      match vf_relay_adv_data3 st with
      | Some st' => ticks k st'
      | None => None
      end
  end.

(** The relay engine is in order: the pool holds the blocks of [rot] in ring
    order from the cursor, each with a record and one or two advertisements
    left, and the history ring is well formed. *)
Definition relay_inv (st : state) (rot : list Z) : Prop :=
  pool_repr (pool st) rot /\
  blocks_ok (garr_userdata (pool st)) rot /\
  hist_wf (hist st).

(** ** Sample inputs *)

(** A six-byte broadcast payload: source, destination, packet id, hop
    count 0 and two bytes of user data. *)
Definition sample_payload (src dst seq : Z) : uint8_array_t :=
  mk_uint8_array 6 [src; dst; seq; 0; 7; 8].

(** [n] history ticks in a row, the never-assigned [j] holding [j_uninit]
    each time. *)
Definition hist_ticks (j_uninit : Z) (n : nat) (s : hist_state) : hist_state :=
  Nat.iter n (vf_refresh_history_buff_callback j_uninit) s.

(** A history ring that has wrapped: 130 identities inserted, all expired
    by ten ticks, then 127 more inserted.  Slots 2..127 and 0 are live, slot
    1 is not. *)
Definition hist_wrapped : hist_state :=
  hist_inserts (zrange 131 127)
    (hist_ticks 1 10 (hist_inserts (zrange 1 130) hist_init)).

(** A wrapped history ring whose only expiring entry sits in the low part:
    slots 127, 0 and 1 are live with ttl 5, 5 and 1.  It is a well-formed
    value of the state; inserts and ticks alone give older entries the lower
    ttl. *)
Definition hist_low_expiry : hist_state :=
  mk_hist_state
    (wr (wr (wr (replicate 128 hist0) 127 (mk_hist 1 5)) 0 (mk_hist 2 5)) 1
        (mk_hist 3 1))
    3 127 2.

(** The identities of the records in the pool: those of the blocks marked
    used. *)
Definition pool_ids (st : state) : list Z :=
  map (block_ids (garr_userdata (pool st)))
      (List.filter (block_used (garr_userdata (pool st)))
                   (zrange 0 (Z.to_nat MAX_USERDATA_BUFFER_BLOCK))).


(** A scheduler tick, as a total function. *)
Definition tick (st : state) : state := default st (vf_relay_adv_data3 st).



(** ** Runs of the relay engine without local events *)


Definition hist_tick (j_uninit : Z) (st : state) : state :=
  set_hist (vf_refresh_history_buff_callback j_uninit (hist st)) st.







(** ** The rest of the history buffer *)

(** [vf_delete_buff_adv_hist3] gives up the entry at [firstpos]; its
    argument [pos] is not used. *)
Definition vf_delete_buff_adv_hist3 (pos : Z) (s : hist_state) : hist_state :=
  if g_buff_adv_hist_size s =? 0 then s
  else
    let first' := u8 (g_buff_adv_hist_firstpos s + 1) in
    mk_hist_state (g_buff_adv_hist s) (u8 (g_buff_adv_hist_size s - 1))
                  (if first' =? MAX_HIST_ADV_BUFF_SIZE then 0 else first')
                  (g_buff_adv_hist_lastpos s).

(** ** Advertising reports: [adv_report_parse] *)

Definition u32 (x : Z) : Z := x mod 4294967296.

Definition BLE_GAP_AD_TYPE_MANUFACTURER_SPECIFIC_DATA : Z := 0xFF.

(** The [while (index < p_advdata->size)] loop, entered at [index].  A field
    that matches is returned as the source returns it: a pointer to the byte
    after the type, here the rest of the report from there on, and the length
    byte less one as a [uint16_t].  The inner [None] is NRF_ERROR_NOT_FOUND,
    the outer one means that [fuel] passes were not enough. *)
Fixpoint adv_report_scan (fuel : nat) (type : Z) (p_advdata : uint8_array_t)
    (index : Z) : option (option uint8_array_t) :=
  if index <? size p_advdata then
    match fuel with
    | O => None
    | S k =>
        let field_length := u8 (rd 0 (p_data p_advdata) index) in
        let field_type := u8 (rd 0 (p_data p_advdata) (index + 1)) in
        if field_type =? type then
          Some (Some (mk_uint8_array
                        (u16 (field_length - 1))
                        (skipn (Z.to_nat (index + 2)) (p_data p_advdata))))
        else adv_report_scan k type p_advdata (u32 (index + (field_length + 1)))
    end
  else Some None.

(** Every pass moves [index] on by at least one, so [size] passes are
    enough. *)
Definition adv_report_parse (type : Z) (p_advdata : uint8_array_t)
  : option (option uint8_array_t) :=
  adv_report_scan (Z.to_nat (size p_advdata)) type p_advdata 0.

(** The first [size] bytes an array descriptor points at. *)
Definition array_bytes (a : uint8_array_t) : list Z :=
  map (rd 0 (p_data a)) (zrange 0 (Z.to_nat (size a))).

(** The layout [adv_report_parse] reads: each field is a length byte, which
    counts the type byte and the value, the type byte, and the value. *)
Definition ad_field (f : Z * list Z) : list Z :=
  (Z.of_nat (length (snd f)) + 1) :: fst f :: snd f.

Definition ad_encode (fields : list (Z * list Z)) : list Z :=
  concat (map ad_field fields).

(** The first field of type [t]. *)
Fixpoint ad_lookup (t : Z) (fields : list (Z * list Z)) : option (list Z) :=
  match fields with
  | [] => None
  | f :: r => if fst f =? t then Some (snd f) else ad_lookup t r
  end.

(** ** Runs of the whole node *)

(** [vf_start_broadcast_data]: a fixed 18-byte record from this node to the
    sink, with packet id 3, goes to the pool (the calls that stop and start
    the advertiser around it are not modelled). *)
Definition vf_start_broadcast_data (st : state) : state :=
  snd (vf_add_packet_to_buffer3
         (mk_uint8_array 18 [CLUSTER_ID; SINK_ID; 3; 0; 1; 2; 3; 4; 5; 6; 7; 8;
                             9; 10; 11; 12; 13; 14])
         st).

Inductive node_event :=
| NodeTick
| NodeHistTick (j_uninit : Z)
| NodeIngest (i_uninit : Z) (userdata : uint8_array_t)
| NodeLocal (c : link_case) (data : thingy_data_t)
| NodeStartBroadcast.

Definition node_step (e : node_event) (st : state) : state :=
  match e with
  | NodeTick => tick st
  | NodeHistTick j => hist_tick j st
  | NodeIngest i u => on_adv_report i u st
  | NodeLocal c d => vf_adv_thingy_data c d st
  | NodeStartBroadcast => vf_start_broadcast_data st
  end.

Definition node_run (evs : list node_event) (st : state) : state :=
  fold_left (fun s e => node_step e s) evs st.

(** Received payloads that fit a block. *)
Definition node_event_ok (e : node_event) : Prop :=
  match e with
  | NodeIngest _ u => 0 <= size u <= 27
  | _ => True
  end.

(** The blocks handed to the advertiser, in order. *)
Definition adv_positions (log : list adv_event) : list Z :=
  flat_map (fun e => match e with AdvRelay p _ => [p] | AdvStop => [] end) log.

(** ** What one history tick does to an entry *)

(** The decrement of the first loops of the tick: [if (TTL > 0) TTL--]. *)
Definition ttl_dec (e : adv_history_buff_t) : adv_history_buff_t :=
  if 0 <? h_TTL e then mk_hist (h_id e) (h_TTL e - 1) else e.

(** Fields [ad_encode] lays out without loss: the type is a byte and the
    value is short enough for the length byte. *)
Definition ad_fields_ok (fields : list (Z * list Z)) : Prop :=
  Forall (fun f => 0 <= fst f < 256 /\ (length (snd f) <= 254)%nat) fields.

(** An advertising report with the bytes [l]. *)
Definition adv_report (l : list Z) : uint8_array_t :=
  mk_uint8_array (Z.of_nat (length l)) l.

(** ** The periodic sensor report: [vf_add_edata_adv_buff_callback] *)

(** One central link as the callback sees it: the connection handle of its
    environment client, and for a connected Thingy what
    [vf_ble_tes_average_temperature], [vf_ble_tes_average_pressure] and
    [vf_ble_tes_average_humidity] (which are not part of the sources) return
    for it, with the button state it last reported. *)
Record thingy_link := mk_thingy_link {
  tes_conn_handle : Z;
  avg_temperature : Z;
  avg_pressure : Z;
  avg_humidity : Z;
  edata_button : Z
}.

(** [update_state] is the value of AGG_NODE_LINK_DATA_UPDATE, from a header
    that is not part of the sources.  The averages are signed; the fields of
    [thingy_data_t] they are assigned to are unsigned. *)
Definition vf_add_edata_adv_buff_callback (g_is_sink : bool) (update_state : Z)
    (links : list thingy_link) (st : state) : state :=
  fold_left
    (fun s l =>
       if negb (tes_conn_handle l =? ThingyUis.BLE_CONN_HANDLE_INVALID) then
         if negb g_is_sink then
           vf_adv_thingy_data AGG_NODE_LINK_DATA_UPDATE
             (mk_thingy_data (u8 (tes_conn_handle l)) (u8 update_state)
                             (u8 (edata_button l)) (u16 (avg_temperature l))
                             (u32 (avg_pressure l)) (u16 (avg_humidity l)))
             s
         else s
       else s)
    links st.

(** The links that are connected. *)
Definition connected_links (links : list thingy_link) : list thingy_link :=
  List.filter
    (fun l => negb (tes_conn_handle l =? ThingyUis.BLE_CONN_HANDLE_INVALID))
    links.

(** [k] positions of the ring, from [a] on and around its end. *)
Definition ring_from (a : Z) (k : nat) : list Z :=
  map (fun t => (a + t) mod MAX_HIST_ADV_BUFF_SIZE) (zrange 0 k).

(** A wrapped history ring whose oldest entry, in the upper part, is about
    to expire: slots 127, 0 and 1 are live with ttl 1, 5 and 5. *)
Definition hist_high_expiry : hist_state :=
  mk_hist_state
    (wr (wr (wr (replicate 128 hist0) 127 (mk_hist 1 1)) 0 (mk_hist 2 5)) 1
        (mk_hist 3 5))
    3 127 2.

(** ** The earlier duplicate check: [vf_validate_relay_packet2] *)

(** [memcmp(checkdata->p_data, cmpdata, 3) == 0] for the block [pos]. *)
Definition same_ids (checkdata : uint8_array_t) (buf : list Z) (pos : Z) : bool :=
  (rd 0 (p_data checkdata) 0 =? rd 0 buf (blk pos 5))
  && (rd 0 (p_data checkdata) 1 =? rd 0 buf (blk pos 6))
  && (rd 0 (p_data checkdata) 2 =? rd 0 buf (blk pos 7)).

(** [while (pos != g_userdata_lastpos)], following the next pointers. *)
Fixpoint validate2_loop (fuel : nat) (checkdata : uint8_array_t)
    (buf : list Z) (last pos : Z) : option Z :=
  if pos =? last then Some 0xFFFF
  else
    match fuel with
    | O => None
    | S k =>
        if same_ids checkdata buf pos then Some pos
        else validate2_loop k checkdata buf last (rd 0 buf (blk pos 1))
    end.

(** With one record in the pool the record is compared; with more, the loop
    stops when it reaches the last one.  [None] only if the loop did not end
    within 16 passes. *)
Definition vf_validate_relay_packet2 (checkdata : uint8_array_t) (st : state)
  : option Z :=
  let p := pool st in
  let pos := g_userdata_firstpos p in
  if g_userdata_size p =? 0 then Some 0xFFFF
  else if g_userdata_size p =? 1 then
    Some (if same_ids checkdata (garr_userdata p) pos then pos else 0xFFFF)
  else
    validate2_loop (Z.to_nat MAX_USERDATA_BUFFER_BLOCK) checkdata
                   (garr_userdata p) (g_userdata_lastpos p) pos.

(** ** Local records and their packet ids *)

(** The number of local events among [evs]: the submissions to
    [vf_adv_thingy_data]. *)
Definition count_local (evs : list node_event) : nat :=
  length (List.filter (fun e => match e with NodeLocal _ _ => true | _ => false end)
                      evs).

(** The identity bytes (source, destination, packet id) of the record in
    the last block of the list, the one [vf_add_packet_to_buffer3] links
    in. *)
Definition last_identity (st : state) : Z * Z * Z :=
  let buf := garr_userdata (pool st) in
  let pos := g_userdata_lastpos (pool st) in
  (rd 0 buf (blk pos 5), rd 0 buf (blk pos 6), rd 0 buf (blk pos 7)).

(** 255 local events, each followed by three scheduler ticks, which
    advertise the record twice and release its block. *)
Definition local_rounds : list node_event :=
  concat (repeat [NodeLocal AGG_NODE_LINK_DISCONNECTED (mk_thingy_data 1 0 0 0 0 0);
                  NodeTick; NodeTick; NodeTick] 255).

(** The [thingy_data_t] the periodic report fills in for a link. *)
Definition link_data (update_state : Z) (l : thingy_link) : thingy_data_t :=
  mk_thingy_data (u8 (tes_conn_handle l)) (u8 update_state)
                 (u8 (edata_button l)) (u16 (avg_temperature l))
                 (u32 (avg_pressure l)) (u16 (avg_humidity l)).

(** The bytes [vf_adv_thingy_data] puts in [idata] for the data update of
    link [l] when [g_packetID] holds [pid]. *)
Definition link_record (update_state pid : Z) (l : thingy_link) : list Z :=
  p_data (thingy_idata AGG_NODE_LINK_DATA_UPDATE (link_data update_state l)
            (mk_state pool_init hist_init pid [] [] [])).

(** * Proofs *)

(** * Properties *)

(** ** Arrays *)

Section Arrays.
Context {A : Type} (d : A).
Implicit Types (buf : list A) (i j : Z) (v : A).

Lemma wr_length buf i v : length (wr buf i v) = length buf.
Proof. unfold wr. destruct (0 <=? i); [apply length_insert | reflexivity]. Qed.

Lemma rd_wr_eq buf i v :
  0 <= i < Z.of_nat (length buf) -> rd d (wr buf i v) i = v.
Proof.
  intros Hi. unfold rd, wr.
  destruct (Z.leb_spec 0 i); [| lia].
  rewrite list_lookup_insert_eq; [reflexivity | lia].
Qed.

Lemma rd_wr_ne buf i j v : i <> j -> rd d (wr buf i v) j = rd d buf j.
Proof.
  intros Hne. unfold rd, wr.
  destruct (Z.leb_spec 0 j); [| reflexivity].
  destruct (Z.leb_spec 0 i); [| reflexivity].
  rewrite list_lookup_insert_ne; [reflexivity | lia].
Qed.

Lemma rd_out buf i : Z.of_nat (length buf) <= i -> rd d buf i = d.
Proof.
  intros Hi. unfold rd. destruct (0 <=? i); [| reflexivity].
  rewrite lookup_ge_None_2; [reflexivity | lia].
Qed.

Lemma wr_out buf i v : Z.of_nat (length buf) <= i -> wr buf i v = buf.
Proof.
  intros Hi. unfold wr. destruct (0 <=? i); [| reflexivity].
  apply list_insert_ge. lia.
Qed.

Lemma map_rd_wr_notin buf i v (l : list Z) :
  ~ In i l -> map (rd d (wr buf i v)) l = map (rd d buf) l.
Proof.
  intros Hni. apply map_ext_in. intros j Hj.
  apply rd_wr_ne. intros ->. contradiction.
Qed.
End Arrays.

Lemma zrange_length a n : length (zrange a n) = n.
Proof. revert a. induction n as [|n IH]; intros a; simpl; [|rewrite IH]; reflexivity. Qed.

Lemma In_zrange x a n : In x (zrange a n) <-> a <= x < a + Z.of_nat n.
Proof.
  revert a. induction n as [|n IH]; intros a; simpl.
  - lia.
  - rewrite IH. lia.
Qed.

Lemma zrange_app a n m :
  zrange a (n + m) = zrange a n ++ zrange (a + Z.of_nat n) m.
Proof.
  revert a. induction n as [|n IH]; intros a; simpl.
  - f_equal. lia.
  - rewrite IH. do 3 f_equal. lia.
Qed.

Lemma zrange_snoc a n : 0 <= n ->
  zrange a (Z.to_nat (n + 1)) = zrange a (Z.to_nat n) ++ [a + n].
Proof.
  intros Hn. replace (Z.to_nat (n + 1)) with (Z.to_nat n + 1)%nat by lia.
  rewrite zrange_app. simpl. do 2 f_equal. lia.
Qed.

Lemma NoDup_zrange a n : List.NoDup (zrange a n).
Proof.
  revert a. induction n as [|n IH]; intros a; simpl; constructor.
  - rewrite In_zrange. lia.
  - apply IH.
Qed.

Lemma u8_small x : 0 <= x < 256 -> u8 x = x.
Proof. intros H. unfold u8. apply Z.mod_small. lia. Qed.

Lemma u16_small x : 0 <= x < 65536 -> u16 x = x.
Proof. intros H. unfold u16. apply Z.mod_small. lia. Qed.

Lemma tl_map {A B : Type} (f : A -> B) (l : list A) : tl (map f l) = map f (tl l).
Proof. destruct l; reflexivity. Qed.

(** ** The history buffer *)

Lemma hist_scan_Some h id i n p :
  hist_scan h id i n = Some p -> In p (zrange i n) /\ h_id (rd hist0 h p) = id.
Proof.
  revert i. induction n as [|n IH]; intros i; simpl; [discriminate|].
  destruct (Z.eqb_spec id (h_id (rd hist0 h i))) as [->|Hne].
  - intros [= ->]. auto.
  - intros H. apply IH in H. tauto.
Qed.

Lemma hist_scan_None h id i n :
  hist_scan h id i n = None <->
  (forall p, In p (zrange i n) -> h_id (rd hist0 h p) <> id).
Proof.
  revert i. induction n as [|n IH]; intros i; simpl.
  - split; [intros _ p [] | reflexivity].
  - destruct (Z.eqb_spec id (h_id (rd hist0 h i))) as [->|Hne].
    + split; [discriminate | intros H; exfalso; apply (H i); auto].
    + rewrite IH. split.
      * intros H p [<-|Hp]; [congruence | auto].
      * intros H p Hp. auto.
Qed.

Lemma hist_positions_range s p :
  hist_wf s -> In p (hist_positions s) -> 0 <= p < MAX_HIST_ADV_BUFF_SIZE.
Proof.
  unfold hist_wf, hist_positions, MAX_HIST_ADV_BUFF_SIZE.
  intros (_ & Hf & Hl & _).
  destruct (g_buff_adv_hist_size s =? 0); [intros []|].
  destruct (g_buff_adv_hist_firstpos s <? g_buff_adv_hist_lastpos s).
  - rewrite In_zrange. lia.
  - rewrite in_app_iff, !In_zrange. lia.
Qed.

(** The lookup finds an identity exactly when a live entry carries it. *)
Lemma find_spec id s :
  hist_wf s ->
  vf_find_id_buff_adv_hist3 id s <> 0xFFFF <-> In id (hist_ids s).
Proof.
  intros Hwf.
  assert (Hr := fun p => hist_positions_range s p Hwf).
  unfold hist_ids, hist_live. rewrite map_map, in_map_iff.
  unfold vf_find_id_buff_adv_hist3, hist_positions in *.
  unfold MAX_HIST_ADV_BUFF_SIZE in *.
  destruct (g_buff_adv_hist_size s =? 0).
  { split; [congruence | intros (p & _ & [])]. }
  destruct (g_buff_adv_hist_firstpos s <? g_buff_adv_hist_lastpos s).
  - destruct (hist_scan _ id _ _) as [p|] eqn:E.
    + apply hist_scan_Some in E as [Hp Hid].
      split; [eauto | intros _; specialize (Hr p Hp); lia].
    + split; [congruence|]. intros (p & Hid & Hp).
      exfalso. eapply hist_scan_None; eauto.
  - destruct (hist_scan _ id _ (Z.to_nat (128 - _))) as [p|] eqn:E.
    + apply hist_scan_Some in E as [Hp Hid].
      assert (In p (zrange (g_buff_adv_hist_firstpos s)
                (Z.to_nat (128 - g_buff_adv_hist_firstpos s))
              ++ zrange 0 (Z.to_nat (g_buff_adv_hist_lastpos s))))
        by (apply in_app_iff; auto).
      split; [eauto | intros _; specialize (Hr p H); lia].
    + destruct (hist_scan _ id 0 _) as [p|] eqn:E2.
      * apply hist_scan_Some in E2 as [Hp Hid].
        assert (In p (zrange (g_buff_adv_hist_firstpos s)
                  (Z.to_nat (128 - g_buff_adv_hist_firstpos s))
                ++ zrange 0 (Z.to_nat (g_buff_adv_hist_lastpos s))))
          by (apply in_app_iff; auto).
        split; [eauto | intros _; specialize (Hr p H); lia].
      * split; [congruence|]. intros (p & Hid & Hp).
        rewrite hist_scan_None in E, E2.
        apply in_app_iff in Hp as [Hp|Hp]; exfalso;
          [eapply E | eapply E2]; eauto.
Qed.

Lemma hist_positions_length s :
  hist_wf s -> Z.of_nat (length (hist_positions s)) = g_buff_adv_hist_size s.
Proof.
  unfold hist_wf, hist_positions, MAX_HIST_ADV_BUFF_SIZE.
  intros (_ & Hf & Hl & Hsz).
  destruct (Z.eqb_spec (g_buff_adv_hist_size s) 0) as [E|E]; [simpl; lia|].
  destruct (Z.ltb_spec (g_buff_adv_hist_firstpos s) (g_buff_adv_hist_lastpos s)).
  - rewrite zrange_length. lia.
  - rewrite length_app, !zrange_length. lia.
Qed.

Lemma hist_init_wf : hist_wf hist_init.
Proof. unfold hist_wf, hist_init, MAX_HIST_ADV_BUFF_SIZE; simpl. repeat split; try lia. Qed.

Lemma add_present id s :
  hist_wf s -> In id (hist_ids s) -> vf_add_buff_adv_hist3 id s = (0xFFFF, s).
Proof.
  intros Hwf Hin. apply (find_spec id s Hwf) in Hin.
  unfold vf_add_buff_adv_hist3.
  destruct (Z.eqb_spec (vf_find_id_buff_adv_hist3 id s) 0xFFFF); [contradiction|].
  reflexivity.
Qed.


Lemma hist_positions_ring s :
  hist_positions s =
  ring (g_buff_adv_hist_size s) (g_buff_adv_hist_firstpos s)
       (g_buff_adv_hist_lastpos s).
Proof. reflexivity. Qed.

Lemma ring_push sz first last :
  0 <= first < 128 -> 0 <= last < 128 -> sz < 128 ->
  ((sz = 0 /\ first = last) \/ (first < last /\ sz = last - first) \/
   (last <= first /\ sz = 128 - first + last)) ->
  ring (sz + 1) first (ring_next last) = ring sz first last ++ [last].
Proof.
  intros Hf Hl Hlt Hsz.
  unfold ring, ring_next, hist_positions, MAX_HIST_ADV_BUFF_SIZE.
  cbn [g_buff_adv_hist_size g_buff_adv_hist_firstpos g_buff_adv_hist_lastpos].
  destruct (Z.eqb_spec (sz + 1) 0); [lia|].
  destruct (Z.eqb_spec (last + 1) 128) as [E|E].
  - destruct (Z.ltb_spec first 0); [lia|].
    change (zrange 0 (Z.to_nat 0)) with (@nil Z). rewrite app_nil_r.
    destruct (Z.eqb_spec sz 0) as [Z0|Z0].
    + replace (128 - first) with 1 by lia. simpl. f_equal. lia.
    + destruct (Z.ltb_spec first last); [|lia].
      replace (128 - first) with ((last - first) + 1) by lia.
      rewrite zrange_snoc by lia. do 2 f_equal. lia.
  - destruct (Z.eqb_spec sz 0) as [Z0|Z0].
    + destruct (Z.ltb_spec first (last + 1)); [|lia].
      replace (last + 1 - first) with 1 by lia. simpl. f_equal. lia.
    + destruct (Z.ltb_spec first last).
      * destruct (Z.ltb_spec first (last + 1)); [|lia].
        replace (last + 1 - first) with ((last - first) + 1) by lia.
        rewrite zrange_snoc by lia. do 2 f_equal. lia.
      * destruct (Z.ltb_spec first (last + 1)); [lia|].
        rewrite zrange_snoc by lia. rewrite app_assoc. reflexivity.
Qed.

Lemma ring_rotate last :
  0 <= last < 128 ->
  ring 128 (ring_next last) (ring_next last) = tl (ring 128 last last) ++ [last].
Proof.
  intros Hl.
  unfold ring, ring_next, hist_positions, MAX_HIST_ADV_BUFF_SIZE.
  cbn [g_buff_adv_hist_size g_buff_adv_hist_firstpos g_buff_adv_hist_lastpos].
  change (128 =? 0) with false. cbv iota.
  rewrite !Z.ltb_irrefl.
  destruct (Z.eqb_spec (last + 1) 128) as [E|E].
  - replace (128 - last) with 1 by lia.
    change (zrange 0 (Z.to_nat 0)) with (@nil Z). rewrite app_nil_r.
    replace (128 - 0) with (last + 1) by lia.
    rewrite zrange_snoc by lia. reflexivity.
  - replace (128 - last) with ((128 - (last + 1)) + 1) by lia.
    replace (Z.to_nat (128 - (last + 1) + 1))
      with (S (Z.to_nat (128 - (last + 1)))) by lia.
    rewrite zrange_snoc by lia. cbn [zrange app tl].
    rewrite app_assoc. reflexivity.
Qed.

Lemma ring_notin sz first last :
  0 <= first < 128 -> 0 <= last < 128 -> sz < 128 ->
  ((sz = 0 /\ first = last) \/ (first < last /\ sz = last - first) \/
   (last <= first /\ sz = 128 - first + last)) ->
  ~ In last (ring sz first last).
Proof.
  intros Hf Hl Hlt Hsz.
  unfold ring, hist_positions, MAX_HIST_ADV_BUFF_SIZE.
  cbn [g_buff_adv_hist_size g_buff_adv_hist_firstpos g_buff_adv_hist_lastpos].
  destruct (Z.eqb_spec sz 0); [intros []|].
  destruct (Z.ltb_spec first last).
  - rewrite In_zrange. lia.
  - rewrite in_app_iff, !In_zrange. lia.
Qed.

Lemma ring_full_head last :
  0 <= last < 128 ->
  ring 128 last last = last :: tl (ring 128 last last) /\
  ~ In last (tl (ring 128 last last)).
Proof.
  intros Hl.
  unfold ring, hist_positions, MAX_HIST_ADV_BUFF_SIZE.
  cbn [g_buff_adv_hist_size g_buff_adv_hist_firstpos g_buff_adv_hist_lastpos].
  change (128 =? 0) with false. cbv iota. rewrite Z.ltb_irrefl.
  replace (Z.to_nat (128 - last)) with (S (Z.to_nat (128 - (last + 1)))) by lia.
  cbn [zrange app tl]. split; [reflexivity|].
  rewrite in_app_iff, !In_zrange. lia.
Qed.

(** Inserting an absent identity: the ring stays well formed, and the live
    entries are the old ones, less the oldest if the buffer was full, followed
    by the new entry with a ttl of 10. *)
Lemma add_absent id s :
  hist_wf s -> ~ In id (hist_ids s) ->
  let s' := snd (vf_add_buff_adv_hist3 id s) in
  hist_wf s' /\
  hist_live s' =
    (if g_buff_adv_hist_size s <? MAX_HIST_ADV_BUFF_SIZE then hist_live s
     else tl (hist_live s)) ++ [mk_hist id 10].
Proof.
  intros Hwf Hni. rewrite <- (find_spec id s Hwf) in Hni.
  unfold vf_add_buff_adv_hist3.
  destruct (Z.eqb_spec (vf_find_id_buff_adv_hist3 id s) 0xFFFF) as [_|]; [|tauto].
  cbn [negb snd]. clear Hni.
  destruct Hwf as (Hlen & Hf & Hl & Hsz).
  destruct s as [h sz first last]. cbn [g_buff_adv_hist g_buff_adv_hist_size
    g_buff_adv_hist_firstpos g_buff_adv_hist_lastpos] in *.
  unfold MAX_HIST_ADV_BUFF_SIZE in *.
  assert (Hu : u8 (last + 1) = last + 1) by (apply u8_small; lia).
  rewrite Hu. fold (ring_next last).
  assert (Hrd : rd hist0 (wr h last (mk_hist id 10)) last = mk_hist id 10)
    by (apply rd_wr_eq; lia).
  assert (Hn : 0 <= ring_next last < 128)
    by (unfold ring_next; destruct (Z.eqb_spec (last + 1) 128); lia).
  unfold hist_live. rewrite !hist_positions_ring.
  unfold hist_wf, MAX_HIST_ADV_BUFF_SIZE.
  cbn [g_buff_adv_hist g_buff_adv_hist_size
    g_buff_adv_hist_firstpos g_buff_adv_hist_lastpos].
  rewrite wr_length.
  destruct (Z.ltb_spec sz 128) as [Hlt|Hge].
  - assert (Hs1 : u8 (sz + 1) = sz + 1) by (apply u8_small; lia).
    rewrite Hs1.
    destruct (Z.eqb_spec sz 128) as [|_]; [lia|]. cbn [negb].
    split.
    + repeat split; try lia.
      unfold ring_next. destruct (Z.eqb_spec (last + 1) 128); lia.
    + rewrite ring_push by assumption. rewrite map_app. cbn [map].
      rewrite Hrd. f_equal. apply map_rd_wr_notin.
      apply ring_notin; assumption.
  - assert (sz = 128 /\ first = last) as [-> ->] by lia.
    change (128 =? 128) with true. cbn [negb].
    split; [repeat split; try lia|].
    rewrite ring_rotate by assumption. rewrite map_app. cbn [map].
    rewrite Hrd. f_equal.
    destruct (ring_full_head last Hl) as [Hhd Hnotin].
    rewrite !tl_map. apply map_rd_wr_notin. assumption.
Qed.

Lemma hist_inserts_wf l s : hist_wf s -> hist_wf (hist_inserts l s).
Proof.
  revert s. induction l as [|id l IH]; intros s Hwf; [assumption|].
  apply IH. destruct (in_dec Z.eq_dec id (hist_ids s)) as [Hin|Hni].
  - rewrite add_present by assumption. assumption.
  - apply add_absent; assumption.
Qed.

(** C4. History insert is a no-op when the identity is already present;
    otherwise the identity is appended with a ttl of 10, and when the buffer
    already holds 128 entries exactly one entry, the oldest, is dropped for
    it.  After every sequence of inserts the size is the number of live
    entries and is at most 128. *)
Theorem C4_history_insert (l : list Z) (id : Z) :
  let s := hist_inserts l hist_init in
  let s' := snd (vf_add_buff_adv_hist3 id s) in
  g_buff_adv_hist_size s <= MAX_HIST_ADV_BUFF_SIZE /\
  Z.of_nat (length (hist_live s)) = g_buff_adv_hist_size s /\
  (In id (hist_ids s) -> s' = s) /\
  (~ In id (hist_ids s) -> g_buff_adv_hist_size s < MAX_HIST_ADV_BUFF_SIZE ->
   hist_live s' = hist_live s ++ [mk_hist id 10]) /\
  (~ In id (hist_ids s) -> g_buff_adv_hist_size s = MAX_HIST_ADV_BUFF_SIZE ->
   hist_live s' = tl (hist_live s) ++ [mk_hist id 10]).
Proof.
  intros s s'.
  assert (Hwf : hist_wf s) by (apply hist_inserts_wf, hist_init_wf).
  split; [|split; [|split; [|split]]].
  - destruct Hwf as (_ & Hf & Hl & Hsz).
    unfold MAX_HIST_ADV_BUFF_SIZE in *. lia.
  - unfold hist_live. rewrite length_map. apply hist_positions_length, Hwf.
  - intros Hin. unfold s'. rewrite add_present by assumption. reflexivity.
  - intros Hni Hlt. destruct (add_absent id s Hwf Hni) as [_ Hlive].
    fold s' in Hlive. rewrite Hlive.
    destruct (Z.ltb_spec (g_buff_adv_hist_size s) MAX_HIST_ADV_BUFF_SIZE);
      [reflexivity | lia].
  - intros Hni Hfull. destruct (add_absent id s Hwf Hni) as [_ Hlive].
    fold s' in Hlive. rewrite Hlive.
    destruct (Z.ltb_spec (g_buff_adv_hist_size s) MAX_HIST_ADV_BUFF_SIZE);
      [lia | reflexivity].
Qed.

(** C8. A received payload whose source byte is the node's own id is
    dropped by the classifier: the whole state, and with it the pool, the
    advertising log and the log of deliveries to the phone, is unchanged. *)
Theorem C8_self_echo_discarded (i_uninit : Z) (userdata : uint8_array_t)
    (st : state) :
  rd 0 (p_data userdata) 0 = CLUSTER_ID ->
  on_adv_report i_uninit userdata st = st.
Proof.
  intros Hsrc. unfold on_adv_report, vf_check_source.
  rewrite Hsrc, Z.eqb_refl. reflexivity.
Qed.

Lemma C8_self_echo_discarded_witness :
  on_adv_report 0 (mk_uint8_array 6 [5; 10; 1; 0; 7; 8]) state_init = state_init.
Proof. apply C8_self_echo_discarded. reflexivity. Defined.

(** ** Local events *)

Lemma add_packet_g_packetID br st :
  g_packetID (snd (vf_add_packet_to_buffer3 br st)) = g_packetID st.
Proof.
  unfold vf_add_packet_to_buffer3.
  destruct (_ <? _); [|reflexivity].
  destruct (find_free _ _ _); reflexivity.
Qed.

Lemma thingy_identity c data st :
  identity (thingy_idata c data st) = (CLUSTER_ID, SINK_ID, g_packetID st).
Proof. destruct c; reflexivity. Qed.

Lemma run_thingy_g_packetID evs st :
  0 <= g_packetID st < 256 ->
  g_packetID (run_thingy evs st)
  = (g_packetID st + Z.of_nat (length evs)) mod 256.
Proof.
  revert st. induction evs as [|[c d] evs IH]; intros st Hr.
  - simpl. rewrite Z.add_0_r, Z.mod_small; lia.
  - simpl fold_left. unfold run_thingy in IH |- *. simpl fold_left. rewrite IH.
    + unfold vf_adv_thingy_data. rewrite add_packet_g_packetID. simpl g_packetID.
      unfold u8. rewrite Zplus_mod_idemp_l. f_equal. simpl length. lia.
    + unfold vf_adv_thingy_data. rewrite add_packet_g_packetID. simpl.
      apply Z.mod_pos_bound. lia.
Qed.

(** ** The block pool *)

Lemma memcpy_length dst doff src soff n :
  length (memcpy dst doff src soff n) = length dst.
Proof.
  revert dst doff soff. induction n as [|n IH]; intros; simpl; [reflexivity|].
  rewrite IH. apply wr_length.
Qed.

Lemma rd_memcpy_out dst doff src soff n j :
  j < doff \/ doff + Z.of_nat n <= j ->
  rd 0 (memcpy dst doff src soff n) j = rd 0 dst j.
Proof.
  revert dst doff soff. induction n as [|n IH]; intros dst doff soff Hj; simpl;
    [reflexivity|].
  rewrite IH by lia. apply rd_wr_ne. lia.
Qed.

Lemma rd_memcpy_in dst doff src soff n j :
  0 <= doff -> doff + Z.of_nat n <= Z.of_nat (length dst) ->
  doff <= j < doff + Z.of_nat n ->
  rd 0 (memcpy dst doff src soff n) j = rd 0 src (soff + (j - doff)).
Proof.
  revert dst doff soff. induction n as [|n IH]; intros dst doff soff H0 Hlen Hj;
    simpl; [lia|].
  destruct (Z.eq_dec j doff) as [->|Hne].
  - rewrite rd_memcpy_out by lia. rewrite rd_wr_eq by lia. f_equal. lia.
  - rewrite IH; [f_equal; lia | lia | rewrite wr_length; lia | lia].
Qed.

(** Address arithmetic on blocks is linear once [blk] is unfolded. *)
Ltac blk_lia :=
  unfold blk, MAX_USERDATA_BUFFER_BLOCKSIZE, MAX_USERDATA_BUFFER_BLOCK in *; lia.

Ltac rd_ne := rewrite rd_wr_ne by blk_lia.
Ltac rd_eq := rewrite rd_wr_eq by (rewrite ?wr_length, ?memcpy_length; blk_lia).


Lemma find_free_Some buf i n p :
  find_free buf i n = Some p ->
  i <= p < i + Z.of_nat n /\ rd 0 buf (blk p 0) = 0.
Proof.
  revert i. induction n as [|n IH]; intros i; simpl; [discriminate|].
  destruct (Z.eqb_spec (rd 0 buf (blk i 0)) 0) as [E|E].
  - intros [= <-]. split; [lia | assumption].
  - intros H. apply IH in H. split; [lia | tauto].
Qed.

Lemma find_free_None buf i n :
  find_free buf i n = None <->
  (forall q, i <= q < i + Z.of_nat n -> rd 0 buf (blk q 0) <> 0).
Proof.
  revert i. induction n as [|n IH]; intros i; simpl.
  - split; [intros _ q Hq; lia | reflexivity].
  - destruct (Z.eqb_spec (rd 0 buf (blk i 0)) 0) as [E|E].
    + split; [discriminate | intros H; exfalso; apply (H i); [lia | assumption]].
    + rewrite IH. split.
      * intros H q Hq. destruct (Z.eq_dec q i) as [->|]; [assumption|].
        apply H. lia.
      * intros H q Hq. apply H. lia.
Qed.

Lemma filter_length_le {A : Type} (f : A -> bool) (l : list A) :
  (length (List.filter f l) <= length l)%nat.
Proof. induction l as [|a l IH]; simpl; [lia|]. destruct (f a); simpl; lia. Qed.

Lemma filter_length_all {A : Type} (f : A -> bool) (l : list A) :
  length (List.filter f l) = length l <-> (forall x, In x l -> f x = true).
Proof.
  induction l as [|a l IH]; simpl.
  - split; [intros _ x [] | reflexivity].
  - pose proof (filter_length_le f l) as Hle.
    destruct (f a) eqn:E; simpl.
    + split.
      * intros H x [<-|Hx]; [assumption|]. apply IH; [lia | assumption].
      * intros H. f_equal. apply IH. auto.
    + split; [lia|]. intros H. rewrite (H a) in E by auto. discriminate.
Qed.

Lemma block_used_true buf i : block_used buf i = true <-> rd 0 buf (blk i 0) <> 0.
Proof. unfold block_used. destruct (Z.eqb_spec (rd 0 buf (blk i 0)) 0); simpl; split; congruence. Qed.

Lemma block_used_false buf i : block_used buf i = false <-> rd 0 buf (blk i 0) = 0.
Proof. unfold block_used. destruct (Z.eqb_spec (rd 0 buf (blk i 0)) 0); simpl; split; congruence. Qed.

Lemma used_count_le buf : used_count buf <= 16.
Proof.
  unfold used_count.
  pose proof (filter_length_le (block_used buf)
                (zrange 0 (Z.to_nat MAX_USERDATA_BUFFER_BLOCK))) as H.
  rewrite zrange_length in H. unfold MAX_USERDATA_BUFFER_BLOCK in *. lia.
Qed.

Lemma used_count_full buf :
  used_count buf = 16 <-> (forall i, 0 <= i < 16 -> block_used buf i = true).
Proof.
  unfold used_count. 
  pose proof (filter_length_all (block_used buf)
                (zrange 0 (Z.to_nat MAX_USERDATA_BUFFER_BLOCK))) as H.
  rewrite zrange_length in H. unfold MAX_USERDATA_BUFFER_BLOCK in *.
  split.
  - intros E i Hi. apply H; [lia | apply In_zrange; lia].
  - intros Hall. apply Z2Nat.inj; try lia. rewrite Nat2Z.id.
    apply H. intros x Hx. apply In_zrange in Hx. apply Hall. lia.
Qed.

(** What [vf_add_packet_to_buffer3] does, byte by byte. *)
Lemma add_spec (br : uint8_array_t) (st : state) :
  let p := pool st in
  let buf := garr_userdata p in
  length buf = 512%nat ->
  g_userdata_size p = used_count buf ->
  0 <= size br <= 27 ->
  (0 < g_userdata_size p ->
   0 <= g_userdata_lastpos p < 16 /\ block_used buf (g_userdata_lastpos p) = true) ->
  let err := fst (vf_add_packet_to_buffer3 br st) in
  let st' := snd (vf_add_packet_to_buffer3 br st) in
  let p' := pool st' in
  let buf' := garr_userdata p' in
  (err = 1 <-> (forall i, 0 <= i < 16 -> block_used buf i = true)) /\
  (err = 1 -> st' = st) /\
  (err <> 1 ->
   err = 0 /\
   exists pos,
     0 <= pos < 16 /\ block_used buf pos = false /\
     rd 0 buf' (blk pos 0) = 0xFF /\
     rd 0 buf' (blk pos 3) = 2 /\
     rd 0 buf' (blk pos 4) = size br + 1 /\
     (forall k, 0 <= k < size br ->
                rd 0 buf' (blk pos (5 + k)) = rd 0 (p_data br) k) /\
     g_userdata_lastpos p' = pos /\
     rd 0 buf' (blk pos 1) = 0xFF /\
     (if g_userdata_size p =? 0
      then g_userdata_firstpos p' = pos /\ g_userdata_currpos p' = pos /\
           rd 0 buf' (blk pos 2) = 0xFF
      else g_userdata_firstpos p' = g_userdata_firstpos p /\
           g_userdata_currpos p' = g_userdata_currpos p /\
           rd 0 buf' (blk pos 2) = g_userdata_lastpos p /\
           rd 0 buf' (blk (g_userdata_lastpos p) 1) = pos) /\
     g_userdata_size p' = g_userdata_size p + 1 /\
     (forall i, 0 <= i < 16 -> i <> pos -> block_used buf' i = block_used buf i) /\
     length buf' = 512%nat /\
     (forall a k, 0 <= a < 16 -> a <> pos -> 0 <= k < 32 ->
                  (g_userdata_size p = 0 \/ a <> g_userdata_lastpos p \/ k <> 1) ->
                  rd 0 buf' (blk a k) = rd 0 buf (blk a k)) /\
     g_packetID st' = g_packetID st /\ relay_data st' = relay_data st /\
     hist st' = hist st /\ adv_log st' = adv_log st /\
     phone_log st' = phone_log st).
Proof.
  intros p buf Hlen Hsz Hbr Hlast. cbv zeta.
  pose proof (used_count_le buf) as Hle.
  assert (H0 : 0 <= used_count buf) by (unfold used_count; lia).
  unfold vf_add_packet_to_buffer3.
  fold p. fold buf. unfold MAX_USERDATA_BUFFER_BLOCK.
  destruct (Z.ltb_spec (g_userdata_size p) 16) as [Hlt|Hge].
  - destruct (find_free buf 0 (Z.to_nat 16)) as [pos|] eqn:Ef.
    + apply find_free_Some in Ef as [Hpos Hfree].
      change (Z.of_nat (Z.to_nat 16)) with 16 in Hpos.
      cbn [fst snd]. split; [|split; [discriminate|]].
      { split; [discriminate|]. intros Hall. specialize (Hall pos ltac:(lia)).
        apply block_used_true in Hall. contradiction. }
      intros _. split; [reflexivity|]. exists pos.
      assert (Hu8 : u8 (size br + 1) = size br + 1) by (apply u8_small; lia).
      assert (Hu16 : u16 (g_userdata_size p + 1) = g_userdata_size p + 1)
        by (apply u16_small; lia).
      cbn [pool set_pool garr_userdata g_userdata_size g_userdata_firstpos
           g_userdata_lastpos g_userdata_currpos hist adv_log phone_log
           g_packetID relay_data].
      rewrite Hu8, Hu16.
      split; [lia|]. split; [apply block_used_false; assumption|].
      assert (Hlenb : forall b : list Z, length b = 512%nat ->
                0 <= blk pos 5 /\
                blk pos 5 + Z.of_nat (Z.to_nat (size br)) <= Z.of_nat (length b))
        by (intros b Hb; rewrite Hb; blk_lia).
      destruct (Z.eqb_spec (g_userdata_size p) 0) as [Hz|Hnz].
      * repeat split; try reflexivity.
        -- rewrite rd_memcpy_out by blk_lia. do 2 rd_ne. rd_eq. reflexivity.
        -- rewrite rd_memcpy_out by blk_lia. rd_ne. rd_eq. reflexivity.
        -- rewrite rd_memcpy_out by blk_lia. rd_eq. reflexivity.
        -- intros k Hk. rewrite rd_memcpy_in;
             [f_equal; blk_lia | blk_lia | rewrite !wr_length; blk_lia | blk_lia].
        -- rewrite rd_memcpy_out by blk_lia. do 3 rd_ne. rd_eq. reflexivity.
        -- rewrite rd_memcpy_out by blk_lia. do 4 rd_ne. rd_eq. reflexivity.
        -- intros i Hi Hne. unfold block_used.
           rewrite rd_memcpy_out by blk_lia. do 5 rd_ne. reflexivity.
        -- rewrite memcpy_length, !wr_length. assumption.
        -- intros a k Ha Hap Hk _.
           rewrite rd_memcpy_out by blk_lia. do 5 rd_ne. reflexivity.
      * destruct Hlast as [Hl Hlu]; [lia|].
        assert (g_userdata_lastpos p <> pos).
        { intros E. rewrite E in Hlu. apply block_used_true in Hlu.
          contradiction. }
        repeat split; try reflexivity.
        -- rewrite rd_memcpy_out by blk_lia. do 2 rd_ne. rd_eq. reflexivity.
        -- rewrite rd_memcpy_out by blk_lia. rd_ne. rd_eq. reflexivity.
        -- rewrite rd_memcpy_out by blk_lia. rd_eq. reflexivity.
        -- intros k Hk. rewrite rd_memcpy_in;
             [f_equal; blk_lia | blk_lia | rewrite !wr_length; blk_lia | blk_lia].
        -- rewrite rd_memcpy_out by blk_lia. do 3 rd_ne. rd_eq. reflexivity.
        -- rewrite rd_memcpy_out by blk_lia. do 4 rd_ne. rd_eq. reflexivity.
        -- rewrite rd_memcpy_out by blk_lia. do 5 rd_ne. rd_eq. reflexivity.
        -- intros i Hi Hne. unfold block_used.
           rewrite rd_memcpy_out by blk_lia. do 6 rd_ne. reflexivity.
        -- rewrite memcpy_length, !wr_length. assumption.
        -- intros a k Ha Hap Hk Hor.
           rewrite rd_memcpy_out by blk_lia. do 6 rd_ne. reflexivity.
    + cbn [fst snd]. rewrite find_free_None in Ef.
      change (Z.of_nat (Z.to_nat 16)) with 16 in Ef.
      split; [|split; [reflexivity | congruence]].
      split; [|reflexivity]. intros _ i Hi. apply block_used_true, Ef. lia.
  - cbn [fst snd]. split; [|split; [reflexivity | congruence]].
    split; [|reflexivity]. intros _. apply used_count_full. lia.
Qed.

Ltac mod_lia :=
  unfold blk, u16, u8, MAX_USERDATA_BUFFER_BLOCKSIZE,
    MAX_USERDATA_BUFFER_BLOCK in *;
  Z.div_mod_to_equations; lia.

Lemma set_hist_pool h st : pool (set_hist h st) = pool st.
Proof. reflexivity. Qed.

Lemma set_pool_pool p st : pool (set_pool p st) = p.
Proof. reflexivity. Qed.

(** Releasing a block writes only bytes 0, 1 and 2 of blocks. *)
Lemma delete_frame cond st j :
  3 <= j mod 32 ->
  rd 0 (garr_userdata (pool (vf_delete_block_buffer3 cond st))) j
  = rd 0 (garr_userdata (pool st)) j.
Proof.
  intros Hj. unfold vf_delete_block_buffer3.
  destruct (g_userdata_size (pool st) =? 0); [reflexivity|].
  assert (E : forall st0, pool (if cond then set_hist (snd (vf_add_buff_adv_hist3
                (make_ids (rd 0 (garr_userdata (pool st)) (u16 (g_userdata_currpos (pool st) * MAX_USERDATA_BUFFER_BLOCKSIZE) + 5))
                          (rd 0 (garr_userdata (pool st)) (u16 (g_userdata_currpos (pool st) * MAX_USERDATA_BUFFER_BLOCKSIZE) + 6))
                          (rd 0 (garr_userdata (pool st)) (u16 (g_userdata_currpos (pool st) * MAX_USERDATA_BUFFER_BLOCKSIZE) + 7)))
                (hist st0))) st0 else st0) = pool st0)
    by (intros st0; destruct cond; reflexivity).
  rewrite E, set_pool_pool. clear E.
  destruct (g_userdata_size (pool st) =? 1);
    [|destruct (_ =? g_userdata_firstpos _);
      [|destruct (_ =? g_userdata_lastpos _)]];
    cbn [garr_userdata]; repeat (rewrite rd_wr_ne by mod_lia); reflexivity.
Qed.

Lemma delete_adv_log cond st :
  adv_log (vf_delete_block_buffer3 cond st) = adv_log st.
Proof.
  unfold vf_delete_block_buffer3.
  destruct (_ =? 0); [reflexivity|]. destruct cond; reflexivity.
Qed.

Lemma delete_size cond st :
  0 < g_userdata_size (pool st) ->
  (Z.to_nat (g_userdata_size (pool (vf_delete_block_buffer3 cond st)))
   < Z.to_nat (g_userdata_size (pool st)))%nat.
Proof.
  intros Hpos. unfold vf_delete_block_buffer3.
  destruct (Z.eqb_spec (g_userdata_size (pool st)) 0); [lia|].
  assert (E : forall h st0, pool (if cond then set_hist h st0 else st0) = pool st0)
    by (intros h st0; destruct cond; reflexivity).
  rewrite E, set_pool_pool.
  destruct (Z.eqb_spec (g_userdata_size (pool st)) 1);
    [|destruct (_ =? g_userdata_firstpos _);
      [|destruct (_ =? g_userdata_lastpos _)]];
    cbn [g_userdata_size]; mod_lia.
Qed.

(** The scheduler loop always ends: the tick is a total function. *)
Lemma relay_loop_total fuel st :
  (Z.to_nat (g_userdata_size (pool st)) < fuel)%nat ->
  exists st', relay_loop fuel st = Some st'.
Proof.
  revert st. induction fuel as [|fuel IH]; intros st Hf; [lia|].
  cbn [relay_loop].
  destruct (Z.ltb_spec 0 (g_userdata_size (pool st))) as [Hpos|]; [|eauto].
  destruct (_ =? 0); [|eauto].
  apply IH.
  pose proof (delete_size false st Hpos) as Hd.
  destruct (_ =? 0); [unfold vf_stop_broadcast_data; cbn [pool]|]; lia.
Qed.

Lemma vf_relay_adv_data3_total st : exists st', vf_relay_adv_data3 st = Some st'.
Proof. apply relay_loop_total. lia. Qed.

Lemma map_zrange_shift {B : Type} (f g : Z -> B) a b n :
  (forall k, 0 <= k < Z.of_nat n -> f (a + k) = g (b + k)) ->
  map f (zrange a n) = map g (zrange b n).
Proof.
  revert a b. induction n as [|n IH]; intros a b H; simpl; [reflexivity|].
  f_equal.
  - specialize (H 0 ltac:(lia)). rewrite !Z.add_0_r in H. exact H.
  - apply IH. intros k Hk. specialize (H (1 + k) ltac:(lia)).
    rewrite !Z.add_assoc in H. exact H.
Qed.

(** A tick at a valid cursor block takes the transmit branch. *)
Lemma tick_transmit st :
  0 < g_userdata_size (pool st) ->
  rd 0 (garr_userdata (pool st)) (blk (g_userdata_currpos (pool st)) 4) <> 0 ->
  vf_relay_adv_data3 st = Some (relay_transmit st).
Proof.
  intros Hpos Hsz. unfold vf_relay_adv_data3. cbn [relay_loop].
  destruct (Z.ltb_spec 0 (g_userdata_size (pool st))); [|lia].
  destruct (Z.eqb_spec (rd 0 (garr_userdata (pool st))
             (blk (g_userdata_currpos (pool st)) 4)) 0); [contradiction|].
  reflexivity.
Qed.

Lemma transmit_adv_log st :
  let buf := garr_userdata (pool st) in
  let c := g_userdata_currpos (pool st) in
  length buf = 512%nat -> length (relay_data st) = 32%nat ->
  0 <= c < 16 -> 5 <= rd 0 buf (blk c 4) <= 28 ->
  adv_log (relay_transmit st) = adv_log st ++ [AdvRelay c (relay_payload buf c)].
Proof.
  intros buf c Hlen Hrl Hc Hrs. unfold relay_transmit. fold buf. fold c.
  set (rs := rd 0 buf (blk c 4)) in *.
  set (r0 := memcpy (wr (wr (relay_data st) 0 rs) 1 255) 2 buf (blk c 5)
               (Z.to_nat (rs - 1))).
  set (r := wr r0 5 (u8 (rd 0 r0 5 + 1))).
  assert (Hr0len : length r0 = 32%nat)
    by (unfold r0; rewrite memcpy_length, !wr_length; exact Hrl).
  assert (Hin : forall k, 2 <= k < rs + 1 -> rd 0 r0 k = rd 0 buf (blk c 5 + (k - 2))).
  { intros k Hk. unfold r0. rewrite rd_memcpy_in; [reflexivity|lia| |lia].
    rewrite !wr_length, Hrl. lia. }
  assert (Hlog : adv_log st ++ [AdvRelay c (map (rd 0 r) (zrange 0 (Z.to_nat (rs + 1))))]
                 = adv_log st ++ [AdvRelay c (relay_payload buf c)]).
  { do 3 f_equal. unfold relay_payload. fold rs.
    replace (Z.to_nat (rs + 1)) with (6 + Z.to_nat (rs - 5))%nat by lia.
    rewrite zrange_app. change (zrange 0 6) with [0; 1; 2; 3; 4; 5].
    change (0 + Z.of_nat 6) with 6. cbn [map app].
    unfold r.
    rewrite (rd_wr_eq 0 r0 5) by (rewrite Hr0len; lia).
    rewrite !(rd_wr_ne 0 r0 5) by lia.
    rewrite (Hin 2), (Hin 3), (Hin 4), (Hin 5) by lia.
    unfold r0 at 1 2. rewrite !rd_memcpy_out by lia.
    rewrite rd_wr_ne by lia. rewrite rd_wr_eq by lia.
    rewrite rd_wr_eq by (rewrite wr_length; lia).
    replace (blk c 5 + (2 - 2)) with (blk c 5) by lia.
    replace (blk c 5 + (3 - 2)) with (blk c 6) by blk_lia.
    replace (blk c 5 + (4 - 2)) with (blk c 7) by blk_lia.
    replace (blk c 5 + (5 - 2)) with (blk c 8) by blk_lia.
    do 6 f_equal.
    apply map_zrange_shift. intros k Hk.
    rewrite rd_wr_ne by lia. rewrite Hin by lia. f_equal. blk_lia. }
  destruct (_ =? 0).
  - rewrite delete_adv_log. exact Hlog.
  - exact Hlog.
Qed.

(** C7. A tick that advertises the block at the cursor hands over the
    stored size, the type byte 0xFF and the stored record with its hop count
    one higher (as a byte), lowers the block's count of advertisements left
    by one, and leaves the size byte and every byte of the stored record as
    they were. *)
Theorem C7_tick_frame (st : state) :
  let buf := garr_userdata (pool st) in
  let c := g_userdata_currpos (pool st) in
  length buf = 512%nat -> length (relay_data st) = 32%nat ->
  0 < g_userdata_size (pool st) -> 0 <= c < 16 ->
  5 <= rd 0 buf (blk c 4) <= 28 ->
  1 <= rd 0 buf (blk c 3) <= 255 ->
  exists st',
    vf_relay_adv_data3 st = Some st' /\
    adv_log st'
    = adv_log st
      ++ [AdvRelay c
            (rd 0 buf (blk c 4) :: 0xFF
               :: rd 0 buf (blk c 5) :: rd 0 buf (blk c 6) :: rd 0 buf (blk c 7)
               :: (rd 0 buf (blk c 8) + 1) mod 256
               :: map (rd 0 buf)
                      (zrange (blk c 9) (Z.to_nat (rd 0 buf (blk c 4) - 5))))] /\
    rd 0 (garr_userdata (pool st')) (blk c 3) = rd 0 buf (blk c 3) - 1 /\
    (forall k, 4 <= k < 32 ->
               rd 0 (garr_userdata (pool st')) (blk c k) = rd 0 buf (blk c k)).
Proof.
  intros buf c Hlen Hrl Hpos Hc Hrs Httl.
  exists (relay_transmit st). split; [apply tick_transmit; [assumption | fold buf; fold c; lia]|].
  split; [apply transmit_adv_log; assumption|].
  unfold relay_transmit. fold buf. fold c.
  assert (Hu : u8 (rd 0 buf (blk c 3) - 1) = rd 0 buf (blk c 3) - 1)
    by (apply u8_small; lia).
  rewrite Hu.
  destruct (_ =? 0).
  - split.
    + rewrite delete_frame by mod_lia. cbn [pool garr_userdata].
      rewrite rd_wr_eq by blk_lia. reflexivity.
    + intros k Hk. rewrite delete_frame by mod_lia. cbn [pool garr_userdata].
      apply rd_wr_ne. blk_lia.
  - cbn [pool set_pool garr_userdata]. split.
    + rewrite rd_wr_eq by blk_lia. reflexivity.
    + intros k Hk. apply rd_wr_ne. blk_lia.
Qed.

(** ** The list structure of the pool *)

Lemma hd_app_hd {A : Type} (d : A) (l1 l2 : list A) :
  List.hd d (l1 ++ l2) = List.hd (List.hd d l2) l1.
Proof. destruct l1; reflexivity. Qed.

Lemma last_cons_last {A : Type} (a d : A) (l : list A) :
  List.last (a :: l) d = List.last l a.
Proof.
  revert a d. induction l as [|b l IH]; intros a d; [reflexivity|].
  change (List.last (a :: b :: l) d) with (List.last (b :: l) d).
  rewrite (IH b d), (IH b a). reflexivity.
Qed.

Lemma last_In {A : Type} (d : A) (l : list A) :
  l <> [] -> In (List.last l d) l.
Proof.
  induction l as [|a l IH]; [congruence|]. intros _.
  destruct l as [|b l]; [left; reflexivity|].
  right. apply IH. discriminate.
Qed.

Lemma last_app_cons {A : Type} (d a : A) (l1 l2 : list A) :
  List.last (l1 ++ a :: l2) d = List.last l2 a.
Proof.
  induction l1 as [|b l1 IH]; simpl app.
  - apply last_cons_last.
  - rewrite <- IH. destruct (l1 ++ a :: l2) eqn:E; [|reflexivity].
    destruct l1; discriminate.
Qed.

Lemma lseg_app buf p l1 l2 q :
  lseg buf p (l1 ++ l2) q <->
  lseg buf p l1 (List.hd q l2) /\ lseg buf (List.last l1 p) l2 q.
Proof.
  revert p. induction l1 as [|a l1 IH]; intros p.
  - simpl. tauto.
  - cbn [app lseg]. rewrite IH, hd_app_hd, last_cons_last. tauto.
Qed.

Lemma lseg_ext buf buf' p l q :
  (forall a, In a l -> prv buf' a = prv buf a /\ nxt buf' a = nxt buf a) ->
  lseg buf p l q -> lseg buf' p l q.
Proof.
  revert p. induction l as [|a l IH]; intros p Hsame; [trivial|].
  cbn [lseg]. intros (Hp & Hn & Hl).
  destruct (Hsame a (or_introl eq_refl)) as [-> ->].
  repeat split; try assumption.
  apply IH; [|assumption]. intros x Hx. apply Hsame. right. assumption.
Qed.

(** Redirecting the outgoing link of a segment. *)
Lemma lseg_set_out buf buf' p l q q' :
  l <> [] -> List.NoDup l -> lseg buf p l q ->
  (forall a, In a l -> prv buf' a = prv buf a) ->
  (forall a, In a l -> a <> List.last l 0 -> nxt buf' a = nxt buf a) ->
  nxt buf' (List.last l 0) = q' ->
  lseg buf' p l q'.
Proof.
  revert p. induction l as [|a l IH]; intros p Hne Hnd Hl Hprv Hnxt Hlast;
    [congruence|].
  destruct l as [|b l].
  - cbn [lseg List.hd] in *. destruct Hl as (Hp & _ & _).
    rewrite Hprv by (left; reflexivity). auto.
  - cbn [lseg List.hd] in Hl |- *. destruct Hl as (Hp & Hn & Hl).
    apply List.NoDup_cons_iff in Hnd as [Hnotin Hnd'].
    change (List.last (a :: b :: l) 0) with (List.last (b :: l) 0) in *.
    assert (Hlin : In (List.last (b :: l) 0) (b :: l))
      by (apply last_In; discriminate).
    split; [rewrite Hprv by (left; reflexivity); assumption|].
    split.
    + rewrite Hnxt; [assumption | left; reflexivity |].
      intros ->. contradiction.
    + apply IH; try assumption; try discriminate.
      * intros x Hx. apply Hprv. right. assumption.
      * intros x Hx. apply Hnxt. right. assumption.
Qed.

(** Redirecting the incoming link of a segment. *)
Lemma lseg_set_in buf buf' p p' l q :
  List.NoDup l -> lseg buf p l q ->
  (forall a, In a l -> nxt buf' a = nxt buf a) ->
  (forall a, In a l -> a <> List.hd 0 l -> prv buf' a = prv buf a) ->
  (l <> [] -> prv buf' (List.hd 0 l) = p') ->
  lseg buf' p' l q.
Proof.
  intros Hnd Hl Hnxt Hprv Hhd. destruct l as [|a l]; [trivial|].
  cbn [lseg List.hd] in *. destruct Hl as (Hp & Hn & Hl).
  apply List.NoDup_cons_iff in Hnd as [Hnotin Hnd'].
  split; [apply Hhd; discriminate|].
  split; [rewrite Hnxt by (left; reflexivity); assumption|].
  apply lseg_ext with (buf := buf); [|assumption].
  intros x Hx. split.
  - apply Hprv; [right; assumption|]. intros ->. contradiction.
  - apply Hnxt. right. assumption.
Qed.

Lemma NoDup_app_inv {A : Type} (l1 l2 : list A) :
  List.NoDup (l1 ++ l2) ->
  List.NoDup l1 /\ List.NoDup l2 /\ (forall x, In x l1 -> ~ In x l2).
Proof.
  induction l1 as [|a l1 IH]; simpl; intros H.
  - repeat split; [constructor | assumption | intros x []].
  - apply List.NoDup_cons_iff in H as [Hni Hnd].
    destruct (IH Hnd) as (H1 & H2 & H3).
    repeat split; try assumption.
    + constructor; [|assumption]. intros Hin. apply Hni, in_or_app. auto.
    + intros x [<-|Hx]; [|auto]. intros Hin. apply Hni, in_or_app. auto.
Qed.

Lemma NoDup_app_intro {A : Type} (l1 l2 : list A) :
  List.NoDup l1 -> List.NoDup l2 -> (forall x, In x l1 -> ~ In x l2) ->
  List.NoDup (l1 ++ l2).
Proof.
  induction l1 as [|a l1 IH]; simpl; intros H1 H2 H3; [assumption|].
  apply List.NoDup_cons_iff in H1 as [Hni Hnd]. constructor.
  - intros Hin. apply in_app_or in Hin as [Hin|Hin]; [contradiction|].
    apply (H3 a); auto.
  - apply IH; auto.
Qed.

Lemma NoDup_remove_mid {A : Type} (l1 l2 : list A) (c : A) :
  List.NoDup (l1 ++ c :: l2) ->
  List.NoDup (l1 ++ l2) /\ ~ In c l1 /\ ~ In c l2.
Proof.
  intros H. apply NoDup_app_inv in H as (H1 & H2 & H3).
  apply List.NoDup_cons_iff in H2 as [Hni Hnd].
  repeat split.
  - apply NoDup_app_intro; try assumption.
    intros x Hx Hin. apply (H3 x Hx). right. assumption.
  - intros Hin. apply (H3 c Hin). left. reflexivity.
  - assumption.
Qed.

Lemma last_default {A : Type} (d d' : A) (l : list A) :
  l <> [] -> List.last l d = List.last l d'.
Proof.
  induction l as [|a l IH]; [congruence|]. intros _.
  destruct l as [|b l]; [reflexivity|].
  change (List.last (b :: l) d = List.last (b :: l) d'). apply IH. discriminate.
Qed.

Lemma delete_pool cond st :
  pool (vf_delete_block_buffer3 cond st)
  = pool (vf_delete_block_buffer3 false st).
Proof.
  unfold vf_delete_block_buffer3.
  destruct (_ =? 0); [reflexivity|]. destruct cond; reflexivity.
Qed.

Lemma chain_ok_intro pl ch :
  length (garr_userdata pl) = 512%nat ->
  List.NoDup ch ->
  (forall a, In a ch -> 0 <= a < 16) ->
  g_userdata_size pl = Z.of_nat (length ch) ->
  (forall a, 0 <= a < 16 ->
             (block_used (garr_userdata pl) a = true <-> In a ch)) ->
  lseg (garr_userdata pl) 0xFF ch 0xFF ->
  (ch <> [] -> g_userdata_firstpos pl = List.hd 0 ch) ->
  (ch <> [] -> g_userdata_lastpos pl = List.last ch 0) ->
  chain_ok pl ch.
Proof. unfold chain_ok. intuition. Qed.

Lemma slots_length_le (l : list Z) :
  List.NoDup l -> (forall a, In a l -> 0 <= a < 16) -> (length l <= 16)%nat.
Proof.
  intros Hnd Hr.
  pose proof (List.NoDup_incl_length (l' := zrange 0 16) Hnd) as H.
  rewrite zrange_length in H. apply H.
  intros a Ha. apply In_zrange. specialize (Hr a Ha). lia.
Qed.

Ltac rdw :=
  repeat first
    [ rewrite rd_wr_eq by (rewrite ?wr_length; blk_lia)
    | rewrite rd_wr_ne by blk_lia ].

(** Releasing the block at the cursor takes it out of the list and leaves
    the cursor on the block that followed it, or on the first block when it
    was the last. *)
Lemma delete_chain cond st l1 c l2 :
  chain_ok (pool st) (l1 ++ c :: l2) ->
  g_userdata_currpos (pool st) = c ->
  let pl' := pool (vf_delete_block_buffer3 cond st) in
  chain_ok pl' (l1 ++ l2) /\
  (l2 <> [] -> g_userdata_currpos pl' = List.hd 0 l2) /\
  (l2 = [] -> l1 <> [] -> g_userdata_currpos pl' = List.hd 0 l1) /\
  block_used (garr_userdata pl') c = false.
Proof.
  intros (Hlen & Hnd & Hrange & Hsize & Hused & Hseg & Hfl) Hcur.
  cbv zeta. rewrite delete_pool.
  pose proof (slots_length_le _ Hnd Hrange) as Hbound.
  rewrite length_app in Hbound. cbn [length] in Hbound.
  destruct (NoDup_remove_mid _ _ _ Hnd) as (Hnd' & Hc1 & Hc2).
  assert (Hc : 0 <= c < 16) by (apply Hrange, in_or_app; right; left; reflexivity).
  destruct Hfl as [Hfirst Hlast]; [destruct l1; discriminate|].
  rewrite last_app_cons in Hlast.
  apply lseg_app in Hseg as [Hseg1 Hseg2].
  cbn [lseg List.hd] in Hseg1, Hseg2. destruct Hseg2 as (Hprv & Hnxt & Hseg2).
  unfold vf_delete_block_buffer3. rewrite Hcur.
  destruct (pool st) as [buf sz first last cur] eqn:Epool.
  cbn [garr_userdata g_userdata_size g_userdata_firstpos g_userdata_lastpos
       g_userdata_currpos] in *.
  assert (Hpos : u16 (c * MAX_USERDATA_BUFFER_BLOCKSIZE) = blk c 0)
    by (unfold blk, MAX_USERDATA_BUFFER_BLOCKSIZE; rewrite u16_small; lia).
  rewrite Hpos.
  replace (blk c 0 + 1) with (blk c 1) by blk_lia.
  replace (blk c 0 + 2) with (blk c 2) by blk_lia.
  fold (nxt buf c). fold (prv buf c). rewrite Hprv, Hnxt.
  rewrite length_app in Hsize. cbn [length] in Hsize.
  destruct (Z.eqb_spec sz 0) as [|_]; [lia|].
  cbn [pool set_pool garr_userdata g_userdata_currpos].
  assert (Hu : forall a, 0 <= a < 16 -> a <> c -> forall b : list Z,
            (forall x, 0 <= x < 16 -> rd 0 b (blk x 0) = 
               if Z.eq_dec x c then 0 else rd 0 buf (blk x 0)) ->
            (block_used b a = true <-> In a (l1 ++ l2))).
  { intros a Ha Hac b Hb. unfold block_used. rewrite Hb by assumption.
    destruct (Z.eq_dec a c); [contradiction|].
    fold (block_used buf a). rewrite Hused by assumption.
    rewrite !in_app_iff. simpl. intuition congruence. }
  assert (Hinr : forall a, In a (l1 ++ l2) -> 0 <= a < 16 /\ a <> c).
  { intros a Ha. split.
    - apply Hrange. rewrite in_app_iff in *. simpl. tauto.
    - intros ->. rewrite in_app_iff in Ha. tauto. }
  assert (Hu0 : forall b : list Z,
            (forall x, 0 <= x < 16 -> rd 0 b (blk x 0) =
               if Z.eq_dec x c then 0 else rd 0 buf (blk x 0)) ->
            forall a, 0 <= a < 16 -> (block_used b a = true <-> In a (l1 ++ l2))).
  { intros b Hb a Ha. destruct (Z.eq_dec a c) as [->|Hac].
    - split.
      + intros Hu'. apply block_used_true in Hu'. rewrite Hb in Hu' by assumption.
        destruct (Z.eq_dec c c); congruence.
      + intros Hin. rewrite in_app_iff in Hin. tauto.
    - apply Hu; assumption. }
  destruct (Z.eqb_spec sz 1) as [E1|E1].
  { (* the only block *)
    assert (l1 = [] /\ l2 = []) as [-> ->].
    { destruct l1, l2; cbn [length] in Hsize; try lia. auto. }
    cbn [app].
    split; [apply chain_ok_intro | split; [|split]];
      cbn [garr_userdata g_userdata_size g_userdata_firstpos
           g_userdata_lastpos g_userdata_currpos].
    - rewrite !wr_length. assumption.
    - constructor.
    - intros a [].
    - reflexivity.
    - apply Hu0. intros x Hx. destruct (Z.eq_dec x c) as [->|]; rdw; reflexivity.
    - exact I.
    - congruence.
    - congruence.
    - congruence.
    - congruence.
    - apply block_used_false. rdw. reflexivity. }
  destruct (Z.eqb_spec c first) as [Ef|Ef].
  { (* the first block *)
    assert (l1 = []) as ->.
    { destruct l1 as [|a l1]; [reflexivity|]. cbn [app List.hd] in Hfirst.
      exfalso. apply Hc1. left. congruence. }
    destruct l2 as [|b l2]; [cbn [app length] in Hsize; lia|].
    cbn [app List.hd] in *.
    assert (Hb : 0 <= b < 16 /\ b <> c) by (apply Hinr; left; reflexivity).
    split; [apply chain_ok_intro | split; [|split]];
      cbn [garr_userdata g_userdata_size g_userdata_firstpos
           g_userdata_lastpos g_userdata_currpos].
    - rewrite !wr_length. assumption.
    - assumption.
    - intros a Ha. apply Hinr. assumption.
    - rewrite u16_small by lia. cbn [length]. cbn [length] in Hsize. lia.
    - apply Hu0. intros x Hx.
      destruct (Z.eq_dec x c) as [->|]; rdw; reflexivity.
    - apply (lseg_set_in buf _ c 255 (b :: l2) 255).
      + assumption.
      + assumption.
      + intros a Ha. destruct (Hinr a Ha). unfold nxt. rdw. reflexivity.
      + intros a Ha Hab. destruct (Hinr a Ha). cbn [List.hd] in Hab.
        unfold prv. rdw. reflexivity.
      + intros _. cbn [List.hd]. unfold prv. rdw. reflexivity.
    - reflexivity.
    - intros _. rewrite Hlast. rewrite last_cons_last.
      symmetry. apply last_cons_last.
    - reflexivity.
    - congruence.
    - apply block_used_false. rdw. reflexivity. }
  assert (Hl1 : l1 <> []).
  { intros ->. cbn [app List.hd] in Hfirst. congruence. }
  assert (Hfirst' : first = List.hd 0 l1)
    by (destruct l1; [congruence | assumption]).
  assert (Hp : In (List.last l1 255) l1) by (apply last_In; assumption).
  assert (Hp' : 0 <= List.last l1 255 < 16 /\ List.last l1 255 <> c)
    by (apply Hinr, in_or_app; left; assumption).
  assert (Hnd1 : List.NoDup l1 /\ List.NoDup l2 /\
                 (forall x, In x l1 -> ~ In x l2))
    by (apply NoDup_app_inv; assumption).
  destruct Hnd1 as (Hnd1 & Hnd2 & Hdisj).
  destruct (Z.eqb_spec c last) as [El|El].
  { (* the last block *)
    assert (l2 = []) as ->.
    { destruct l2 as [|b l2]; [reflexivity|]. exfalso. apply Hc2.
      assert (Hin : In (List.last (b :: l2) c) (b :: l2))
        by (apply last_In; discriminate).
      rewrite <- Hlast, <- El in Hin. exact Hin. }
    rewrite app_nil_r in *.
    split; [apply chain_ok_intro | split; [|split]];
      cbn [garr_userdata g_userdata_size g_userdata_firstpos
           g_userdata_lastpos g_userdata_currpos].
    - rewrite !wr_length. assumption.
    - assumption.
    - intros a Ha. apply Hinr. assumption.
    - rewrite u16_small by lia. cbn [length] in Hsize. lia.
    - apply Hu0. intros x Hx.
      destruct (Z.eq_dec x c) as [->|]; rdw; reflexivity.
    - apply (lseg_set_out buf _ 255 l1 c 255); try assumption.
      + intros a Ha. destruct (Hinr a Ha). unfold prv. rdw. reflexivity.
      + intros a Ha Hal. destruct (Hinr a Ha).
        rewrite (last_default 0 255) in Hal by assumption.
        unfold nxt. rdw. reflexivity.
      + rewrite (last_default 0 255) by assumption. unfold nxt. rdw. reflexivity.
    - intros _. assumption.
    - intros _. apply last_default. assumption.
    - congruence.
    - intros _ _. assumption.
    - apply block_used_false. rdw. reflexivity. }
  (* a block in the middle *)
  assert (Hl2 : l2 <> []).
  { intros ->. cbn [List.last] in Hlast. congruence. }
  destruct l2 as [|b l2]; [congruence|]. cbn [List.hd] in *.
  assert (Hb : 0 <= b < 16 /\ b <> c)
    by (apply Hinr, in_or_app; right; left; reflexivity).
  assert (Hbp : b <> List.last l1 255).
  { intros E. apply (Hdisj _ Hp). left. assumption. }
  split; [apply chain_ok_intro | split; [|split]];
    cbn [garr_userdata g_userdata_size g_userdata_firstpos
         g_userdata_lastpos g_userdata_currpos].
  - rewrite !wr_length. assumption.
  - assumption.
  - intros a Ha. apply Hinr. assumption.
  - rewrite u16_small by lia. rewrite length_app in *. cbn [length] in *. lia.
  - apply Hu0. intros x Hx.
    destruct (Z.eq_dec x c) as [->|]; rdw; reflexivity.
  - apply lseg_app. cbn [List.hd]. split.
    + apply (lseg_set_out buf _ 255 l1 c b); try assumption.
      * intros a Ha. 
        assert (In a (l1 ++ b :: l2)) as Ha' by (apply in_or_app; auto).
        destruct (Hinr a Ha').
        assert (a <> b) by (intros ->; apply (Hdisj b Ha); left; reflexivity).
        unfold prv. rdw. reflexivity.
      * intros a Ha Hal.
        assert (In a (l1 ++ b :: l2)) as Ha' by (apply in_or_app; auto).
        destruct (Hinr a Ha').
        rewrite (last_default 0 255) in Hal by assumption.
        unfold nxt. rdw. reflexivity.
      * rewrite (last_default 0 255) by assumption. unfold nxt. rdw. reflexivity.
    + apply (lseg_set_in buf _ c _ (b :: l2) 255); try assumption.
      * intros a Ha.
        assert (In a (l1 ++ b :: l2)) as Ha' by (apply in_or_app; auto).
        destruct (Hinr a Ha').
        assert (a <> List.last l1 255)
          by (intros ->; apply (Hdisj _ Hp); assumption).
        unfold nxt. rdw. reflexivity.
      * intros a Ha Hab. cbn [List.hd] in Hab.
        assert (In a (l1 ++ b :: l2)) as Ha' by (apply in_or_app; auto).
        destruct (Hinr a Ha').
        unfold prv. rdw. reflexivity.
      * intros _. cbn [List.hd]. unfold prv. rdw. reflexivity.
  - intros _. rewrite hd_app_hd. destruct l1; [congruence | assumption].
  - intros _. rewrite last_app_cons. rewrite Hlast.
    rewrite !last_cons_last. reflexivity.
  - reflexivity.
  - congruence.
  - apply block_used_false. rdw. reflexivity.
Qed.

Lemma used_count_chain pl ch :
  chain_ok pl ch -> used_count (garr_userdata pl) = Z.of_nat (length ch).
Proof.
  intros (Hlen & Hnd & Hrange & Hsize & Hused & _).
  unfold used_count, MAX_USERDATA_BUFFER_BLOCK. f_equal.
  set (F := List.filter (block_used (garr_userdata pl)) (zrange 0 (Z.to_nat 16))).
  assert (HndF : List.NoDup F) by (apply List.NoDup_filter, NoDup_zrange).
  assert (H1 : incl F ch).
  { intros x Hx. apply List.filter_In in Hx as [Hx Hu].
    apply In_zrange in Hx. apply Hused; [lia | assumption]. }
  assert (H2 : incl ch F).
  { intros x Hx. apply List.filter_In. pose proof (Hrange x Hx). split.
    - apply In_zrange. lia.
    - apply Hused; assumption. }
  apply Nat.le_antisymm; apply List.NoDup_incl_length; assumption.
Qed.

(** The chain only depends on bytes 0, 1 and 2 of the blocks. *)
Lemma chain_ok_ext pl pl' ch :
  chain_ok pl ch ->
  length (garr_userdata pl') = 512%nat ->
  (forall a k, 0 <= a < 16 -> 0 <= k < 3 ->
     rd 0 (garr_userdata pl') (blk a k) = rd 0 (garr_userdata pl) (blk a k)) ->
  g_userdata_size pl' = g_userdata_size pl ->
  g_userdata_firstpos pl' = g_userdata_firstpos pl ->
  g_userdata_lastpos pl' = g_userdata_lastpos pl ->
  chain_ok pl' ch.
Proof.
  intros (Hlen & Hnd & Hrange & Hsize & Hused & Hseg & Hfl) Hlen' Hsame Hs Hf Hl.
  apply chain_ok_intro; try assumption; try congruence.
  - intros a Ha. unfold block_used. rewrite Hsame by lia. apply Hused, Ha.
  - apply lseg_ext with (buf := garr_userdata pl); [|assumption].
    intros a Ha. unfold prv, nxt. rewrite !Hsame by (auto; lia). auto.
  - intros Hne. rewrite Hf. apply Hfl, Hne.
  - intros Hne. rewrite Hl. apply Hfl, Hne.
Qed.

(** Admission appends the new block to the list and leaves the cursor where
    it was, unless the pool was empty. *)
Lemma add_chain br st ch :
  chain_ok (pool st) ch -> 0 <= size br <= 27 -> (length ch < 16)%nat ->
  let st' := snd (vf_add_packet_to_buffer3 br st) in
  let buf := garr_userdata (pool st) in
  let buf' := garr_userdata (pool st') in
  fst (vf_add_packet_to_buffer3 br st) = 0 /\
  exists pos,
    0 <= pos < 16 /\ ~ In pos ch /\
    chain_ok (pool st') (ch ++ [pos]) /\
    g_userdata_currpos (pool st')
    = (if g_userdata_size (pool st) =? 0 then pos
       else g_userdata_currpos (pool st)) /\
    rd 0 buf' (blk pos 3) = 2 /\
    rd 0 buf' (blk pos 4) = size br + 1 /\
    (forall k, 0 <= k < size br ->
               rd 0 buf' (blk pos (5 + k)) = rd 0 (p_data br) k) /\
    (forall a k, 0 <= a < 16 -> a <> pos -> 3 <= k < 32 ->
                 rd 0 buf' (blk a k) = rd 0 buf (blk a k)) /\
    g_packetID st' = g_packetID st /\ relay_data st' = relay_data st /\
    hist st' = hist st /\ adv_log st' = adv_log st /\
    phone_log st' = phone_log st.
Proof.
  intros Hch Hbr Hlt. cbv zeta.
  pose proof (used_count_chain _ _ Hch) as Hcount.
  destruct Hch as (Hlen & Hnd & Hrange & Hsize & Hused & Hseg & Hfl).
  assert (Hlastok : 0 < g_userdata_size (pool st) ->
            0 <= g_userdata_lastpos (pool st) < 16 /\
            block_used (garr_userdata (pool st)) (g_userdata_lastpos (pool st)) = true).
  { intros Hpos. assert (Hne : ch <> []) by (destruct ch; [simpl in Hsize; lia | discriminate]).
    destruct (Hfl Hne) as [_ ->].
    pose proof (last_In 0 ch Hne) as Hin. pose proof (Hrange _ Hin).
    split; [assumption|]. apply Hused; assumption. }
  destruct (add_spec br st Hlen ltac:(congruence) Hbr Hlastok)
    as (Herr & _ & Hok).
  cbv zeta in Herr, Hok.
  assert (Hne1 : fst (vf_add_packet_to_buffer3 br st) <> 1).
  { intros E0. pose proof (proj1 Herr E0) as E.
    assert (Hincl : incl (zrange 0 16) ch).
    { intros x Hx. apply In_zrange in Hx. apply Hused; [lia|]. apply E. lia. }
    pose proof (List.NoDup_incl_length (NoDup_zrange 0 16) Hincl) as Hl.
    rewrite zrange_length in Hl. lia. }
  destruct (Hok Hne1) as (E0 & pos & Hpos & Hfree & Hb0 & Hb3 & Hb4 & Hdata & Hlast'
      & Hb1 & Hlinks & Hsize' & Hframe0 & Hlen' & Hframe & Hpid & Hrel & Hh & Ha & Hp).
  split; [assumption|]. exists pos.
  assert (Hni : ~ In pos ch).
  { intros Hin. apply Hused in Hin; [|assumption]. congruence. }
  split; [assumption|]. split; [assumption|].
  split; [|split; [|split; [assumption|split; [assumption|split; [assumption|
          split; [|tauto]]]]]].
  - apply chain_ok_intro.
    + assumption.
    + apply NoDup_app_intro; [assumption | repeat constructor; intros [] |].
      intros x Hx [<-|[]]. contradiction.
    + intros a Ha'. apply in_app_or in Ha' as [Ha'|[<-|[]]]; auto.
    + rewrite Hsize', Hsize, length_app. cbn [length]. lia.
    + intros a Ha'. rewrite in_app_iff. cbn [In].
      destruct (Z.eq_dec a pos) as [->|Hap].
      * split; [auto|]. intros _. apply block_used_true. rewrite Hb0. lia.
      * rewrite Hframe0 by assumption. rewrite Hused by assumption.
        intuition congruence.
    + apply lseg_app. cbn [List.hd lseg].
      destruct (Z.eqb_spec (g_userdata_size (pool st)) 0) as [Hz|Hnz].
      * assert (ch = []) as -> by (destruct ch; [reflexivity | simpl in Hsize; lia]).
        cbn [lseg List.last]. unfold prv, nxt. tauto.
      * assert (Hne : ch <> []) by (intros ->; simpl in Hsize; lia).
        destruct (Hfl Hne) as [Hf Hl].
        destruct Hlinks as (Hf' & Hc' & Hprv' & Hnxt').
        split.
        -- apply (lseg_set_out (garr_userdata (pool st)) _ 255 ch 255 pos);
             try assumption.
           ++ intros a Ha'. pose proof (Hrange a Ha').
              unfold prv. apply Hframe; [assumption | congruence | lia | lia].
           ++ intros a Ha' Hal. pose proof (Hrange a Ha').
              unfold nxt. apply Hframe; [assumption | congruence | lia |].
              right. left. congruence.
           ++ unfold nxt. rewrite <- Hl. assumption.
        -- unfold prv, nxt. rewrite Hprv', Hl.
           split; [apply last_default; assumption | tauto].
    + intros _. rewrite hd_app_hd.
      destruct (Z.eqb_spec (g_userdata_size (pool st)) 0) as [Hz|Hnz].
      * assert (ch = []) as -> by (destruct ch; [reflexivity | simpl in Hsize; lia]).
        cbn [List.hd]. tauto.
      * assert (Hne : ch <> []) by (intros ->; simpl in Hsize; lia).
        destruct (Hfl Hne) as [Hf Hl]. destruct Hlinks as (Hf' & _).
        rewrite Hf', Hf. destruct ch; [congruence | reflexivity].
    + intros _. rewrite last_app_cons. cbn [List.last]. assumption.
  - destruct (g_userdata_size (pool st) =? 0); tauto.
  - intros a k Ha' Hap Hk. apply Hframe; try assumption; lia.
Qed.

(** After an insert the identity is in the history, whatever was there. *)
Lemma add_in_hist id s :
  hist_wf s ->
  let s' := snd (vf_add_buff_adv_hist3 id s) in
  hist_wf s' /\ In id (hist_ids s').
Proof.
  intros Hwf. cbv zeta.
  destruct (in_dec Z.eq_dec id (hist_ids s)) as [Hin|Hni].
  - rewrite add_present by assumption. auto.
  - destruct (add_absent id s Hwf Hni) as [Hwf' Hlive]. split; [assumption|].
    unfold hist_ids. rewrite Hlive, map_app, in_app_iff. right. left. reflexivity.
Qed.

Lemma delete_true_hist st :
  g_userdata_size (pool st) <> 0 ->
  0 <= g_userdata_currpos (pool st) < 16 ->
  hist (vf_delete_block_buffer3 true st)
  = snd (vf_add_buff_adv_hist3
           (block_ids (garr_userdata (pool st)) (g_userdata_currpos (pool st)))
           (hist st)).
Proof.
  intros Hsz Hc. unfold vf_delete_block_buffer3.
  destruct (Z.eqb_spec (g_userdata_size (pool st)) 0); [contradiction|].
  cbn [hist set_hist set_pool]. unfold block_ids.
  assert (Hpos : u16 (g_userdata_currpos (pool st) * MAX_USERDATA_BUFFER_BLOCKSIZE)
                 = blk (g_userdata_currpos (pool st)) 0)
    by (unfold blk, MAX_USERDATA_BUFFER_BLOCKSIZE; rewrite u16_small; lia).
  rewrite Hpos.
  replace (blk (g_userdata_currpos (pool st)) 0 + 5)
    with (blk (g_userdata_currpos (pool st)) 5) by blk_lia.
  replace (blk (g_userdata_currpos (pool st)) 0 + 6)
    with (blk (g_userdata_currpos (pool st)) 6) by blk_lia.
  replace (blk (g_userdata_currpos (pool st)) 0 + 7)
    with (blk (g_userdata_currpos (pool st)) 7) by blk_lia.
  reflexivity.
Qed.

Lemma delete_false_hist st :
  hist (vf_delete_block_buffer3 false st) = hist st.
Proof. unfold vf_delete_block_buffer3. destruct (_ =? 0); reflexivity. Qed.

(** Apart from the count of the block at the cursor, a transmitting tick
    writes only bytes 0, 1 and 2 of blocks. *)
Lemma transmit_frame st j :
  3 <= j mod 32 -> j <> blk (g_userdata_currpos (pool st)) 3 ->
  rd 0 (garr_userdata (pool (relay_transmit st))) j
  = rd 0 (garr_userdata (pool st)) j.
Proof.
  intros Hj Hne. unfold relay_transmit.
  destruct (_ =? 0).
  - rewrite delete_frame by assumption. cbn [pool garr_userdata].
    apply rd_wr_ne. congruence.
  - cbn [pool set_pool garr_userdata]. apply rd_wr_ne. congruence.
Qed.

Lemma transmit_adv_log_pos st :
  exists bytes,
    adv_log (relay_transmit st)
    = adv_log st ++ [AdvRelay (g_userdata_currpos (pool st)) bytes].
Proof.
  unfold relay_transmit. destruct (_ =? 0).
  - rewrite delete_adv_log. cbn [adv_log]. eauto.
  - cbn [adv_log set_pool]. eauto.
Qed.

Lemma pool_repr_of_chain pl l1 l2 :
  chain_ok pl (l1 ++ l2) ->
  (l2 <> [] -> g_userdata_currpos pl = List.hd 0 l2) ->
  (l2 = [] -> l1 <> [] -> g_userdata_currpos pl = List.hd 0 l1) ->
  pool_repr pl (l2 ++ l1).
Proof.
  intros Hch H2 H1. destruct l2 as [|b l2].
  - rewrite app_nil_r in Hch. cbn [app]. destruct l1 as [|a l1]; [exact Hch|].
    exists [], l1. rewrite app_nil_r. split; [reflexivity|].
    split; [exact Hch|]. apply H1; [reflexivity | discriminate].
  - cbn [app]. exists l1, l2. split; [reflexivity|]. split; [exact Hch|].
    apply H2. discriminate.
Qed.

(** One tick on a pool whose cursor block [c] is followed, in ring order,
    by the blocks [r]. *)
Lemma tick_step st c r :
  pool_repr (pool st) (c :: r) ->
  blocks_ok (garr_userdata (pool st)) (c :: r) ->
  hist_wf (hist st) ->
  let st' := relay_transmit st in
  let buf := garr_userdata (pool st) in
  let buf' := garr_userdata (pool st') in
  vf_relay_adv_data3 st = Some st' /\
  (exists bytes, adv_log st' = adv_log st ++ [AdvRelay c bytes]) /\
  hist_wf (hist st') /\
  (forall j, 3 <= j mod 32 -> j <> blk c 3 -> rd 0 buf' j = rd 0 buf j) /\
  (if rd 0 buf (blk c 3) =? 1
   then pool_repr (pool st') r /\ block_used buf' c = false /\
        In (block_ids buf c) (hist_ids (hist st')) /\
        hist st' = snd (vf_add_buff_adv_hist3 (block_ids buf c) (hist st))
   else pool_repr (pool st') (r ++ [c]) /\
        rd 0 buf' (blk c 3) = rd 0 buf (blk c 3) - 1 /\
        hist st' = hist st).
Proof.
  intros (l1 & l2 & -> & Hch & Hcur) Hok Hwf. cbv zeta.
  destruct (Hok c (or_introl eq_refl)) as [Hbsz Httl].
  pose proof Hch as (Hlen & Hnd & Hrange & Hsize & Hused & Hseg & Hfl).
  assert (Hc : 0 <= c < 16) by (apply Hrange, in_or_app; right; left; reflexivity).
  rewrite length_app in Hsize. cbn [length] in Hsize.
  split; [apply tick_transmit; [lia | rewrite Hcur; assumption]|].
  split; [rewrite <- Hcur; apply transmit_adv_log_pos|].
  split; [|split; [intros j Hj Hne; apply transmit_frame; [assumption | congruence]|]].
  - (* the history stays well formed *)
    unfold relay_transmit. rewrite Hcur.
    destruct (Z.eqb_spec (u8 (rd 0 (garr_userdata (pool st)) (blk c 3) - 1)) 0).
    + match goal with
      | |- context [hist (vf_delete_block_buffer3 true ?s)] =>
          rewrite (delete_true_hist s)
      end; cbn [pool hist g_userdata_size g_userdata_currpos]; [|lia|lia].
      apply add_in_hist. assumption.
    + cbn [hist set_pool]. assumption.
  - unfold relay_transmit. rewrite Hcur.
    set (buf := garr_userdata (pool st)) in *.
    set (buf1 := wr buf (blk c 3) (u8 (rd 0 buf (blk c 3) - 1))).
    set (pl1 := mk_pool buf1 (g_userdata_size (pool st))
                  (g_userdata_firstpos (pool st)) (g_userdata_lastpos (pool st)) c).
    assert (Hch1 : chain_ok pl1 (l1 ++ c :: l2)).
    { apply (chain_ok_ext (pool st)); try reflexivity; try assumption.
      - unfold pl1, buf1. cbn [garr_userdata]. rewrite wr_length. assumption.
      - intros a k Ha Hk. unfold pl1, buf1. cbn [garr_userdata].
        apply rd_wr_ne. blk_lia. }
    assert (Hlen1 : length buf1 = 512%nat)
      by (unfold buf1; rewrite wr_length; assumption).
    rewrite u8_small by lia.
    destruct (Z.eqb_spec (rd 0 buf (blk c 3)) 1) as [E1|E1].
    + (* last advertisement: release and record in the history *)
      rewrite E1. change (1 - 1 =? 0) with true. cbv iota.
      set (st1 := mk_state pl1 _ _ _ _ _).
      destruct (delete_chain true st1 l1 c l2 Hch1 eq_refl)
        as (Hch' & Hc2 & Hc1 & Hfree).
      split; [apply pool_repr_of_chain; assumption|].
      split; [assumption|].
      assert (Hids : block_ids buf1 c = block_ids buf c).
      { unfold block_ids, buf1. rewrite !rd_wr_ne by blk_lia. reflexivity. }
      assert (Hh : hist (vf_delete_block_buffer3 true st1)
                   = snd (vf_add_buff_adv_hist3 (block_ids buf c) (hist st))).
      { rewrite (delete_true_hist st1);
          cbn [st1 pool hist pl1 g_userdata_size g_userdata_currpos
               garr_userdata]; [|lia|lia].
        rewrite Hids. reflexivity. }
      split; [|exact Hh].
      rewrite Hh. apply add_in_hist. assumption.
    + destruct (Z.eqb_spec (rd 0 buf (blk c 3) - 1) 0) as [|_]; [lia|].
      cbn [pool set_pool garr_userdata hist].
      split; [|split; [unfold buf1; rewrite rd_wr_eq by blk_lia;
                       apply u8_small; lia
                      | reflexivity]].
      apply lseg_app in Hseg as [Hseg1 Hseg2].
      cbn [lseg] in Hseg2. destruct Hseg2 as (Hprv & Hnxt & Hseg2).
      destruct (Hfl ltac:(destruct l1; discriminate)) as [Hfirst Hlast].
      rewrite last_app_cons in Hlast.
      destruct (NoDup_remove_mid _ _ _ Hnd) as (_ & Hc1 & Hc2).
      destruct l2 as [|b l2].
      * (* the cursor was on the last block: back to the first *)
        cbn [List.last] in Hlast.
        destruct (Z.eqb_spec c (g_userdata_lastpos (pool st))) as [_|Hx];
          [|congruence].
        cbn [app].
        destruct l1 as [|a l1].
        -- cbn [app List.hd] in *. exists [], []. split; [reflexivity|].
           split; [|assumption].
           apply (chain_ok_ext pl1); try reflexivity; assumption.
        -- cbn [app List.hd] in *. exists [], (l1 ++ [c]).
           rewrite app_nil_r. split; [reflexivity|]. split; [|assumption].
           apply (chain_ok_ext pl1); try reflexivity; assumption.
      * assert (Hlc : g_userdata_lastpos (pool st) <> c).
        { rewrite Hlast. intros E. apply Hc2. rewrite <- E.
          apply last_In. discriminate. }
        destruct (Z.eqb_spec c (g_userdata_lastpos (pool st))); [congruence|].
        cbn [app]. exists (l1 ++ [c]), l2.
        split; [rewrite app_assoc; reflexivity|].
        split.
        -- rewrite <- app_assoc. cbn [app].
           apply (chain_ok_ext pl1); try reflexivity; assumption.
        -- cbn [g_userdata_currpos]. unfold buf1. rewrite rd_wr_ne by blk_lia.
           exact Hnxt.
Qed.

(** ** Round-robin scheduling *)

Lemma relay_count_snoc p log q bytes :
  relay_count p (log ++ [AdvRelay q bytes])
  = (relay_count p log + (if (q =? p)%Z then 1 else 0))%nat.
Proof.
  unfold relay_count. rewrite List.filter_app, length_app. cbn [List.filter].
  destruct (q =? p); reflexivity.
Qed.

Lemma ticks_add n m st :
  ticks (n + m) st = match ticks n st with Some st' => ticks m st' | None => None end.
Proof.
  revert st. induction n as [|n IH]; intros st; [reflexivity|].
  cbn [Nat.add ticks]. destruct (vf_relay_adv_data3 st); [apply IH | reflexivity].
Qed.

Lemma pool_repr_NoDup pl rot :
  pool_repr pl rot -> List.NoDup rot /\ (forall a, In a rot -> 0 <= a < 16).
Proof.
  destruct rot as [|c r]; [intros _; split; [constructor | intros a []]|].
  intros (l1 & l2 & -> & (_ & Hnd & Hrange & _) & _).
  destruct (NoDup_remove_mid _ _ _ Hnd) as (Hnd' & Hc1 & Hc2).
  apply NoDup_app_inv in Hnd' as (H1 & H2 & H3).
  split.
  - constructor.
    + rewrite in_app_iff. tauto.
    + apply NoDup_app_intro; try assumption.
      intros x Hx2 Hx1. apply (H3 x); assumption.
  - intros a Ha. apply Hrange. rewrite in_app_iff. cbn [In] in *.
    rewrite in_app_iff in Ha. tauto.
Qed.

Lemma pool_repr_used pl rot a :
  pool_repr pl rot -> In a rot -> block_used (garr_userdata pl) a = true.
Proof.
  destruct rot as [|c r]; [intros _ []|].
  intros (l1 & l2 & -> & (_ & _ & Hrange & _ & Hused & _) & _) Ha.
  assert (Hin : In a (l1 ++ c :: l2)).
  { rewrite in_app_iff. cbn [In] in *. rewrite in_app_iff in Ha. tauto. }
  apply Hused; [apply Hrange|]; assumption.
Qed.

(** One tick under the invariant: the cursor block [c] is advertised; it
    leaves the ring when that was its last advertisement and goes to the end
    of the ring otherwise.  No other block is touched above its link bytes. *)
Lemma inv_tick st c r :
  relay_inv st (c :: r) ->
  exists st' bytes,
    vf_relay_adv_data3 st = Some st' /\
    adv_log st' = adv_log st ++ [AdvRelay c bytes] /\
    (forall j, 3 <= j mod 32 -> j <> blk c 3 ->
       rd 0 (garr_userdata (pool st')) j = rd 0 (garr_userdata (pool st)) j) /\
    (if rd 0 (garr_userdata (pool st)) (blk c 3) =? 1
     then relay_inv st' r /\
          block_used (garr_userdata (pool st')) c = false /\
          In (block_ids (garr_userdata (pool st)) c) (hist_ids (hist st')) /\
          hist st'
          = snd (vf_add_buff_adv_hist3
                   (block_ids (garr_userdata (pool st)) c) (hist st))
     else relay_inv st' (r ++ [c]) /\
          rd 0 (garr_userdata (pool st')) (blk c 3) = 1 /\
          hist st' = hist st).
Proof.
  intros (Hrepr & Hok & Hwf).
  destruct (pool_repr_NoDup _ _ Hrepr) as [Hnd Hrange].
  destruct (tick_step st c r Hrepr Hok Hwf) as (Htick & [bytes Hlog] & Hwf' & Hframe & Hcase).
  exists (relay_transmit st), bytes.
  split; [assumption|]. split; [assumption|]. split; [assumption|].
  destruct (Hok c (or_introl eq_refl)) as [Hbsz Httl].
  assert (Hc : 0 <= c < 16) by (apply Hrange; left; reflexivity).
  apply List.NoDup_cons_iff in Hnd as [Hcr Hndr].
  assert (Hok' : blocks_ok (garr_userdata (pool (relay_transmit st))) r).
  { intros a Ha. assert (a <> c) by congruence.
    assert (0 <= a < 16) by (apply Hrange; right; assumption).
    rewrite !Hframe by mod_lia. apply Hok. right. assumption. }
  destruct (Z.eqb_spec (rd 0 (garr_userdata (pool st)) (blk c 3)) 1) as [E|E].
  - destruct Hcase as (Hr & Hfree & Hin & Hh).
    split; [|split; [assumption | split; assumption]].
    unfold relay_inv. split; [assumption|]. split; assumption.
  - destruct Hcase as (Hr & Httl' & Hh). split.
    + unfold relay_inv. split; [assumption|]. split; [|assumption].
      intros a Ha. apply in_app_or in Ha as [Ha|[<-|[]]]; [apply Hok'; assumption|].
      rewrite Httl'. rewrite Hframe by mod_lia. split; [assumption | lia].
    + split; [lia | assumption].
Qed.

(** After as many ticks as there are blocks before it in ring order, a
    block is at the cursor; it has not been advertised meanwhile and its
    record and counter are untouched. *)
Lemma ticks_to_head pre p post st :
  relay_inv st (pre ++ p :: post) ->
  exists st' rot',
    ticks (length pre) st = Some st' /\
    relay_inv st' (p :: rot') /\
    (length rot' <= length (pre ++ post))%nat /\
    relay_count p (adv_log st') = relay_count p (adv_log st) /\
    (forall k, 3 <= k < 32 ->
       rd 0 (garr_userdata (pool st')) (blk p k)
       = rd 0 (garr_userdata (pool st)) (blk p k)) /\
    (forall m stm, (m <= length pre)%nat -> ticks m st = Some stm ->
       block_used (garr_userdata (pool stm)) p = true).
Proof.
  revert post st. induction pre as [|c pre IH]; intros post st Hinv.
  - exists st, post. cbn [length app ticks] in *.
    split; [reflexivity|]. split; [assumption|]. split; [lia|].
    split; [reflexivity|]. split; [reflexivity|].
    intros m stm Hm Ht. assert (m = 0%nat) as -> by lia.
    cbn [ticks] in Ht. injection Ht as <-.
    apply pool_repr_used with (rot := p :: post); [apply Hinv | left; reflexivity].
  - cbn [app] in Hinv.
    destruct (pool_repr_NoDup _ _ (proj1 Hinv)) as [Hnd Hrange].
    apply List.NoDup_cons_iff in Hnd as [Hcr _].
    assert (Hpc : p <> c).
    { intros ->. apply Hcr. apply in_or_app. right. left. reflexivity. }
    assert (Hp : 0 <= p < 16).
    { apply Hrange. right. apply in_or_app. right. left. reflexivity. }
    assert (Hc : 0 <= c < 16) by (apply Hrange; left; reflexivity).
    assert (Hused0 : block_used (garr_userdata (pool st)) p = true).
    { apply pool_repr_used with (rot := c :: pre ++ p :: post); [apply Hinv|].
      right. apply in_or_app. right. left. reflexivity. }
    destruct (inv_tick st c _ Hinv) as (st1 & bytes & Htick & Hlog & Hframe & Hcase).
    assert (Hnext : exists post', relay_inv st1 (pre ++ p :: post') /\
                      (length post' <= S (length post))%nat).
    { destruct (_ =? 1).
      - exists post. split; [apply Hcase | lia].
      - exists (post ++ [c]). destruct Hcase as [Hi _].
        rewrite <- app_assoc in Hi. cbn [app] in Hi. split; [assumption|].
        rewrite length_app. cbn [length]. lia. }
    destruct Hnext as (post' & Hinv1 & Hlen').
    destruct (IH post' st1 Hinv1) as (st' & rot' & Ht & Hinv' & Hlen & Hcnt & Hbytes & Hall).
    exists st', rot'. cbn [length ticks]. rewrite Htick.
    split; [assumption|]. split; [assumption|].
    split; [rewrite length_app in *; cbn [length]; lia|].
    split; [|split].
    + rewrite Hcnt, Hlog, relay_count_snoc.
      destruct (Z.eqb_spec c p); [congruence | lia].
    + intros k Hk. rewrite Hbytes by assumption. apply Hframe; mod_lia.
    + intros m stm Hm Htm. destruct m as [|m].
      * cbn [ticks] in Htm. injection Htm as <-. assumption.
      * cbn [ticks] in Htm. rewrite Htick in Htm.
        apply (Hall m); [lia | assumption].
Qed.

(** Admission under the invariant: the new block enters the ring just
    before the blocks that precede the cursor in list order. *)
Lemma add_inv br st rot :
  relay_inv st rot -> 0 <= size br <= 27 -> (length rot < 16)%nat ->
  let st1 := snd (vf_add_packet_to_buffer3 br st) in
  fst (vf_add_packet_to_buffer3 br st) = 0 /\
  exists pos pre post,
    relay_inv st1 (pre ++ pos :: post) /\
    rot = pre ++ post /\ ~ In pos rot /\
    g_userdata_lastpos (pool st1) = pos /\
    rd 0 (garr_userdata (pool st1)) (blk pos 3) = 2 /\
    (forall k, 0 <= k < size br ->
       rd 0 (garr_userdata (pool st1)) (blk pos (5 + k)) = rd 0 (p_data br) k) /\
    (0 <= pos < 16 /\
     forall a k, 0 <= a < 16 -> a <> pos -> 3 <= k < 32 ->
       rd 0 (garr_userdata (pool st1)) (blk a k)
       = rd 0 (garr_userdata (pool st)) (blk a k)) /\
    hist st1 = hist st /\ adv_log st1 = adv_log st /\
    phone_log st1 = phone_log st.
Proof.
  intros (Hrepr & Hok & Hwf) Hbr Hlt. cbv zeta.
  assert (Hch : exists l1 l2, chain_ok (pool st) (l1 ++ l2) /\ rot = l2 ++ l1 /\
            (l2 <> [] -> g_userdata_currpos (pool st) = List.hd 0 l2) /\
            (l2 = [] -> l1 = [])).
  { destruct rot as [|c r].
    - exists [], []. cbn [pool_repr] in Hrepr.
      split; [exact Hrepr|]. split; [reflexivity|].
      split; [congruence | reflexivity].
    - destruct Hrepr as (l1 & l2 & -> & Hch & Hcur).
      exists l1, (c :: l2).
      split; [exact Hch|]. split; [reflexivity|].
      split; [intros _; exact Hcur | discriminate]. }
  destruct Hch as (l1 & l2 & Hch & -> & Hcur & Hemp).
  assert (Hlen : (length (l1 ++ l2) < 16)%nat)
    by (rewrite length_app in *; lia).
  destruct (add_chain br st _ Hch Hbr Hlen)
    as (E0 & pos & Hpos & Hni & Hch' & Hcur' & Httl & Hbsz & Hdata & Hframe
        & _ & _ & Hh & Ha & Hp).
  split; [assumption|].
  exists pos, l2, l1.
  assert (Hlast : g_userdata_lastpos (pool (snd (vf_add_packet_to_buffer3 br st))) = pos).
  { destruct Hch' as (_ & _ & _ & _ & _ & _ & Hfl).
    destruct Hfl as [_ ->]; [destruct (l1 ++ l2); discriminate|].
    rewrite last_app_cons. reflexivity. }
  assert (Hni' : ~ In pos (l2 ++ l1))
    by (rewrite in_app_iff in *; tauto).
  assert (Hsz : g_userdata_size (pool st) = Z.of_nat (length (l1 ++ l2)))
    by apply Hch.
  split; [|split; [reflexivity|split; [assumption|split; [assumption|
           split; [assumption|split; [assumption|split; [tauto|tauto]]]]]]].
  unfold relay_inv. split; [|split].
  - destruct l2 as [|c l2].
    + rewrite (Hemp eq_refl) in *. cbn [app] in *.
      exists [], []. split; [reflexivity|]. split; [assumption|].
      rewrite Hcur', Hsz. reflexivity.
    + cbn [app]. exists l1, (l2 ++ [pos]).
      split; [rewrite <- app_assoc; reflexivity|].
      split.
      * rewrite <- app_assoc in Hch'. exact Hch'.
      * rewrite Hcur', Hsz, length_app. cbn [length].
        destruct (Z.eqb_spec (Z.of_nat (length l1 + S (length l2))) 0); [lia|].
        apply Hcur. discriminate.
  - intros a Ha'.
    assert (Hcases : a = pos \/ In a (l2 ++ l1)).
    { apply in_app_or in Ha' as [H|[H|H]];
        [right; apply in_or_app; auto | left; auto
        | right; apply in_or_app; auto]. }
    destruct Hcases as [->|Hin].
    + rewrite Httl, Hbsz. lia.
    + assert (a <> pos) by congruence.
      assert (0 <= a < 16).
      { destruct Hch as (_ & _ & Hrange & _). apply Hrange.
        apply in_app_or in Hin. apply in_or_app. tauto. }
      rewrite !Hframe by (auto; lia). apply Hok. assumption.
  - rewrite Hh. assumption.
Qed.

(** C2. A record admitted to the pool, with its two advertisements, is
    advertised exactly twice by the scheduler: after some number of ticks,
    at most 32, its block has been handed to the advertiser two more times,
    the block is free and the record's identity is in the history; until
    the last of these ticks the block is still in the pool. *)
Theorem C2_two_broadcasts (st : state) (rot : list Z) (br : uint8_array_t) :
  relay_inv st rot -> 3 <= size br <= 27 -> (length rot < 16)%nat ->
  let st1 := snd (vf_add_packet_to_buffer3 br st) in
  let p := g_userdata_lastpos (pool st1) in
  fst (vf_add_packet_to_buffer3 br st) = 0 /\
  rd 0 (garr_userdata (pool st1)) (blk p 3) = 2 /\
  block_ids (garr_userdata (pool st1)) p = data_ids br /\
  exists n st2,
    (n <= 32)%nat /\ ticks n st1 = Some st2 /\
    relay_count p (adv_log st2) = (relay_count p (adv_log st1) + 2)%nat /\
    block_used (garr_userdata (pool st2)) p = false /\
    In (data_ids br) (hist_ids (hist st2)) /\
    (forall m stm, (m < n)%nat -> ticks m st1 = Some stm ->
       block_used (garr_userdata (pool stm)) p = true).
Proof.
  intros Hinv Hbr Hlt. cbv zeta.
  destruct (add_inv br st rot Hinv ltac:(lia) Hlt)
    as (E0 & pos & pre & post & Hinv1 & Hrot & Hni & Hlast & Httl & Hdata & _).
  set (st1 := snd (vf_add_packet_to_buffer3 br st)) in *.
  rewrite Hlast.
  assert (Hids : block_ids (garr_userdata (pool st1)) pos = data_ids br).
  { unfold block_ids, data_ids.
    rewrite <- (Hdata 0), <- (Hdata 1), <- (Hdata 2) by lia.
    repeat f_equal; blk_lia. }
  split; [assumption|]. split; [assumption|]. split; [assumption|].
  (* first pass: up to the cursor, then the first advertisement *)
  destruct (ticks_to_head pre pos post st1 Hinv1)
    as (sta & rota & Hta & Hinva & Hlena & Hcnta & Hbytesa & Halla).
  destruct (inv_tick sta pos rota Hinva)
    as (stb & bytesb & Htb & Hlogb & Hframeb & Hcaseb).
  rewrite (Hbytesa 3), Httl in Hcaseb by lia. cbn [Z.eqb Pos.eqb] in Hcaseb.
  destruct Hcaseb as (Hinvb & Httlb & _).
  (* second pass: around the ring, then the second advertisement *)
  destruct (ticks_to_head rota pos [] stb Hinvb)
    as (stc & rotc & Htc & Hinvc & Hlenc & Hcntc & Hbytesc & Hallc).
  destruct (inv_tick stc pos rotc Hinvc)
    as (std & bytesd & Htd & Hlogd & Hframed & Hcased).
  rewrite (Hbytesc 3), Httlb in Hcased by lia. cbn [Z.eqb Pos.eqb] in Hcased.
  destruct Hcased as (Hinvd & Hfree & Hin & _).
  assert (Hp16 : 0 <= pos < 16).
  { destruct (pool_repr_NoDup _ _ (proj1 Hinva)) as [_ Hr].
    apply Hr. left. reflexivity. }
  exists (length pre + (1 + (length rota + 1)))%nat, std.
  assert (Hlenrot : (length (pre ++ post) < 16)%nat) by (rewrite <- Hrot; assumption).
  rewrite length_app in *.
  split; [lia|]. split; [|split; [|split; [assumption|split]]].
  - rewrite ticks_add, Hta. cbn [Nat.add ticks]. rewrite Htb.
    rewrite ticks_add, Htc. cbn [ticks]. rewrite Htd. reflexivity.
  - rewrite Hlogd, relay_count_snoc, Hcntc, Hlogb, relay_count_snoc, Hcnta.
    rewrite Z.eqb_refl. lia.
  - assert (E : block_ids (garr_userdata (pool stc)) pos = data_ids br).
    { rewrite <- Hids. unfold block_ids.
      rewrite !Hbytesc by lia. rewrite !Hframeb by mod_lia.
      rewrite !Hbytesa by lia. reflexivity. }
    rewrite <- E. assumption.
  - intros m stm Hm Htm.
    destruct (Nat.le_gt_cases m (length pre)) as [Hle|Hgt].
    + apply (Halla m); assumption.
    + replace m with (length pre + (1 + (m - length pre - 1)))%nat in Htm by lia.
      rewrite ticks_add, Hta in Htm. cbn [Nat.add ticks] in Htm.
      rewrite Htb in Htm.
      apply (Hallc (m - length pre - 1)%nat); [lia | assumption].
Qed.

(** ** The classifier and duplicates *)

(** C1 (fails on the code). With records (1,10,1) and (1,10,2) in the pool,
    the second not being the first block, a second copy of (1,10,2) is not
    recognised: it is admitted to the pool, which then holds the identity
    twice. *)
Theorem C1_duplicate_admitted (i_uninit : Z) :
  let s2 := on_adv_report i_uninit (sample_payload 1 10 2)
              (on_adv_report i_uninit (sample_payload 1 10 1) state_init) in
  let s3 := on_adv_report i_uninit (sample_payload 1 10 2) s2 in
  pool_ids s2 = [data_ids (sample_payload 1 10 1);
                 data_ids (sample_payload 1 10 2)] /\
  hist_ids (hist s2) = [] /\
  vf_validate_relay_packet3 i_uninit (sample_payload 1 10 2) s2 = 0xFFFF /\
  pool_ids s3 = [data_ids (sample_payload 1 10 1);
                 data_ids (sample_payload 1 10 2);
                 data_ids (sample_payload 1 10 2)].
Proof. vm_compute. auto. Qed.

(** ** The history tick *)

(** C5 (fails on the code). On the wrapped ring [hist_wrapped] no entry is
    due: all 127 live entries should stay, with a ttl of 9.  With [j]
    holding 1 the tick drops the live entry of slot 0.  On
    [hist_low_expiry] the tick is wrong whatever [j] holds: it keeps the
    expired entry, or drops the live one before it as well. *)
Theorem C5_tick_misses_low_part :
  (length (hist_tick_spec (hist_live hist_wrapped)) = 127%nat /\
   length (hist_live (vf_refresh_history_buff_callback 1 hist_wrapped))
   = 126%nat /\
   ~ In 257 (hist_ids (vf_refresh_history_buff_callback 1 hist_wrapped)) /\
   In (mk_hist 257 9) (hist_tick_spec (hist_live hist_wrapped))) /\
  (forall j_uninit,
     hist_live (vf_refresh_history_buff_callback j_uninit hist_low_expiry)
     <> hist_tick_spec (hist_live hist_low_expiry)).
Proof.
  split.
  - split; [vm_compute; reflexivity|]. split; [vm_compute; reflexivity|].
    split.
    + intros H. revert H. vm_compute. intuition discriminate.
    + vm_compute. do 126 right. left. reflexivity.
  - intros j. unfold vf_refresh_history_buff_callback.
    change (g_buff_adv_hist_size hist_low_expiry =? 0) with false. cbv iota.
    change (g_buff_adv_hist_firstpos hist_low_expiry
            <? g_buff_adv_hist_lastpos hist_low_expiry) with false.
    cbv iota zeta.
    set (h1 := hist_dec _ 0 _).
    set (i0 := break_scan _ _ _).
    assert (Ei : i0 = 128) by (vm_compute; reflexivity).
    rewrite Ei. change (negb (128 =? MAX_HIST_ADV_BUFF_SIZE)) with false.
    cbv iota.
    cbn [break_scan g_buff_adv_hist_lastpos hist_low_expiry Z.to_nat
         Pos.to_nat Pos.iter_op Nat.add].
    destruct (h_TTL (rd hist0 h1 j) =? 0); vm_compute; discriminate.
Qed.

(** ** Pool and history together *)


(** ** The history tick keeps the ring well formed *)

Lemma In_hist_positions s q :
  In q (hist_positions s) <->
  g_buff_adv_hist_size s <> 0 /\
  ((g_buff_adv_hist_firstpos s < g_buff_adv_hist_lastpos s /\
    g_buff_adv_hist_firstpos s <= q < g_buff_adv_hist_lastpos s) \/
   (g_buff_adv_hist_lastpos s <= g_buff_adv_hist_firstpos s /\
    (g_buff_adv_hist_firstpos s <= q < MAX_HIST_ADV_BUFF_SIZE \/
     0 <= q < g_buff_adv_hist_lastpos s))).
Proof.
  unfold hist_positions, MAX_HIST_ADV_BUFF_SIZE.
  destruct (Z.eqb_spec (g_buff_adv_hist_size s) 0); [simpl; lia|].
  destruct (Z.ltb_spec (g_buff_adv_hist_firstpos s) (g_buff_adv_hist_lastpos s)).
  - rewrite In_zrange. lia.
  - rewrite in_app_iff, !In_zrange. lia.
Qed.

Lemma hist_dec_spec h i n :
  length (hist_dec h i n) = length h /\
  (forall q, h_id (rd hist0 (hist_dec h i n) q) = h_id (rd hist0 h q)).
Proof.
  revert h i. induction n as [|n IH]; intros h i; cbn [hist_dec]; [auto|].
  destruct (IH (if 0 <? h_TTL (rd hist0 h i)
                then wr h i (mk_hist (h_id (rd hist0 h i)) (h_TTL (rd hist0 h i) - 1))
                else h) (i + 1)) as [Hlen Hid].
  rewrite Hlen. split.
  - destruct (_ <? _); [apply wr_length | reflexivity].
  - intros q. rewrite Hid. destruct (_ <? _); [|reflexivity].
    destruct (Z.eq_dec q i) as [->|Hne]; [|rewrite rd_wr_ne by congruence; reflexivity].
    destruct (Z_lt_le_dec i 0); [unfold wr; destruct (Z.leb_spec 0 i); [lia | reflexivity]|].
    destruct (Z_lt_le_dec i (Z.of_nat (length h))).
    + rewrite rd_wr_eq by lia. reflexivity.
    + rewrite wr_out by lia. reflexivity.
Qed.

Lemma break_scan_range test i n :
  i <= break_scan test i n <= i + Z.of_nat n.
Proof.
  revert i. induction n as [|n IH]; intros i; cbn [break_scan]; [lia|].
  destruct (test i); [lia|]. specialize (IH (i + 1)). lia.
Qed.

(** Counters of the compaction loop. *)
Lemma hist_compact_count wrap h i c j n :
  let '(h', i', c') := hist_compact wrap h i c j n in
  length h' = length h /\ c <= c' <= c + Z.of_nat n /\
  (wrap = false -> i' = i + Z.of_nat n - (c' - c)) /\
  (wrap = true -> 0 <= i < 128 -> Z.of_nat n <= 128 ->
   0 <= i' < 128 /\
   (i' = i + Z.of_nat n - (c' - c) \/ i' = i + Z.of_nat n - (c' - c) - 128)).
Proof.
  revert h i c j. induction n as [|n IH]; intros h i c j; cbn [hist_compact].
  - repeat split; lia.
  - unfold MAX_HIST_ADV_BUFF_SIZE.
    destruct (negb (h_TTL (rd hist0 h j) =? 0)).
    + specialize (IH (wr h i (rd hist0 h j))
                     (if wrap && (128 <=? i + 1) then 0 else i + 1) c (j + 1)).
      destruct (hist_compact _ _ _ _ _ _) as [[h' i'] c'].
      destruct IH as (Hlen & Hc & Hnw & Hw).
      rewrite wr_length in Hlen.
      split; [assumption|]. split; [lia|]. split.
      * intros ->. cbn [andb] in Hnw. specialize (Hnw eq_refl). lia.
      * intros -> Hi Hn. cbn [andb] in Hw.
        destruct (Z.leb_spec 128 (i + 1)); specialize (Hw eq_refl); lia.
    + specialize (IH h (if wrap && (128 <=? i) then 0 else i) (c + 1) (j + 1)).
      destruct (hist_compact _ _ _ _ _ _) as [[h' i'] c'].
      destruct IH as (Hlen & Hc & Hnw & Hw).
      split; [assumption|]. split; [lia|]. split.
      * intros ->. cbn [andb] in Hnw. specialize (Hnw eq_refl). lia.
      * intros -> Hi Hn. cbn [andb] in Hw.
        destruct (Z.leb_spec 128 i); specialize (Hw eq_refl); lia.
Qed.

(** Every cell after the compaction loop holds what it held before or a
    copy of a cell the loop read. *)
Lemma hist_compact_cells wrap h i c j n :
  0 <= j -> (j + Z.of_nat n <= i \/ i <= j) ->
  let '(h', _, _) := hist_compact wrap h i c j n in
  forall q, rd hist0 h' q = rd hist0 h q \/
            exists j', j <= j' < j + Z.of_nat n /\ rd hist0 h' q = rd hist0 h j'.
Proof.
  revert h i c j. induction n as [|n IH]; intros h i c j Hj Hpos;
    cbn [hist_compact]; [auto|].
  unfold MAX_HIST_ADV_BUFF_SIZE.
  destruct (negb (h_TTL (rd hist0 h j) =? 0)).
  - specialize (IH (wr h i (rd hist0 h j))
                   (if wrap && (128 <=? i + 1) then 0 else i + 1) c (j + 1)).
    destruct (hist_compact _ _ _ _ _ _) as [[h' i'] c'].
    assert (Hpos' : j + 1 + Z.of_nat n <= (if wrap && (128 <=? i + 1) then 0 else i + 1)
                    \/ (if wrap && (128 <=? i + 1) then 0 else i + 1) <= j + 1).
    { destruct (wrap && (128 <=? i + 1)); lia. }
    specialize (IH ltac:(lia) Hpos').
    intros q. destruct (IH q) as [E|(j' & Hj' & E)].
    + rewrite E. destruct (Z.eq_dec q i) as [->|Hne].
      * destruct (Z_lt_le_dec i 0);
          [unfold wr; destruct (Z.leb_spec 0 i); [lia | auto]|].
        destruct (Z_lt_le_dec i (Z.of_nat (length h))).
        -- rewrite rd_wr_eq by lia. right. exists j. split; [lia | reflexivity].
        -- rewrite wr_out by lia. auto.
      * rewrite rd_wr_ne by congruence. auto.
    + right. exists j'. split; [lia|]. rewrite E. apply rd_wr_ne. lia.
  - specialize (IH h (if wrap && (128 <=? i) then 0 else i) (c + 1) (j + 1)).
    destruct (hist_compact _ _ _ _ _ _) as [[h' i'] c'].
    assert (Hpos' : j + 1 + Z.of_nat n <= (if wrap && (128 <=? i) then 0 else i)
                    \/ (if wrap && (128 <=? i) then 0 else i) <= j + 1).
    { destruct (wrap && (128 <=? i)); lia. }
    specialize (IH ltac:(lia) Hpos').
    intros q. destruct (IH q) as [E|(j' & Hj' & E)]; [auto|].
    right. exists j'. split; [lia | assumption].
Qed.

Ltac compact_facts E :=
  match type of E with
  | hist_compact ?w ?h ?i ?c ?j ?n = _ =>
      let Hc := fresh "Hcount" in
      let Hx := fresh "Hcells" in
      pose proof (hist_compact_count w h i c j n) as Hc;
      pose proof (hist_compact_cells w h i c j n) as Hx;
      rewrite E in Hc, Hx
  end.

(** Whatever [j] holds, a history tick leaves a well-formed ring whose live
    entries carry identities that were live before. *)
Lemma refresh_wf_incl j_uninit s :
  hist_wf s ->
  let s' := vf_refresh_history_buff_callback j_uninit s in
  hist_wf s' /\
  (forall q, In q (hist_positions s') ->
     exists q0, In q0 (hist_positions s) /\
       h_id (rd hist0 (g_buff_adv_hist s') q)
       = h_id (rd hist0 (g_buff_adv_hist s) q0)).
Proof.
  intros Hwf. cbv zeta. unfold vf_refresh_history_buff_callback.
  destruct (Z.eqb_spec (g_buff_adv_hist_size s) 0) as [Z0|Z0];
    [split; [assumption | intros q Hq; eauto]|].
  destruct s as [h sz first last].
  destruct Hwf as (Hlen & Hf & Hl & Hsz).
  cbn [g_buff_adv_hist g_buff_adv_hist_size g_buff_adv_hist_firstpos
       g_buff_adv_hist_lastpos] in *.
  unfold MAX_HIST_ADV_BUFF_SIZE in *.
  destruct (Z.ltb_spec first last) as [Hlt|Hge].
  - (* the ring has not wrapped *)
    destruct (hist_dec_spec h first (Z.to_nat (last - first))) as [Hlen1 Hid1].
    set (h1 := hist_dec h first (Z.to_nat (last - first))) in *.
    match goal with |- context [break_scan ?t first ?n] =>
      pose proof (break_scan_range t first n) as Hi0;
      set (i0 := break_scan t first n) in * end.
    destruct (Z.eqb_spec i0 last) as [Ei|Ei]; cbn [negb].
    + split.
      * unfold hist_wf, MAX_HIST_ADV_BUFF_SIZE; cbn [g_buff_adv_hist g_buff_adv_hist_size g_buff_adv_hist_firstpos g_buff_adv_hist_lastpos]. rewrite Hlen1. auto.
      * intros q Hq. exists q. rewrite In_hist_positions in *. cbn [g_buff_adv_hist g_buff_adv_hist_size g_buff_adv_hist_firstpos g_buff_adv_hist_lastpos] in *.
        split; [assumption | apply Hid1].
    + destruct (hist_compact false h1 i0 1 (i0 + 1) _) as [[h2 i2] c2] eqn:E.
      compact_facts E.
      destruct Hcount as (Hlen2 & Hc2 & Hi2 & _). specialize (Hi2 eq_refl).
      specialize (Hcells ltac:(lia) ltac:(lia)).
      assert (Hu1 : u8 (sz - c2) = i2 - first) by (rewrite u8_small; lia).
      assert (Hu2 : u8 i2 = i2) by (apply u8_small; lia).
      rewrite Hu1, Hu2. split.
      * unfold hist_wf, MAX_HIST_ADV_BUFF_SIZE; cbn [g_buff_adv_hist g_buff_adv_hist_size g_buff_adv_hist_firstpos g_buff_adv_hist_lastpos]. rewrite Hlen2, Hlen1.
        repeat split; try lia.
      * intros q Hq. rewrite In_hist_positions in Hq. cbn [g_buff_adv_hist g_buff_adv_hist_size g_buff_adv_hist_firstpos g_buff_adv_hist_lastpos] in Hq.
        unfold MAX_HIST_ADV_BUFF_SIZE in Hq. cbn [g_buff_adv_hist].
        destruct (Hcells q) as [Eq|(j' & Hj' & Eq)]; rewrite Eq, Hid1.
        -- exists q. split; [|reflexivity].
           rewrite In_hist_positions. cbn [g_buff_adv_hist g_buff_adv_hist_size g_buff_adv_hist_firstpos g_buff_adv_hist_lastpos]. unfold MAX_HIST_ADV_BUFF_SIZE. lia.
        -- exists j'. split; [|reflexivity].
           rewrite In_hist_positions. cbn [g_buff_adv_hist g_buff_adv_hist_size g_buff_adv_hist_firstpos g_buff_adv_hist_lastpos]. unfold MAX_HIST_ADV_BUFF_SIZE. lia.
  - (* the ring has wrapped *)
    assert (Hszw : sz = 128 - first + last) by lia.
    destruct (hist_dec_spec h first (Z.to_nat (128 - first))) as [Hlen0 Hid0].
    destruct (hist_dec_spec (hist_dec h first (Z.to_nat (128 - first))) 0
                (Z.to_nat last)) as [Hlen1 Hid1].
    set (h1 := hist_dec (hist_dec h first (Z.to_nat (128 - first))) 0
                 (Z.to_nat last)) in *.
    assert (Hid : forall q, h_id (rd hist0 h1 q) = h_id (rd hist0 h q))
      by (intros q; rewrite Hid1; apply Hid0).
    rewrite Hlen0 in Hlen1.
    match goal with |- context [break_scan ?t first ?n] =>
      pose proof (break_scan_range t first n) as Hi0;
      set (i0 := break_scan t first n) in * end.
    destruct (Z.eqb_spec i0 128) as [Ei|Ei]; cbn [negb].
    + (* nothing due in the high part: the scan that tests [j] *)
      match goal with |- context [break_scan ?t 0 ?n] =>
        pose proof (break_scan_range t 0 n) as Hi;
        set (i := break_scan t 0 n) in * end.
      destruct (Z.eqb_spec i last) as [Eil|Eil]; cbn [negb].
      * split.
        -- unfold hist_wf, MAX_HIST_ADV_BUFF_SIZE; cbn [g_buff_adv_hist g_buff_adv_hist_size g_buff_adv_hist_firstpos g_buff_adv_hist_lastpos]. rewrite Hlen1. auto.
        -- intros q Hq. exists q. rewrite In_hist_positions in *. cbn [g_buff_adv_hist g_buff_adv_hist_size g_buff_adv_hist_firstpos g_buff_adv_hist_lastpos] in *.
           split; [assumption | apply Hid].
      * destruct (hist_compact false h1 i 1 (i + 1) _) as [[h2 i2] c2] eqn:E.
        compact_facts E.
        destruct Hcount as (Hlen2 & Hc2 & Hi2 & _). specialize (Hi2 eq_refl).
        specialize (Hcells ltac:(lia) ltac:(lia)).
        assert (Hu1 : u8 (sz - c2) = 128 - first + i2) by (rewrite u8_small; lia).
        assert (Hu2 : u8 i2 = i2) by (apply u8_small; lia).
        rewrite Hu1, Hu2. split.
        -- unfold hist_wf, MAX_HIST_ADV_BUFF_SIZE; cbn [g_buff_adv_hist g_buff_adv_hist_size g_buff_adv_hist_firstpos g_buff_adv_hist_lastpos]. rewrite Hlen2, Hlen1.
           repeat split; try lia.
        -- intros q Hq. rewrite In_hist_positions in Hq. cbn [g_buff_adv_hist g_buff_adv_hist_size g_buff_adv_hist_firstpos g_buff_adv_hist_lastpos] in Hq.
           unfold MAX_HIST_ADV_BUFF_SIZE in Hq. cbn [g_buff_adv_hist].
           destruct (Hcells q) as [Eq|(j' & Hj' & Eq)]; rewrite Eq, Hid.
           ++ exists q. split; [|reflexivity].
              rewrite In_hist_positions. cbn [g_buff_adv_hist g_buff_adv_hist_size g_buff_adv_hist_firstpos g_buff_adv_hist_lastpos]. unfold MAX_HIST_ADV_BUFF_SIZE. lia.
           ++ exists j'. split; [|reflexivity].
              rewrite In_hist_positions. cbn [g_buff_adv_hist g_buff_adv_hist_size g_buff_adv_hist_firstpos g_buff_adv_hist_lastpos]. unfold MAX_HIST_ADV_BUFF_SIZE. lia.
    + destruct (hist_compact false h1 i0 1 (i0 + 1) _) as [[h2 i2] c2] eqn:E.
      compact_facts E.
      destruct Hcount as (Hlen2 & Hc2 & Hi2 & _). specialize (Hi2 eq_refl).
      specialize (Hcells ltac:(lia) ltac:(lia)).
      destruct (hist_compact true h2 i2 c2 0 _) as [[h3 i3] c3] eqn:E3.
      compact_facts E3.
      destruct Hcount as (Hlen3 & Hc3 & _ & Hi3).
      specialize (Hi3 eq_refl ltac:(lia) ltac:(lia)).
      specialize (Hcells0 ltac:(lia) ltac:(lia)).
      assert (Hu2 : u8 i3 = i3) by (apply u8_small; lia).
      assert (Hu1 : u8 (sz - c3) = sz - c3) by (apply u8_small; lia).
      rewrite Hu1, Hu2. split.
      * unfold hist_wf, MAX_HIST_ADV_BUFF_SIZE; cbn [g_buff_adv_hist g_buff_adv_hist_size g_buff_adv_hist_firstpos g_buff_adv_hist_lastpos].
        rewrite Hlen3, Hlen2, Hlen1. repeat split; try lia.
      * intros q Hq. rewrite In_hist_positions in Hq. cbn [g_buff_adv_hist g_buff_adv_hist_size g_buff_adv_hist_firstpos g_buff_adv_hist_lastpos] in Hq.
        unfold MAX_HIST_ADV_BUFF_SIZE in Hq. cbn [g_buff_adv_hist].
        assert (Hsrc : forall x,
                  (first <= x < 128 \/ 0 <= x < last) ->
                  exists q0, In q0 (hist_positions (mk_hist_state h sz first last)) /\
                             h_id (rd hist0 h2 x) = h_id (rd hist0 h q0)).
        { intros x Hx.
          destruct (Hcells x) as [Eq|(j' & Hj' & Eq)]; rewrite Eq, Hid.
          - exists x. split; [|reflexivity]. rewrite In_hist_positions. cbn [g_buff_adv_hist g_buff_adv_hist_size g_buff_adv_hist_firstpos g_buff_adv_hist_lastpos]. unfold MAX_HIST_ADV_BUFF_SIZE. lia.
          - exists j'. split; [|reflexivity]. rewrite In_hist_positions. cbn [g_buff_adv_hist g_buff_adv_hist_size g_buff_adv_hist_firstpos g_buff_adv_hist_lastpos]. unfold MAX_HIST_ADV_BUFF_SIZE. lia. }
        destruct (Hcells0 q) as [Eq|(j' & Hj' & Eq)]; rewrite Eq;
          apply Hsrc; lia.
Qed.

Lemma refresh_hist_ids j_uninit s :
  hist_wf s ->
  hist_wf (vf_refresh_history_buff_callback j_uninit s) /\
  incl (hist_ids (vf_refresh_history_buff_callback j_uninit s)) (hist_ids s).
Proof.
  intros Hwf. destruct (refresh_wf_incl j_uninit s Hwf) as [Hwf' Hsrc].
  split; [assumption|]. intros id Hid.
  unfold hist_ids, hist_live in *. rewrite map_map in *.
  apply in_map_iff in Hid as (q & <- & Hq).
  destruct (Hsrc q Hq) as (q0 & Hq0 & E). rewrite E.
  apply in_map_iff. eauto.
Qed.

(** ** Pool and history stay disjoint *)



Lemma pool_repr_used_iff pl rot a :
  pool_repr pl rot -> 0 <= a < 16 ->
  (block_used (garr_userdata pl) a = true <-> In a rot).
Proof.
  destruct rot as [|c r].
  - intros (_ & _ & _ & _ & Hused & _) Ha. apply Hused, Ha.
  - intros (l1 & l2 & -> & (_ & _ & _ & _ & Hused & _) & _) Ha.
    rewrite (Hused a Ha), in_app_iff. cbn [In]. rewrite in_app_iff. tauto.
Qed.

Lemma pool_repr_size pl rot :
  pool_repr pl rot -> g_userdata_size pl = Z.of_nat (length rot).
Proof.
  destruct rot as [|c r].
  - intros (_ & _ & _ & Hs & _). assumption.
  - intros (l1 & l2 & -> & (_ & _ & _ & Hs & _) & _).
    rewrite Hs, !length_app. cbn [length]. rewrite length_app. lia.
Qed.



Lemma rd_replicate_0 n i : rd 0 (replicate n 0) i = 0.
Proof.
  unfold rd. destruct (0 <=? i); [|reflexivity].
  destruct (replicate n 0 !! Z.to_nat i) eqn:E; [|reflexivity].
  apply lookup_replicate in E as [-> _]. reflexivity.
Qed.

Lemma pool_init_repr : pool_repr pool_init [].
Proof.
  cbn [pool_repr]. apply chain_ok_intro.
  - reflexivity.
  - constructor.
  - intros a [].
  - reflexivity.
  - intros a Ha. split; [|intros []]. intros Hu. exfalso.
    apply block_used_true in Hu. apply Hu. apply rd_replicate_0.
  - exact I.
  - congruence.
  - congruence.
Qed.

Lemma state_init_inv : relay_inv state_init [].
Proof.
  split; [exact pool_init_repr|]. split; [intros a []|exact hist_init_wf].
Qed.




Lemma tick_empty st :
  g_userdata_size (pool st) = 0 -> tick st = st.
Proof.
  intros Hz. unfold tick, vf_relay_adv_data3. cbn [relay_loop].
  rewrite Hz. reflexivity.
Qed.



Lemma add_full br st rot :
  relay_inv st rot -> (16 <= length rot)%nat ->
  vf_add_packet_to_buffer3 br st = (1, st).
Proof.
  intros (Hrepr & _) Hlen. unfold vf_add_packet_to_buffer3.
  rewrite (pool_repr_size _ _ Hrepr). unfold MAX_USERDATA_BUFFER_BLOCK.
  destruct (Z.ltb_spec (Z.of_nat (length rot)) 16); [lia | reflexivity].
Qed.








(** C6. In a pool whose size field counts its used blocks,
    [vf_add_packet_to_buffer3] answers 1 (full) exactly when all 16 blocks
    are used, and then leaves the state as it was.  Otherwise it answers 0,
    takes a block that was free, marks it used, gives it 2 advertisements,
    stores the size and the payload, links it behind the old last block and
    makes it the last one; in an empty pool it becomes the first block and
    the cursor as well.  No other block changes its used flag. *)
Theorem C6_allocate (br : uint8_array_t) (st : state) :
  let p := pool st in
  let buf := garr_userdata p in
  length buf = 512%nat ->
  g_userdata_size p = used_count buf ->
  0 <= size br <= 27 ->
  (0 < g_userdata_size p ->
   0 <= g_userdata_lastpos p < 16 /\ block_used buf (g_userdata_lastpos p) = true) ->
  let err := fst (vf_add_packet_to_buffer3 br st) in
  let st' := snd (vf_add_packet_to_buffer3 br st) in
  let p' := pool st' in
  let buf' := garr_userdata p' in
  (err = 1 <-> (forall i, 0 <= i < 16 -> block_used buf i = true)) /\
  (err = 1 -> st' = st) /\
  (err <> 1 ->
   err = 0 /\
   exists pos,
     0 <= pos < 16 /\ block_used buf pos = false /\
     rd 0 buf' (blk pos 0) = 0xFF /\
     rd 0 buf' (blk pos 3) = 2 /\
     rd 0 buf' (blk pos 4) = size br + 1 /\
     (forall k, 0 <= k < size br ->
                rd 0 buf' (blk pos (5 + k)) = rd 0 (p_data br) k) /\
     g_userdata_lastpos p' = pos /\
     rd 0 buf' (blk pos 1) = 0xFF /\
     (if g_userdata_size p =? 0
      then g_userdata_firstpos p' = pos /\ g_userdata_currpos p' = pos /\
           rd 0 buf' (blk pos 2) = 0xFF
      else g_userdata_firstpos p' = g_userdata_firstpos p /\
           g_userdata_currpos p' = g_userdata_currpos p /\
           rd 0 buf' (blk pos 2) = g_userdata_lastpos p /\
           rd 0 buf' (blk (g_userdata_lastpos p) 1) = pos) /\
     g_userdata_size p' = g_userdata_size p + 1 /\
     (forall i, 0 <= i < 16 -> i <> pos -> block_used buf' i = block_used buf i)).
Proof.
  intros p buf Hlen Hsz Hbr Hlast. cbv zeta.
  pose proof (add_spec br st Hlen Hsz Hbr Hlast) as H. cbv zeta in H.
  destruct H as (Hfull & Hsame & Hok).
  split; [exact Hfull|]. split; [exact Hsame|].
  intros Hne. destruct (Hok Hne) as (E0 & pos & H).
  split; [exact E0|]. exists pos.
  repeat match type of H with
         | _ /\ _ => let A := fresh "A" in destruct H as [A H]
         end.
  fold p. fold buf.
  repeat match goal with |- _ /\ _ => split; [assumption|] end.
  assumption.
Qed.

Lemma C6_allocate_witness :
  fst (vf_add_packet_to_buffer3 (sample_payload 1 10 1) state_init) = 1 <->
  (forall i, 0 <= i < 16 ->
             block_used (garr_userdata (pool state_init)) i = true).
Proof.
  refine (proj1 (C6_allocate (sample_payload 1 10 1) state_init _ _ _ _)).
  - reflexivity.
  - reflexivity.
  - simpl. lia.
  - simpl. lia.
Defined.

Lemma C2_two_broadcasts_witness :
  fst (vf_add_packet_to_buffer3 (sample_payload 1 10 1) state_init) = 0.
Proof.
  refine (proj1 (C2_two_broadcasts state_init [] (sample_payload 1 10 1) _ _ _)).
  - apply state_init_inv.
  - simpl. lia.
  - simpl. lia.
Defined.

Lemma C7_tick_frame_witness :
  exists st',
    vf_relay_adv_data3 (snd (vf_add_packet_to_buffer3 (sample_payload 1 10 1) state_init))
    = Some st' /\
    adv_log st' = [AdvRelay 0 [7; 0xFF; 1; 10; 1; 1; 7; 8]].
Proof.
  destruct (C7_tick_frame
              (snd (vf_add_packet_to_buffer3 (sample_payload 1 10 1) state_init)))
    as (st' & H1 & H2 & _).
  - reflexivity.
  - reflexivity.
  - reflexivity.
  - vm_compute. split; [discriminate | reflexivity].
  - vm_compute. split; discriminate.
  - vm_compute. split; discriminate.
  - exists st'. split; [exact H1 | exact H2].
Defined.

Lemma C4_history_insert_witness :
  hist_live (snd (vf_add_buff_adv_hist3 200 (hist_inserts (zrange 1 128) hist_init)))
  = tl (hist_live (hist_inserts (zrange 1 128) hist_init)) ++ [mk_hist 200 10].
Proof.
  refine (proj2 (proj2 (proj2 (proj2 (C4_history_insert (zrange 1 128) 200)))) _ _).
  - vm_compute. intuition discriminate.
  - reflexivity.
Defined.

(** ** History: lookup, insert and delete *)

Lemma find_position id s :
  hist_wf s -> vf_find_id_buff_adv_hist3 id s <> 0xFFFF ->
  In (vf_find_id_buff_adv_hist3 id s) (hist_positions s) /\
  h_id (rd hist0 (g_buff_adv_hist s) (vf_find_id_buff_adv_hist3 id s)) = id.
Proof.
  intros Hwf. unfold vf_find_id_buff_adv_hist3, hist_positions.
  destruct (g_buff_adv_hist_size s =? 0); [congruence|].
  destruct (g_buff_adv_hist_firstpos s <? g_buff_adv_hist_lastpos s).
  - destruct (hist_scan _ id _ _) as [p|] eqn:E; [|congruence].
    intros _. apply hist_scan_Some in E. exact E.
  - destruct (hist_scan _ id _ (Z.to_nat (_ - _))) as [p|] eqn:E.
    + intros _. apply hist_scan_Some in E as [Hp Hid].
      split; [apply in_app_iff; left; exact Hp | exact Hid].
    + destruct (hist_scan _ id 0 _) as [p|] eqn:E2; [|congruence].
      intros _. apply hist_scan_Some in E2 as [Hp Hid].
      split; [apply in_app_iff; right; exact Hp | exact Hid].
Qed.

(** X1. On a well-formed history ring the lookup answers 0xFFFF exactly for
    the identities no live entry carries; any other answer is the index,
    below 128, of a live entry that carries the identity. *)
Theorem hist_find_live_position (id : Z) (s : hist_state) :
  hist_wf s ->
  let r := vf_find_id_buff_adv_hist3 id s in
  (r = 0xFFFF <-> ~ In id (hist_ids s)) /\
  (r <> 0xFFFF ->
   0 <= r < MAX_HIST_ADV_BUFF_SIZE /\ In r (hist_positions s) /\
   h_id (rd hist0 (g_buff_adv_hist s) r) = id).
Proof.
  intros Hwf r. pose proof (find_spec id s Hwf) as Hs. fold r in Hs.
  split.
  - split.
    + intros E Hin. apply Hs in Hin. contradiction.
    + intros Hni. destruct (Z.eq_dec r 0xFFFF) as [E|E]; [exact E|].
      exfalso. apply Hni, Hs, E.
  - intros Hne. destruct (find_position id s Hwf Hne) as [Hp Hid].
    split; [|split; assumption].
    apply (hist_positions_range s _ Hwf Hp).
Qed.

Lemma hist_find_live_position_witness :
  h_id (rd hist0 (g_buff_adv_hist (hist_inserts [5; 7; 9] hist_init))
           (vf_find_id_buff_adv_hist3 7 (hist_inserts [5; 7; 9] hist_init)))
  = 7.
Proof.
  refine (proj2 (proj2 (proj2 (hist_find_live_position 7
                                 (hist_inserts [5; 7; 9] hist_init)
                                 (hist_inserts_wf _ _ hist_init_wf)) _))).
  vm_compute. discriminate.
Defined.

(** X2. Insert, then look up.  On a well-formed ring the insert answers
    0xFFFF exactly when the identity was already live; otherwise it answers
    the new size, between 1 and 128.  Either way the identity is found
    afterwards, and while the ring is not full every identity that was live
    stays live. *)
Theorem hist_add_then_find (id : Z) (s : hist_state) :
  hist_wf s ->
  let r := vf_add_buff_adv_hist3 id s in
  hist_wf (snd r) /\
  vf_find_id_buff_adv_hist3 id (snd r) <> 0xFFFF /\
  (fst r = 0xFFFF <-> In id (hist_ids s)) /\
  (~ In id (hist_ids s) ->
   fst r = g_buff_adv_hist_size (snd r) /\ 1 <= fst r <= MAX_HIST_ADV_BUFF_SIZE) /\
  (g_buff_adv_hist_size s < MAX_HIST_ADV_BUFF_SIZE ->
   forall id', In id' (hist_ids s) -> In id' (hist_ids (snd r))).
Proof.
  intros Hwf r.
  destruct (add_in_hist id s Hwf) as [Hwf' Hin']. fold r in Hwf', Hin'.
  split; [exact Hwf'|].
  split; [apply (find_spec id (snd r) Hwf'), Hin'|].
  destruct (in_dec Z.eq_dec id (hist_ids s)) as [Hin|Hni].
  - assert (E : r = (0xFFFF, s)) by (apply add_present; assumption).
    rewrite E. cbn [fst snd].
    split; [tauto|]. split; [contradiction|]. auto.
  - pose proof (add_absent id s Hwf Hni) as [_ Hlive]. fold r in Hlive.
    assert (Hsz : fst r = g_buff_adv_hist_size (snd r) /\
                  1 <= fst r <= MAX_HIST_ADV_BUFF_SIZE).
    { subst r. unfold vf_add_buff_adv_hist3.
      pose proof (proj1 (find_spec id s Hwf)) as Hf.
      destruct (Z.eqb_spec (vf_find_id_buff_adv_hist3 id s) 0xFFFF) as [_|Hne];
        [|exfalso; apply Hni, Hf, Hne].
      cbn [negb fst snd g_buff_adv_hist_size].
      split; [reflexivity|].
      destruct Hwf as (_ & Hb1 & Hb2 & Hs). unfold MAX_HIST_ADV_BUFF_SIZE in *.
      destruct (Z.ltb_spec (g_buff_adv_hist_size s) 128).
      - rewrite u8_small by lia. lia.
      - lia. }
    split.
    + split; [|contradiction]. intros E. destruct Hsz as [_ Hr].
      unfold MAX_HIST_ADV_BUFF_SIZE in Hr. lia.
    + split; [intros _; exact Hsz|].
      intros Hlt id' Hid'. unfold hist_ids. rewrite Hlive.
      destruct (Z.ltb_spec (g_buff_adv_hist_size s) MAX_HIST_ADV_BUFF_SIZE);
        [|lia].
      rewrite map_app. apply in_app_iff. left. exact Hid'.
Qed.

Lemma hist_add_then_find_witness :
  vf_find_id_buff_adv_hist3 9
    (snd (vf_add_buff_adv_hist3 9 (hist_inserts [5; 7] hist_init))) <> 0xFFFF.
Proof.
  exact (proj1 (proj2 (hist_add_then_find 9 (hist_inserts [5; 7] hist_init)
                         (hist_inserts_wf _ _ hist_init_wf)))).
Defined.

Lemma ring_tl sz first last :
  0 <= first < 128 -> 0 <= last < 128 -> sz <> 0 ->
  ((first < last /\ sz = last - first) \/
   (last <= first /\ sz = 128 - first + last)) ->
  ring (sz - 1) (ring_next first) last = tl (ring sz first last).
Proof.
  intros Hf Hl Hsz Hc. unfold ring, hist_positions, ring_next, MAX_HIST_ADV_BUFF_SIZE.
  cbn [g_buff_adv_hist_size g_buff_adv_hist_firstpos g_buff_adv_hist_lastpos].
  destruct (Z.eqb_spec sz 0) as [|_]; [contradiction|].
  destruct Hc as [[Hlt E]|[Hle E]].
  - destruct (Z.ltb_spec first last); [|lia].
    destruct (Z.eqb_spec (first + 1) 128); [lia|].
    replace (Z.to_nat (last - first)) with (S (Z.to_nat (last - (first + 1))))
      by lia.
    cbn [zrange tl].
    destruct (Z.eqb_spec (sz - 1) 0).
    + replace (Z.to_nat (last - (first + 1))) with O by lia. reflexivity.
    + destruct (Z.ltb_spec (first + 1) last); [reflexivity | lia].
  - destruct (Z.ltb_spec first last); [lia|].
    replace (Z.to_nat (128 - first)) with (S (Z.to_nat (128 - (first + 1))))
      by lia.
    cbn [zrange app tl].
    destruct (Z.eqb_spec (first + 1) 128) as [E1|E1].
    + replace (Z.to_nat (128 - (first + 1))) with O by lia. cbn [zrange app].
      destruct (Z.eqb_spec (sz - 1) 0).
      * replace (Z.to_nat last) with O by lia. reflexivity.
      * destruct (Z.ltb_spec 0 last); [|lia].
        rewrite Z.sub_0_r. reflexivity.
    + destruct (Z.eqb_spec (sz - 1) 0); [lia|].
      destruct (Z.ltb_spec (first + 1) last); [lia | reflexivity].
Qed.

(** X3. [vf_delete_buff_adv_hist3] drops the oldest live entry and nothing
    else, whatever position it is given; on an empty ring it does nothing.
    The ring stays well formed. *)
Theorem hist_delete_oldest (pos : Z) (s : hist_state) :
  hist_wf s ->
  let s' := vf_delete_buff_adv_hist3 pos s in
  hist_wf s' /\
  hist_live s' = tl (hist_live s) /\
  (g_buff_adv_hist_size s = 0 -> s' = s) /\
  (g_buff_adv_hist_size s <> 0 ->
   g_buff_adv_hist_size s' = g_buff_adv_hist_size s - 1).
Proof.
  intros Hwf. cbv zeta. unfold vf_delete_buff_adv_hist3.
  destruct (Z.eqb_spec (g_buff_adv_hist_size s) 0) as [E0|Hne].
  - split; [exact Hwf|]. split; [|split; [reflexivity | contradiction]].
    unfold hist_live, hist_positions. rewrite E0. reflexivity.
  - destruct Hwf as (Hlen & Hf & Hl & Hsz).
    destruct s as [h sz first last].
    cbn [g_buff_adv_hist g_buff_adv_hist_size g_buff_adv_hist_firstpos
         g_buff_adv_hist_lastpos] in *.
    unfold MAX_HIST_ADV_BUFF_SIZE in *.
    assert (Hu : u8 (first + 1) = first + 1) by (apply u8_small; lia).
    assert (Hs : u8 (sz - 1) = sz - 1) by (apply u8_small; lia).
    rewrite Hu, Hs. fold (ring_next first).
    assert (Hn : 0 <= ring_next first < 128)
      by (unfold ring_next; destruct (Z.eqb_spec (first + 1) 128); lia).
    split; [|split; [|split; [contradiction | reflexivity]]].
    + unfold hist_wf, MAX_HIST_ADV_BUFF_SIZE.
      cbn [g_buff_adv_hist g_buff_adv_hist_size g_buff_adv_hist_firstpos
           g_buff_adv_hist_lastpos].
      split; [exact Hlen|]. split; [exact Hn|]. split; [exact Hl|].
      unfold ring_next. destruct (Z.eqb_spec (first + 1) 128); lia.
    + unfold hist_live. rewrite !hist_positions_ring.
      cbn [g_buff_adv_hist g_buff_adv_hist_size g_buff_adv_hist_firstpos
           g_buff_adv_hist_lastpos].
      rewrite ring_tl by lia. symmetry. apply tl_map.
Qed.

Lemma hist_delete_oldest_witness :
  hist_live (vf_delete_buff_adv_hist3 0 (hist_inserts [5; 7; 9] hist_init))
  = tl (hist_live (hist_inserts [5; 7; 9] hist_init)).
Proof.
  exact (proj1 (proj2 (hist_delete_oldest 0 (hist_inserts [5; 7; 9] hist_init)
                         (hist_inserts_wf _ _ hist_init_wf)))).
Defined.

(** ** The history tick on a ring that has not wrapped *)

Lemma hist_dec_cells h i n q :
  0 <= i ->
  rd hist0 (hist_dec h i n) q
  = if (i <=? q) && (q <? i + Z.of_nat n) then ttl_dec (rd hist0 h q)
    else rd hist0 h q.
Proof.
  revert h i. induction n as [|n IH]; intros h i Hi.
  - cbn [hist_dec]. destruct (Z.leb_spec i q), (Z.ltb_spec q (i + Z.of_nat 0));
      cbn [andb]; try reflexivity; lia.
  - cbn [hist_dec]. rewrite IH by lia.
    set (e := rd hist0 h i).
    assert (Hcell : forall q',
      rd hist0 (if 0 <? h_TTL e then wr h i (mk_hist (h_id e) (h_TTL e - 1))
                else h) q'
      = if q' =? i then ttl_dec e else rd hist0 h q').
    { intros q'. destruct (Z.eqb_spec q' i) as [->|Hne].
      - unfold ttl_dec. destruct (Z.ltb_spec 0 (h_TTL e)); [|reflexivity].
        destruct (Z.ltb_spec i (Z.of_nat (length h))).
        + apply rd_wr_eq. lia.
        + exfalso. unfold e in H. rewrite rd_out in H by lia. cbn in H. lia.
      - destruct (0 <? h_TTL e); [|reflexivity]. apply rd_wr_ne. lia. }
    rewrite Hcell.
    destruct (Z.eqb_spec q i) as [->|Hne].
    + destruct (Z.leb_spec (i + 1) i); [lia|]. cbn [andb].
      destruct (Z.leb_spec i i); [|lia].
      destruct (Z.ltb_spec i (i + Z.of_nat (S n))); [|lia]. reflexivity.
    + destruct (Z.leb_spec (i + 1) q), (Z.ltb_spec q (i + 1 + Z.of_nat n)),
        (Z.leb_spec i q), (Z.ltb_spec q (i + Z.of_nat (S n)));
        cbn [andb]; try reflexivity; lia.
Qed.

Lemma hist_dec_length h i n : length (hist_dec h i n) = length h.
Proof. apply hist_dec_spec. Qed.

Lemma break_scan_first test i n :
  let r := break_scan test i n in
  i <= r <= i + Z.of_nat n /\
  (forall q, i <= q < r -> test q = false) /\
  (r < i + Z.of_nat n -> test r = true).
Proof.
  revert i. induction n as [|n IH]; intros i; cbn [break_scan].
  - cbv zeta. split; [lia|]. split; intros; lia.
  - destruct (test i) eqn:E; cbv zeta.
    + split; [lia|]. split; [intros; lia | intros _; exact E].
    + destruct (IH (i + 1)) as (Hr & Hq & Ht). split; [lia|]. split.
      * intros q Hq'. destruct (Z.eq_dec q i) as [->|]; [exact E|].
        apply Hq. lia.
      * intros H. apply Ht. lia.
Qed.

Lemma hist_compact_filter n : forall h i c j,
  0 <= i <= j -> j + Z.of_nat n <= Z.of_nat (length h) ->
  let surv := filter (fun e => h_TTL e <> 0)
                     (map (rd hist0 h) (zrange j n)) in
  hist_compact false h i c j n
  = (fst (fst (hist_compact false h i c j n)),
     i + Z.of_nat (length surv),
     c + Z.of_nat n - Z.of_nat (length surv)) /\
  length (fst (fst (hist_compact false h i c j n))) = length h /\
  map (rd hist0 (fst (fst (hist_compact false h i c j n))))
      (zrange i (length surv)) = surv /\
  (forall q, q < i ->
     rd hist0 (fst (fst (hist_compact false h i c j n))) q = rd hist0 h q).
Proof.
  induction n as [|n IH]; intros h i c j Hij Hlen; cbv zeta.
  - cbn [hist_compact zrange map fst]. rewrite filter_nil. cbn [length zrange map].
    split; [f_equal; [f_equal|]; lia|]. auto.
  - cbn [hist_compact zrange map]. cbn [andb].
    set (e := rd hist0 h j).
    destruct (Z.eqb_spec (h_TTL e) 0) as [E0|Hne]; cbn [negb].
    + rewrite filter_cons_False by (intros H; apply H; exact E0).
      destruct (IH h i (c + 1) (j + 1)) as (E & Hl & Hm & Hfr); [lia | lia |].
      rewrite E at 1. cbn [fst].
      split; [f_equal; lia|]. auto.
    + rewrite filter_cons_True by exact Hne.
      destruct (IH (wr h i e) (i + 1) c (j + 1)) as (E & Hl & Hm & Hfr);
        [lia | rewrite wr_length; lia |].
      assert (Hmap : map (rd hist0 (wr h i e)) (zrange (j + 1) n)
                     = map (rd hist0 h) (zrange (j + 1) n)).
      { apply map_rd_wr_notin. intros Hin. apply In_zrange in Hin. lia. }
      rewrite Hmap in E, Hm. rewrite wr_length in Hl.
      set (surv := filter (fun e0 => h_TTL e0 <> 0)
                          (map (rd hist0 h) (zrange (j + 1) n))) in *.
      rewrite E at 1. cbn [fst length].
      split; [f_equal; [f_equal|]; lia|].
      split; [exact Hl|]. split.
      * cbn [zrange map]. f_equal; [|exact Hm].
        rewrite Hfr by lia. apply rd_wr_eq. lia.
      * intros q Hq. rewrite Hfr by lia. apply rd_wr_ne. lia.
Qed.

Lemma filter_all {A : Type} (P : A -> Prop) `{forall x, Decision (P x)}
    (l : list A) :
  (forall x, In x l -> P x) -> filter P l = l.
Proof.
  induction l as [|a l IH]; intros Hall; [reflexivity|].
  rewrite filter_cons_True by (apply Hall; left; reflexivity).
  f_equal. apply IH. intros x Hx. apply Hall. right. exact Hx.
Qed.

Lemma zrange_split a n k :
  (k < n)%nat ->
  zrange a n = zrange a k ++ (a + Z.of_nat k) :: zrange (a + Z.of_nat k + 1) (n - k - 1).
Proof.
  intros Hk. replace n with (k + S (n - k - 1))%nat at 1 by lia.
  rewrite zrange_app. reflexivity.
Qed.

(** The tick on the entries between [first] and [last], [first < last]. *)
Lemma hist_tick_segment j_uninit h sz first last :
  length h = 128%nat -> 0 <= first -> first < last -> last < 128 ->
  sz = last - first ->
  (forall q, first <= q < last -> 1 <= h_TTL (rd hist0 h q)) ->
  let s := mk_hist_state h sz first last in
  let s' := vf_refresh_history_buff_callback j_uninit s in
  let kept := hist_tick_spec (hist_live s) in
  g_buff_adv_hist_firstpos s' = first /\
  g_buff_adv_hist_lastpos s' = first + Z.of_nat (length kept) /\
  g_buff_adv_hist_size s' = Z.of_nat (length kept) /\
  length (g_buff_adv_hist s') = 128%nat /\
  map (rd hist0 (g_buff_adv_hist s')) (zrange first (length kept)) = kept.
Proof.
  intros Hlen Hf Hfl Hl Hsz Httl. cbv zeta.
  unfold vf_refresh_history_buff_callback, hist_live, hist_positions,
    hist_tick_spec.
  cbn [g_buff_adv_hist g_buff_adv_hist_size g_buff_adv_hist_firstpos
       g_buff_adv_hist_lastpos].
  destruct (Z.eqb_spec sz 0) as [|_]; [lia|].
  destruct (Z.ltb_spec first last) as [_|]; [|lia].
  set (n := Z.to_nat (last - first)).
  set (h1 := hist_dec h first n).
  assert (Hlen1 : length h1 = 128%nat)
    by (unfold h1; rewrite hist_dec_length; exact Hlen).
  assert (Hdec : map (fun e => mk_hist (h_id e) (h_TTL e - 1))
                     (map (rd hist0 h) (zrange first n))
                 = map (rd hist0 h1) (zrange first n)).
  { rewrite map_map. apply map_ext_in. intros q Hq. apply In_zrange in Hq.
    unfold h1. rewrite hist_dec_cells by lia.
    destruct (Z.leb_spec first q); [|lia].
    destruct (Z.ltb_spec q (first + Z.of_nat n)); [|lia]. cbn [andb].
    unfold ttl_dec. specialize (Httl q ltac:(lia)).
    destruct (Z.ltb_spec 0 (h_TTL (rd hist0 h q))); [reflexivity | lia]. }
  rewrite Hdec. clear Hdec Httl.
  set (zero := fun i => h_TTL (rd hist0 h1 i) =? 0).
  destruct (break_scan_first zero first n) as (Hr & Hbefore & Hat).
  set (i := break_scan zero first n) in *.
  replace (first + Z.of_nat n) with last in * by lia.
  destruct (Z.eqb_spec i last) as [Ei|Hne]; cbn [negb].
  - (* nothing has expired *)
    assert (Hall : filter (fun e => h_TTL e <> 0)
                          (map (rd hist0 h1) (zrange first n))
                   = map (rd hist0 h1) (zrange first n)).
    { apply filter_all. intros e He. apply in_map_iff in He as (q & <- & Hq).
      apply In_zrange in Hq. specialize (Hbefore q ltac:(lia)).
      unfold zero in Hbefore. apply Z.eqb_neq in Hbefore. exact Hbefore. }
    rewrite Hall. rewrite length_map, zrange_length.
    cbn [g_buff_adv_hist g_buff_adv_hist_size g_buff_adv_hist_firstpos
         g_buff_adv_hist_lastpos].
    repeat split; try assumption; lia.
  - (* the entry at [i] has expired *)
    assert (Hi : first <= i < last) by lia.
    set (k := Z.to_nat (i - first)).
    assert (Hsplit : zrange first n
                     = zrange first k ++ i :: zrange (i + 1) (Z.to_nat (last - (i + 1)))).
    { rewrite (zrange_split first n k) by lia.
      replace (first + Z.of_nat k) with i by lia.
      replace (n - k - 1)%nat with (Z.to_nat (last - (i + 1))) by lia.
      reflexivity. }
    rewrite Hsplit, map_app, filter_app. cbn [map].
    rewrite filter_cons_False
      by (intros H; apply H; apply Z.eqb_eq; apply Hat; lia).
    rewrite (filter_all _ (map (rd hist0 h1) (zrange first k))).
    2:{ intros e He. apply in_map_iff in He as (q & <- & Hq).
        apply In_zrange in Hq. specialize (Hbefore q ltac:(lia)).
        unfold zero in Hbefore. apply Z.eqb_neq in Hbefore. exact Hbefore. }
    set (m := Z.to_nat (last - (i + 1))).
    destruct (hist_compact_filter m h1 i 1 (i + 1)) as (E & Hl2 & Hm & Hfr);
      [lia | lia |].
    set (surv := filter (fun e => h_TTL e <> 0)
                        (map (rd hist0 h1) (zrange (i + 1) m))) in *.
    rewrite E.
    set (h2 := fst (fst (hist_compact false h1 i 1 (i + 1) m))) in *.
    cbn [g_buff_adv_hist g_buff_adv_hist_size g_buff_adv_hist_firstpos
         g_buff_adv_hist_lastpos].
    assert (Hsl : (length surv <= m)%nat).
    { unfold surv. etransitivity; [apply length_filter|].
      rewrite length_map, zrange_length. lia. }
    rewrite length_app, length_map, zrange_length.
    rewrite !u8_small by lia.
    split; [reflexivity|]. split; [lia|]. split; [lia|]. split; [lia|].
    rewrite zrange_app, map_app.
    replace (first + Z.of_nat k) with i by lia.
    rewrite Hm. f_equal.
    apply map_ext_in. intros q Hq. apply In_zrange in Hq. apply Hfr. lia.
Qed.

Lemma hist_tick_unwrapped_live j_uninit s :
  hist_wf s ->
  g_buff_adv_hist_firstpos s < g_buff_adv_hist_lastpos s ->
  (forall e, In e (hist_live s) -> 1 <= h_TTL e) ->
  let s' := vf_refresh_history_buff_callback j_uninit s in
  hist_wf s' /\
  hist_live s' = hist_tick_spec (hist_live s) /\
  g_buff_adv_hist_firstpos s' = g_buff_adv_hist_firstpos s /\
  (forall e, In e (hist_live s') -> 1 <= h_TTL e).
Proof.
  intros Hwf Hfl Httl.
  pose proof (hist_positions_length s Hwf) as Hpl.
  destruct Hwf as (Hlen & Hf & Hl & Hsz).
  destruct s as [h sz first last].
  cbn [g_buff_adv_hist g_buff_adv_hist_size g_buff_adv_hist_firstpos
       g_buff_adv_hist_lastpos] in *.
  unfold MAX_HIST_ADV_BUFF_SIZE in *.
  assert (Esz : sz = last - first) by lia.
  assert (Hlive : hist_live (mk_hist_state h sz first last)
                  = map (rd hist0 h) (zrange first (Z.to_nat (last - first)))).
  { unfold hist_live, hist_positions.
    cbn [g_buff_adv_hist g_buff_adv_hist_size g_buff_adv_hist_firstpos
         g_buff_adv_hist_lastpos].
    destruct (Z.eqb_spec sz 0); [lia|].
    destruct (Z.ltb_spec first last); [reflexivity | lia]. }
  assert (Hq : forall q, first <= q < last -> 1 <= h_TTL (rd hist0 h q)).
  { intros q Hq. apply Httl. rewrite Hlive. apply in_map_iff.
    exists q. split; [reflexivity | apply In_zrange; lia]. }
  destruct (hist_tick_segment j_uninit h sz first last Hlen ltac:(lia) Hfl
              ltac:(lia) Esz Hq) as (E1 & E2 & E3 & E4 & E5).
  cbv zeta.
  set (s' := vf_refresh_history_buff_callback j_uninit _) in *.
  set (kept := hist_tick_spec _) in *.
  assert (Hk : (length kept <= Z.to_nat (last - first))%nat).
  { unfold kept, hist_tick_spec. etransitivity; [apply length_filter|].
    rewrite length_map, Hlive, length_map, zrange_length. lia. }
  assert (Hlive' : hist_live s' = kept).
  { unfold hist_live, hist_positions. rewrite E1, E2, E3.
    destruct (Z.eqb_spec (Z.of_nat (length kept)) 0) as [E0|Hne].
    - destruct kept; [reflexivity | cbn in E0; lia].
    - destruct (Z.ltb_spec first (first + Z.of_nat (length kept))); [|lia].
      replace (Z.to_nat (first + Z.of_nat (length kept) - first))
        with (length kept) by lia.
      exact E5. }
  split; [|split; [exact Hlive' | split; [exact E1|]]].
  - unfold hist_wf, MAX_HIST_ADV_BUFF_SIZE. rewrite E1, E2, E3.
    split; [exact E4|]. lia.
  - rewrite Hlive'. intros e He. unfold kept, hist_tick_spec in He.
    apply list_elem_of_In, list_elem_of_filter in He as [Hne He].
    apply list_elem_of_In, in_map_iff in He as (e0 & <- & He0).
    specialize (Httl e0 He0). cbn [h_TTL] in *. lia.
Qed.

(** X4. On a well-formed history ring that has not wrapped ([firstpos]
    below [lastpos]) and whose live entries all have a ttl of at least 1, one
    tick lowers every ttl by one and removes exactly the entries that reach
    zero, keeping the order of the others; [firstpos] stays, and this holds
    whatever the never-assigned [j] holds. *)
Theorem hist_tick_unwrapped (j_uninit : Z) (s : hist_state) :
  hist_wf s ->
  g_buff_adv_hist_firstpos s < g_buff_adv_hist_lastpos s ->
  (forall e, In e (hist_live s) -> 1 <= h_TTL e) ->
  let s' := vf_refresh_history_buff_callback j_uninit s in
  hist_wf s' /\
  hist_live s' = hist_tick_spec (hist_live s) /\
  g_buff_adv_hist_size s' = Z.of_nat (length (hist_tick_spec (hist_live s))) /\
  g_buff_adv_hist_firstpos s' = g_buff_adv_hist_firstpos s.
Proof.
  intros Hwf Hfl Httl. cbv zeta.
  destruct (hist_tick_unwrapped_live j_uninit s Hwf Hfl Httl)
    as (Hwf' & Hlive & Hfirst & _).
  split; [exact Hwf'|]. split; [exact Hlive|]. split; [|exact Hfirst].
  rewrite <- Hlive. unfold hist_live. rewrite length_map.
  symmetry. apply hist_positions_length. exact Hwf'.
Qed.

Lemma hist_tick_unwrapped_witness :
  hist_live (vf_refresh_history_buff_callback 0 (hist_inserts [5; 7; 9] hist_init))
  = [mk_hist 5 9; mk_hist 7 9; mk_hist 9 9].
Proof.
  refine (proj1 (proj2 (hist_tick_unwrapped 0 (hist_inserts [5; 7; 9] hist_init)
                          (hist_inserts_wf _ _ hist_init_wf) _ _))).
  - reflexivity.
  - vm_compute. intros e [<-|[<-|[<-|[]]]]; discriminate.
Defined.

(** *** The lifetime of an entry *)

Lemma hist_inserts_snoc l x s :
  hist_inserts (l ++ [x]) s = snd (vf_add_buff_adv_hist3 x (hist_inserts l s)).
Proof. unfold hist_inserts. rewrite fold_left_app. reflexivity. Qed.

Lemma hist_inserts_fresh l :
  List.NoDup l -> (length l < 128)%nat ->
  let s := hist_inserts l hist_init in
  g_buff_adv_hist_firstpos s = 0 /\
  g_buff_adv_hist_lastpos s = Z.of_nat (length l) /\
  g_buff_adv_hist_size s = Z.of_nat (length l) /\
  hist_live s = map (fun id => mk_hist id 10) l.
Proof.
  induction l as [|x l IH] using rev_ind; intros Hnd Hlen; cbv zeta.
  - repeat split; reflexivity.
  - rewrite length_app in Hlen. cbn [length] in Hlen.
    apply NoDup_app_remove_r in Hnd as Hnd1.
    destruct (IH Hnd1 ltac:(lia)) as (Hf & Hl & Hs & Hlive).
    assert (Hwf : hist_wf (hist_inserts l hist_init))
      by (apply hist_inserts_wf, hist_init_wf).
    assert (Hni : ~ In x (hist_ids (hist_inserts l hist_init))).
    { unfold hist_ids. rewrite Hlive, map_map. cbn [h_id]. rewrite map_id.
      intros Hin. apply NoDup_remove_2 in Hnd. apply Hnd.
      rewrite app_nil_r. exact Hin. }
    rewrite hist_inserts_snoc.
    pose proof (add_absent x _ Hwf Hni) as [_ Hlive'].
    rewrite Hlive'. rewrite Hs.
    destruct (Z.ltb_spec (Z.of_nat (length l)) MAX_HIST_ADV_BUFF_SIZE) as [_|H];
      [|unfold MAX_HIST_ADV_BUFF_SIZE in H; lia].
    rewrite Hlive, map_app, length_app. cbn [map length].
    unfold vf_add_buff_adv_hist3.
    pose proof (proj1 (find_spec x _ Hwf)) as Hfind.
    destruct (Z.eqb_spec (vf_find_id_buff_adv_hist3 x (hist_inserts l hist_init))
                         0xFFFF) as [_|Hne]; [|exfalso; apply Hni, Hfind, Hne].
    cbn [negb snd g_buff_adv_hist_firstpos g_buff_adv_hist_lastpos
         g_buff_adv_hist_size].
    rewrite Hf, Hl, Hs. unfold MAX_HIST_ADV_BUFF_SIZE.
    rewrite !u8_small by lia.
    destruct (Z.eqb_spec (Z.of_nat (length l)) 128); [lia|]. cbn [negb].
    destruct (Z.eqb_spec (Z.of_nat (length l) + 1) 128); [lia|].
    destruct (Z.ltb_spec (Z.of_nat (length l)) 128); [|lia].
    repeat split; lia.
Qed.

Lemma hist_ticks_S j_uninit n s :
  hist_ticks j_uninit (S n) s
  = vf_refresh_history_buff_callback j_uninit (hist_ticks j_uninit n s).
Proof. reflexivity. Qed.

Lemma hist_ticks_empty j_uninit n s :
  g_buff_adv_hist_size s = 0 -> hist_ticks j_uninit n s = s.
Proof.
  intros E. induction n as [|n IH]; [reflexivity|].
  rewrite hist_ticks_S, IH. unfold vf_refresh_history_buff_callback.
  rewrite E. reflexivity.
Qed.

Lemma hist_ticks_fresh j_uninit l n :
  List.NoDup l -> l <> [] -> (length l < 128)%nat -> (n <= 9)%nat ->
  let s := hist_ticks j_uninit n (hist_inserts l hist_init) in
  hist_wf s /\ g_buff_adv_hist_firstpos s = 0 /\
  hist_live s = map (fun id => mk_hist id (10 - Z.of_nat n)) l.
Proof.
  intros Hnd Hne Hlen. induction n as [|n IH]; intros Hn; cbv zeta.
  - destruct (hist_inserts_fresh l Hnd Hlen) as (Hf & _ & _ & Hlive).
    split; [apply hist_inserts_wf, hist_init_wf|]. split; [exact Hf|].
    exact Hlive.
  - destruct (IH ltac:(lia)) as (Hwf & Hf & Hlive).
    rewrite hist_ticks_S.
    set (s := hist_ticks j_uninit n (hist_inserts l hist_init)) in *.
    assert (Hfl : g_buff_adv_hist_firstpos s < g_buff_adv_hist_lastpos s).
    { pose proof (hist_positions_length s Hwf) as Hpl.
      assert (Hll : length (hist_positions s) = length l).
      { unfold hist_live in Hlive.
        apply (f_equal (@length _)) in Hlive.
        rewrite !length_map in Hlive. exact Hlive. }
      destruct l as [|x l']; [contradiction|]. cbn [length] in *.
      destruct Hwf as (_ & _ & Hl & Hsz). unfold MAX_HIST_ADV_BUFF_SIZE in *.
      lia. }
    assert (Httl : forall e, In e (hist_live s) -> 1 <= h_TTL e).
    { rewrite Hlive. intros e He. apply in_map_iff in He as (x & <- & _).
      cbn [h_TTL]. lia. }
    destruct (hist_tick_unwrapped_live j_uninit s Hwf Hfl Httl)
      as (Hwf' & Hlive' & Hf' & _).
    split; [exact Hwf'|]. split; [lia|].
    rewrite Hlive', Hlive. unfold hist_tick_spec. rewrite map_map.
    cbn [h_id h_TTL].
    rewrite filter_all.
    + apply map_ext. intros x. f_equal. lia.
    + intros e He. apply in_map_iff in He as (x & <- & _). cbn [h_TTL]. lia.
Qed.

Lemma hist_ticks_add j_uninit n m s :
  hist_ticks j_uninit (n + m) s
  = hist_ticks j_uninit n (hist_ticks j_uninit m s).
Proof. unfold hist_ticks. apply Nat.iter_add. Qed.

Lemma hist_ticks_expired j_uninit l :
  List.NoDup l -> l <> [] -> (length l < 128)%nat ->
  let s := hist_ticks j_uninit 10 (hist_inserts l hist_init) in
  g_buff_adv_hist_size s = 0 /\ hist_live s = [].
Proof.
  intros Hnd Hne Hlen. cbv zeta.
  destruct (hist_ticks_fresh j_uninit l 9 Hnd Hne Hlen ltac:(lia))
    as (Hwf & Hf & Hlive).
  rewrite (hist_ticks_S j_uninit 9).
  generalize dependent (hist_ticks j_uninit 9 (hist_inserts l hist_init)).
  intros s9 Hwf Hf Hlive.
  assert (Hfl : g_buff_adv_hist_firstpos s9 < g_buff_adv_hist_lastpos s9).
  { pose proof (hist_positions_length s9 Hwf) as Hpl.
    assert (Hll : length (hist_positions s9) = length l).
    { unfold hist_live in Hlive.
      apply (f_equal (@length _)) in Hlive.
      rewrite !length_map in Hlive. exact Hlive. }
    destruct l as [|y l'']; [contradiction|]. cbn [length] in *.
    destruct Hwf as (_ & _ & Hl & Hsz). unfold MAX_HIST_ADV_BUFF_SIZE in *.
    lia. }
  assert (Httl : forall e, In e (hist_live s9) -> 1 <= h_TTL e).
  { rewrite Hlive. intros e He. apply in_map_iff in He as (y & <- & _).
    cbn [h_TTL]. lia. }
  destruct (hist_tick_unwrapped_live j_uninit s9 Hwf Hfl Httl)
    as (Hwf' & Hlive' & _ & _).
  generalize dependent (vf_refresh_history_buff_callback j_uninit s9).
  intros s10 Hwf' Hlive'.
  assert (Hempty : hist_live s10 = []).
  { rewrite Hlive', Hlive. unfold hist_tick_spec. rewrite map_map.
    cbn [h_id h_TTL]. clear. induction l as [|y l IH]; [reflexivity|].
    cbn [map]. rewrite filter_cons_False by (cbn [h_TTL]; lia). exact IH. }
  split; [|exact Hempty].
  rewrite <- (hist_positions_length s10 Hwf').
  unfold hist_live in Hempty. apply (f_equal (@length _)) in Hempty.
  rewrite length_map in Hempty. cbn [length] in Hempty. lia.
Qed.

(** X5. An entry of the history lives for ten ticks.  After fewer than 128
    distinct identities were inserted into the empty history, they are all
    found during the next nine ticks, and the tenth tick removes them all;
    this holds whatever the never-assigned [j] holds. *)
Theorem hist_entry_lifetime (j_uninit : Z) (l : list Z) (n : nat) :
  List.NoDup l -> (length l < 128)%nat ->
  hist_ids (hist_ticks j_uninit n (hist_inserts l hist_init))
  = if (n <? 10)%nat then l else [].
Proof.
  intros Hnd Hlen.
  destruct (decide (l = [])) as [->|Hne].
  { rewrite hist_ticks_empty by reflexivity. destruct (n <? 10)%nat; reflexivity. }
  destruct (Nat.ltb_spec n 10) as [Hlt|Hge].
  - destruct (hist_ticks_fresh j_uninit l n Hnd Hne Hlen ltac:(lia))
      as (_ & _ & Hlive).
    unfold hist_ids. rewrite Hlive, map_map. cbn [h_id]. apply map_id.
  - destruct (hist_ticks_expired j_uninit l Hnd Hne Hlen) as [Hs0 Hempty].
    assert (E : n = ((n - 10) + 10)%nat) by lia.
    rewrite E, hist_ticks_add, hist_ticks_empty by exact Hs0.
    unfold hist_ids. rewrite Hempty. reflexivity.
Qed.

Lemma hist_entry_lifetime_witness :
  hist_ids (hist_ticks 0 10 (hist_inserts [5; 7; 9] hist_init)) = [].
Proof.
  refine (hist_entry_lifetime 0 [5; 7; 9] 10 _ _).
  - repeat constructor; cbn; intuition discriminate.
  - simpl. lia.
Defined.

(** ** The invariant of the relay engine over all events *)

Lemma relay_inv_length st rot : relay_inv st rot -> (length rot <= 16)%nat.
Proof.
  intros (Hrepr & _). destruct (pool_repr_NoDup _ _ Hrepr) as [Hnd Hr].
  apply slots_length_le; assumption.
Qed.

Lemma add_packet_inv br st rot :
  relay_inv st rot -> 0 <= size br <= 27 ->
  exists rot', relay_inv (snd (vf_add_packet_to_buffer3 br st)) rot'.
Proof.
  intros Hinv Hsz.
  destruct (Nat.le_gt_cases 16 (length rot)) as [Hfull|Hroom].
  - rewrite (add_full br st rot Hinv Hfull). eauto.
  - destruct (add_inv br st rot Hinv Hsz Hroom)
      as (_ & pos & pre & post & Hrel1 & _).
    eauto.
Qed.

Lemma thingy_idata_size c data st :
  size (thingy_idata c data st) = 15 \/ size (thingy_idata c data st) = 6.
Proof. destruct c; cbn; auto. Qed.

Lemma node_step_inv e st rot :
  relay_inv st rot -> node_event_ok e ->
  exists rot', relay_inv (node_step e st) rot'.
Proof.
  intros Hinv Hok. destruct e as [|j|i u|c d|]; cbn [node_step node_event_ok] in *.
  - destruct rot as [|c r].
    + rewrite tick_empty; [eauto|].
      rewrite (pool_repr_size _ _ (proj1 Hinv)). reflexivity.
    + destruct (inv_tick st c r Hinv) as (st' & bytes & E & _ & _ & Hcase).
      unfold tick. rewrite E. change (default st (Some st')) with st'.
      destruct (_ =? 1); destruct Hcase as (H & _); eauto.
  - exists rot. destruct Hinv as (Hrepr & Hblk & Hwf).
    unfold hist_tick, relay_inv. cbn [pool hist set_hist].
    split; [assumption|]. split; [assumption|].
    apply refresh_hist_ids. assumption.
  - unfold on_adv_report.
    destruct (vf_check_source u); [eauto|].
    destruct (vf_check_destination u).
    + unfold vf_process_adv_command3.
      destruct (_ =? 0xFFFF); [|eauto].
      exists rot. destruct Hinv as (Hrepr & Hblk & Hwf).
      unfold relay_inv. cbn [pool hist set_hist vf_app_adv_data_send_to_phone].
      split; [assumption|]. split; [assumption|].
      apply add_in_hist. assumption.
    + destruct (_ =? 0xFFFF); [|eauto].
      apply (add_packet_inv u st rot Hinv Hok).
  - unfold vf_adv_thingy_data.
    apply (add_packet_inv _ _ rot); [exact Hinv|].
    destruct (thingy_idata_size c d st) as [E|E]; rewrite E; lia.
  - unfold vf_start_broadcast_data.
    apply (add_packet_inv _ _ rot); [exact Hinv | cbn; lia].
Qed.

Lemma node_run_inv evs st rot :
  relay_inv st rot -> Forall node_event_ok evs ->
  exists rot', relay_inv (node_run evs st) rot'.
Proof.
  revert st rot. induction evs as [|e evs IH]; intros st rot Hinv Hok.
  - eauto.
  - apply Forall_cons in Hok as [He Hok].
    destruct (node_step_inv e st rot Hinv He) as (rot1 & Hinv1).
    apply (IH _ rot1 Hinv1 Hok).
Qed.

Lemma node_reachable_inv evs :
  Forall node_event_ok evs ->
  exists rot, relay_inv (node_run evs state_init) rot.
Proof. apply node_run_inv with (rot := []). apply state_init_inv. Qed.

Lemma pool_repr_chain pl rot :
  pool_repr pl rot ->
  exists ch, chain_ok pl ch /\ length ch = length rot /\
             (forall a, In a ch <-> In a rot).
Proof.
  destruct rot as [|c r]; cbn [pool_repr].
  - intros H. exists []. split; [exact H|]. split; [reflexivity | tauto].
  - intros (l1 & l2 & -> & Hch & _). exists (l1 ++ c :: l2).
    split; [exact Hch|]. split.
    + rewrite !length_app. cbn [length]. rewrite length_app. lia.
    + intros a. rewrite !in_app_iff. cbn [In]. rewrite in_app_iff. tauto.
Qed.

(** X6. In every state the node reaches from boot (by scheduler ticks,
    history ticks, local events, the start-broadcast record and received
    payloads of at most 27 bytes, in any order) the pool is in order: the
    size field is the number of blocks marked used and is at most 16, every
    used block holds a record and has 1 or 2 advertisements left, the cursor
    is at a used block whenever the pool is not empty, and the history ring
    is well formed. *)
Theorem node_pool_invariant (evs : list node_event) :
  Forall node_event_ok evs ->
  let st := node_run evs state_init in
  let buf := garr_userdata (pool st) in
  length buf = 512%nat /\
  g_userdata_size (pool st) = used_count buf /\
  0 <= g_userdata_size (pool st) <= 16 /\
  (forall a, 0 <= a < 16 -> block_used buf a = true ->
     1 <= rd 0 buf (blk a 3) <= 2 /\ rd 0 buf (blk a 4) <> 0) /\
  (0 < g_userdata_size (pool st) ->
   0 <= g_userdata_currpos (pool st) < 16 /\
   block_used buf (g_userdata_currpos (pool st)) = true) /\
  hist_wf (hist st).
Proof.
  intros Hok. cbv zeta.
  destruct (node_reachable_inv evs Hok) as (rot & Hinv).
  pose proof (relay_inv_length _ _ Hinv) as Hlen.
  destruct Hinv as (Hrepr & Hblk & Hwf).
  set (st := node_run evs state_init) in *.
  destruct (pool_repr_chain _ _ Hrepr) as (ch & Hch & Hl & Hin).
  pose proof (pool_repr_size _ _ Hrepr) as Hsz.
  destruct (pool_repr_NoDup _ _ Hrepr) as [Hnd Hrange].
  split; [apply Hch|].
  split; [rewrite (used_count_chain _ _ Hch), Hsz; lia|].
  split; [lia|].
  split.
  { intros a Ha Hu. apply (pool_repr_used_iff _ _ a Hrepr Ha) in Hu.
    destruct (Hblk a Hu) as [H4 H3]. split; assumption. }
  split; [|exact Hwf].
  intros Hpos. destruct rot as [|c r]; [cbn in Hsz; lia|].
  pose proof Hrepr as (l1 & l2 & _ & _ & Hcur). rewrite Hcur.
  split; [apply Hrange; left; reflexivity|].
  apply (pool_repr_used (pool st) (c :: r)); [exact Hrepr | left; reflexivity].
Qed.

Lemma node_pool_invariant_witness :
  g_userdata_size
    (pool (node_run [NodeLocal AGG_NODE_LINK_CONNECTED (mk_thingy_data 1 2 0 0 0 0);
                     NodeIngest 0 (sample_payload 1 10 1); NodeTick;
                     NodeHistTick 0; NodeStartBroadcast] state_init))
  = used_count
      (garr_userdata
         (pool (node_run [NodeLocal AGG_NODE_LINK_CONNECTED (mk_thingy_data 1 2 0 0 0 0);
                          NodeIngest 0 (sample_payload 1 10 1); NodeTick;
                          NodeHistTick 0; NodeStartBroadcast] state_init))).
Proof.
  refine (proj1 (proj2 (node_pool_invariant _ _))).
  repeat constructor; cbn; lia.
Defined.

(** ** The scheduler *)

Lemma adv_positions_app l1 l2 :
  adv_positions (l1 ++ l2) = adv_positions l1 ++ adv_positions l2.
Proof. unfold adv_positions. apply flat_map_app. Qed.

Lemma delete_aside cond st :
  phone_log (vf_delete_block_buffer3 cond st) = phone_log st /\
  g_packetID (vf_delete_block_buffer3 cond st) = g_packetID st.
Proof.
  unfold vf_delete_block_buffer3.
  destruct (_ =? 0); [split; reflexivity|]. destruct cond; split; reflexivity.
Qed.

Lemma transmit_aside st :
  phone_log (relay_transmit st) = phone_log st /\
  g_packetID (relay_transmit st) = g_packetID st.
Proof.
  unfold relay_transmit. destruct (_ =? 0).
  - match goal with
    | |- context [vf_delete_block_buffer3 true ?s] =>
        destruct (delete_aside true s) as [-> ->]
    end.
    split; reflexivity.
  - split; reflexivity.
Qed.

Lemma relay_loop_bounded fuel st :
  (Z.to_nat (g_userdata_size (pool st)) < fuel)%nat ->
  exists st' l,
    relay_loop fuel st = Some st' /\
    adv_log st' = adv_log st ++ l /\
    (length (adv_positions l) <= 1)%nat /\
    phone_log st' = phone_log st /\
    g_packetID st' = g_packetID st.
Proof.
  revert st. induction fuel as [|fuel IH]; intros st Hf; [lia|].
  cbn [relay_loop].
  destruct (Z.ltb_spec 0 (g_userdata_size (pool st))) as [Hpos|].
  2:{ exists st, []. rewrite app_nil_r. cbn. auto. }
  destruct (_ =? 0).
  - pose proof (delete_size false st Hpos) as Hd.
    pose proof (delete_adv_log false st) as Hlog.
    destruct (delete_aside false st) as [Hph Hid].
    set (st1 := vf_delete_block_buffer3 false st) in *.
    destruct (Z.eqb_spec (g_userdata_size (pool st1)) 0) as [E0|Hne].
    + destruct (IH (vf_stop_broadcast_data st1)) as (st' & l & E & Hl & Hn & Hp & Hg).
      { unfold vf_stop_broadcast_data. cbn [pool]. lia. }
      exists st', (AdvStop :: l). split; [exact E|].
      unfold vf_stop_broadcast_data in Hl, Hp, Hg.
      cbn [adv_log phone_log g_packetID] in Hl, Hp, Hg.
      split; [rewrite Hl, Hlog, <- app_assoc; reflexivity|].
      split; [exact Hn|]. split; congruence.
    + destruct (IH st1) as (st' & l & E & Hl & Hn & Hp & Hg); [lia|].
      exists st', l. split; [exact E|].
      split; [congruence|]. split; [exact Hn|]. split; congruence.
  - destruct (transmit_adv_log_pos st) as (bytes & Hlog).
    destruct (transmit_aside st) as [Hp Hg].
    exists (relay_transmit st), [AdvRelay (g_userdata_currpos (pool st)) bytes].
    split; [reflexivity|]. split; [exact Hlog|]. split; [cbn; lia|].
    split; assumption.
Qed.

Lemma tick_aside st :
  phone_log (tick st) = phone_log st /\ g_packetID (tick st) = g_packetID st.
Proof.
  destruct (relay_loop_bounded (S (Z.to_nat (g_userdata_size (pool st)))) st)
    as (st' & l & E & _ & _ & Hp & Hg); [lia|].
  unfold tick, vf_relay_adv_data3. rewrite E. split; assumption.
Qed.

(** X7. In every state the node reaches from boot a scheduler tick ends.
    It hands exactly one record to the advertiser, the one at the cursor,
    when the pool holds a record, and none when the pool is empty; it
    delivers nothing to the phone and takes no packet id. *)
Theorem scheduler_tick_bounded (evs : list node_event) :
  Forall node_event_ok evs ->
  let st := node_run evs state_init in
  exists st' l,
    vf_relay_adv_data3 st = Some st' /\
    adv_log st' = adv_log st ++ l /\
    adv_positions l
    = (if g_userdata_size (pool st) =? 0 then []
       else [g_userdata_currpos (pool st)]) /\
    phone_log st' = phone_log st /\
    g_packetID st' = g_packetID st.
Proof.
  intros Hok. cbv zeta.
  destruct (node_reachable_inv evs Hok) as (rot & Hinv).
  set (st := node_run evs state_init) in *.
  pose proof (pool_repr_size _ _ (proj1 Hinv)) as Hsz.
  destruct (relay_loop_bounded (S (Z.to_nat (g_userdata_size (pool st)))) st)
    as (st' & l & E & Hl & _ & Hp & Hg); [lia|].
  fold (vf_relay_adv_data3 st) in E.
  exists st', l. split; [exact E|]. split; [exact Hl|].
  split; [|split; assumption].
  destruct rot as [|c r].
  - cbn [length] in Hsz. rewrite Hsz. cbn [Z.of_nat Z.eqb].
    unfold vf_relay_adv_data3 in E. rewrite Hsz in E. cbn in E.
    rewrite Hsz in E. cbn in E. injection E as <-.
    rewrite <- (app_nil_r (adv_log st)) in Hl at 1.
    apply app_inv_head in Hl. subst l. reflexivity.
  - destruct (inv_tick st c r Hinv) as (st2 & bytes & E2 & Hl2 & _).
    rewrite E in E2. injection E2 as <-.
    rewrite Hl in Hl2. apply app_inv_head in Hl2. subst l.
    destruct (proj1 Hinv) as (l1 & l2 & _ & _ & Hcur).
    destruct (Z.eqb_spec (g_userdata_size (pool st)) 0) as [E0|_].
    + rewrite Hsz in E0. cbn [length] in E0. lia.
    + cbn. rewrite Hcur. reflexivity.
Qed.

Lemma scheduler_tick_bounded_witness :
  exists st' l,
    vf_relay_adv_data3
      (node_run [NodeIngest 0 (sample_payload 1 10 1);
                 NodeIngest 0 (sample_payload 1 10 2); NodeTick] state_init)
    = Some st' /\
    adv_positions l = [1].
Proof.
  destruct (scheduler_tick_bounded
              [NodeIngest 0 (sample_payload 1 10 1);
               NodeIngest 0 (sample_payload 1 10 2); NodeTick])
    as (st' & l & E & _ & Hl & _).
  - repeat constructor; cbn; lia.
  - exists st', l. split; [exact E | exact Hl].
Defined.

Lemma ticks_round pre : forall st post,
  relay_inv st (pre ++ post) ->
  exists st' rot',
    ticks (length pre) st = Some st' /\
    adv_positions (adv_log st') = adv_positions (adv_log st) ++ pre /\
    relay_inv st' (post ++ rot').
Proof.
  induction pre as [|c pre IH]; intros st post Hinv.
  - exists st, []. rewrite !app_nil_r. cbn [ticks length]. auto.
  - cbn [app] in Hinv.
    destruct (inv_tick st c (pre ++ post) Hinv)
      as (st1 & bytes & E & Hlog & _ & Hcase).
    cbn [ticks length]. rewrite E.
    assert (Hpos : adv_positions (adv_log st1)
                   = adv_positions (adv_log st) ++ [c]).
    { rewrite Hlog, adv_positions_app. reflexivity. }
    destruct (_ =? 1).
    + destruct Hcase as (Hinv1 & _).
      destruct (IH st1 post Hinv1) as (st' & rot' & Et & Hp & Hi).
      exists st', rot'. split; [exact Et|].
      split; [rewrite Hp, Hpos, <- app_assoc; reflexivity | exact Hi].
    + destruct Hcase as (Hinv1 & _). rewrite <- app_assoc in Hinv1.
      destruct (IH st1 (post ++ [c]) Hinv1) as (st' & rot' & Et & Hp & Hi).
      exists st', (c :: rot'). split; [exact Et|].
      split; [rewrite Hp, Hpos, <- app_assoc; reflexivity|].
      rewrite <- app_assoc in Hi. exact Hi.
Qed.

(** X8. Round robin.  In every state the node reaches from boot, the used
    blocks can be listed once each, starting at the cursor, so that as many
    ticks as the pool has records hand exactly these blocks to the
    advertiser, in this order: every record is advertised once before any is
    advertised again. *)
Theorem scheduler_round_robin (evs : list node_event) :
  Forall node_event_ok evs ->
  let st := node_run evs state_init in
  exists rot st',
    List.NoDup rot /\
    (forall a, 0 <= a < 16 ->
       (In a rot <-> block_used (garr_userdata (pool st)) a = true)) /\
    Z.of_nat (length rot) = g_userdata_size (pool st) /\
    List.hd (g_userdata_currpos (pool st)) rot = g_userdata_currpos (pool st) /\
    ticks (length rot) st = Some st' /\
    adv_positions (adv_log st') = adv_positions (adv_log st) ++ rot.
Proof.
  intros Hok. cbv zeta.
  destruct (node_reachable_inv evs Hok) as (rot & Hinv).
  set (st := node_run evs state_init) in *.
  pose proof Hinv as (Hrepr & _).
  destruct (pool_repr_NoDup _ _ Hrepr) as [Hnd Hrange].
  pose proof Hinv as Hinv0. rewrite <- (app_nil_r rot) in Hinv0.
  destruct (ticks_round rot st [] Hinv0) as (st' & rot' & Et & Hp & _).
  exists rot, st'.
  split; [exact Hnd|].
  split; [intros a Ha; symmetry; apply pool_repr_used_iff; assumption|].
  split; [symmetry; apply pool_repr_size; exact Hrepr|].
  split; [|split; assumption].
  destruct rot as [|c r]; [reflexivity|].
  destruct Hrepr as (l1 & l2 & _ & _ & Hcur). cbn [List.hd]. congruence.
Qed.

Lemma scheduler_round_robin_witness :
  exists rot st',
    ticks (length rot)
      (node_run [NodeIngest 0 (sample_payload 1 10 1);
                 NodeIngest 0 (sample_payload 1 10 2); NodeTick] state_init)
    = Some st' /\
    adv_positions (adv_log st') = [0] ++ rot.
Proof.
  destruct (scheduler_round_robin
              [NodeIngest 0 (sample_payload 1 10 1);
               NodeIngest 0 (sample_payload 1 10 2); NodeTick])
    as (rot & st' & _ & _ & _ & _ & Et & Hp).
  - repeat constructor; cbn; lia.
  - exists rot, st'. split; [exact Et | exact Hp].
Defined.

(** X9. A full pool takes nothing.  When the node has reached a state with
    16 records in the pool, [vf_add_packet_to_buffer3] answers 1 and changes
    nothing; a received payload that is not addressed to this node leaves the
    whole state as it is; a local event is lost as well, but it still takes a
    packet id. *)
Theorem pool_full_drops (evs : list node_event) :
  Forall node_event_ok evs ->
  let st := node_run evs state_init in
  g_userdata_size (pool st) = 16 ->
  (forall br, vf_add_packet_to_buffer3 br st = (1, st)) /\
  (forall i_uninit u, vf_check_destination u = false ->
     on_adv_report i_uninit u st = st) /\
  (forall c d,
     vf_adv_thingy_data c d st
     = mk_state (pool st) (hist st) (u8 (g_packetID st + 1)) (relay_data st)
                (adv_log st) (phone_log st)).
Proof.
  intros Hok. cbv zeta. intros Hfull.
  destruct (node_reachable_inv evs Hok) as (rot & Hinv).
  set (st := node_run evs state_init) in *.
  assert (Hlen : (16 <= length rot)%nat).
  { pose proof (pool_repr_size _ _ (proj1 Hinv)). lia. }
  split; [|split].
  - intros br. apply (add_full br st rot Hinv Hlen).
  - intros i u Hd. unfold on_adv_report. rewrite Hd.
    destruct (vf_check_source u); [reflexivity|].
    destruct (_ =? 0xFFFF); [|reflexivity].
    rewrite (add_full u st rot Hinv Hlen). reflexivity.
  - intros c d. unfold vf_adv_thingy_data.
    rewrite (add_full _ _ rot); [reflexivity | exact Hinv | exact Hlen].
Qed.

Lemma pool_full_drops_witness :
  vf_add_packet_to_buffer3 (sample_payload 1 10 1)
    (node_run (repeat NodeStartBroadcast 16) state_init)
  = (1, node_run (repeat NodeStartBroadcast 16) state_init).
Proof.
  refine (proj1 (pool_full_drops (repeat NodeStartBroadcast 16) _ _) _).
  - repeat constructor.
  - reflexivity.
Defined.

(** ** The classifier *)

Lemma validate_history_hit i_uninit u st :
  hist_wf (hist st) -> In (data_ids u) (hist_ids (hist st)) ->
  vf_validate_relay_packet3 i_uninit u st = u16 (i_uninit + 8000).
Proof.
  intros Hwf Hin. unfold vf_validate_relay_packet3.
  apply (find_spec _ _ Hwf) in Hin.
  destruct (Z.eqb_spec (vf_find_id_buff_adv_hist3 (data_ids u) (hist st)) 0xFFFF);
    [contradiction | reflexivity].
Qed.

(** X10. Deliver once.  A payload addressed to this node from another one is
    handed to the phone and its identity goes to the history; it never enters
    the pool or the advertiser.  Received again straight away it changes
    nothing, provided the value that the never-assigned [i] holds at the
    second reception does not make [i + 8000] equal to 0xFFFF. *)
Theorem deliver_once (i1 i2 : Z) (u : uint8_array_t) (st : state) :
  hist_wf (hist st) ->
  vf_check_source u = false -> vf_check_destination u = true ->
  u16 (i2 + 8000) <> 0xFFFF ->
  let st1 := on_adv_report i1 u st in
  pool st1 = pool st /\ adv_log st1 = adv_log st /\
  (vf_validate_relay_packet3 i1 u st = 0xFFFF ->
   phone_log st1 = phone_log st ++ [array_bytes u] /\
   In (data_ids u) (hist_ids (hist st1))) /\
  (vf_validate_relay_packet3 i1 u st <> 0xFFFF -> st1 = st) /\
  on_adv_report i2 u st1 = st1.
Proof.
  intros Hwf Hs Hd Hi2. cbv zeta.
  unfold on_adv_report. rewrite Hs, Hd. unfold vf_process_adv_command3.
  destruct (Z.eqb_spec (vf_validate_relay_packet3 i1 u st) 0xFFFF) as [Ev|Ev].
  - destruct (add_in_hist (data_ids u) (hist st) Hwf) as [Hwf1 Hin1].
    set (st1 := set_hist _ _).
    assert (Hh : hist st1 = snd (vf_add_buff_adv_hist3 (data_ids u) (hist st)))
      by reflexivity.
    split; [reflexivity|]. split; [reflexivity|].
    split; [intros _; split; [reflexivity | rewrite Hh; exact Hin1]|].
    split; [contradiction|].
    rewrite (validate_history_hit i2 u st1) by (rewrite Hh; assumption).
    destruct (Z.eqb_spec (u16 (i2 + 8000)) 0xFFFF); [contradiction | reflexivity].
  - split; [reflexivity|]. split; [reflexivity|].
    split; [contradiction|]. split; [reflexivity|].
    (* not new at the first reception: a hit that does not depend on [i],
       or a history hit *)
    revert Ev. unfold vf_validate_relay_packet3.
    destruct (Z.eqb_spec (vf_find_id_buff_adv_hist3 (data_ids u) (hist st)) 0xFFFF)
      as [Ef|Ef]; cbn [negb].
    + intros Ev. apply Z.eqb_neq in Ev. rewrite Ev. reflexivity.
    + intros _.
      destruct (Z.eqb_spec (u16 (i2 + 8000)) 0xFFFF); [contradiction | reflexivity].
Qed.

Lemma deliver_once_witness :
  on_adv_report 0 (mk_uint8_array 6 [1; 5; 1; 0; 7; 8])
    (on_adv_report 0 (mk_uint8_array 6 [1; 5; 1; 0; 7; 8]) state_init)
  = on_adv_report 0 (mk_uint8_array 6 [1; 5; 1; 0; 7; 8]) state_init.
Proof.
  refine (proj2 (proj2 (proj2 (proj2
            (deliver_once 0 0 (mk_uint8_array 6 [1; 5; 1; 0; 7; 8]) state_init
               hist_init_wf _ _ _))))).
  - reflexivity.
  - reflexivity.
  - vm_compute. discriminate.
Defined.

(** X11. The duplicates the classifier does recognise.  A received payload
    whose identity is live in the history, or is that of the first block of
    the pool, changes nothing, provided [i + 8000] is not 0xFFFF for the
    value the never-assigned [i] holds. *)
Theorem known_duplicate_dropped (i_uninit : Z) (u : uint8_array_t) (st : state) :
  hist_wf (hist st) ->
  u16 (i_uninit + 8000) <> 0xFFFF ->
  In (data_ids u) (hist_ids (hist st)) \/
  (0 < g_userdata_size (pool st) /\
   g_userdata_firstpos (pool st) <> 0xFFFF /\
   block_ids (garr_userdata (pool st)) (g_userdata_firstpos (pool st))
   = data_ids u) ->
  vf_validate_relay_packet3 i_uninit u st <> 0xFFFF /\
  on_adv_report i_uninit u st = st.
Proof.
  intros Hwf Hi Hdup.
  assert (Hv : vf_validate_relay_packet3 i_uninit u st <> 0xFFFF).
  { destruct (in_dec Z.eq_dec (data_ids u) (hist_ids (hist st))) as [Hin|Hni].
    - rewrite validate_history_hit by assumption. exact Hi.
    - destruct Hdup as [Hin|(Hpos & Hf & Hid)]; [contradiction|].
      unfold vf_validate_relay_packet3.
      pose proof (find_spec (data_ids u) (hist st) Hwf) as Hs.
      destruct (Z.eqb_spec (vf_find_id_buff_adv_hist3 (data_ids u) (hist st))
                           0xFFFF) as [_|Hne]; [|exfalso; apply Hni, Hs, Hne].
      cbn [negb].
      destruct (Z.eqb_spec (g_userdata_size (pool st)) 0); [lia|].
      rewrite Hid, Z.eqb_refl. exact Hf. }
  split; [exact Hv|].
  unfold on_adv_report, vf_process_adv_command3.
  destruct (vf_check_source u); [reflexivity|].
  destruct (Z.eqb_spec (vf_validate_relay_packet3 i_uninit u st) 0xFFFF);
    [contradiction|].
  destruct (vf_check_destination u); reflexivity.
Qed.

Lemma known_duplicate_dropped_witness :
  on_adv_report 0 (sample_payload 1 10 1)
    (on_adv_report 0 (sample_payload 1 10 1) state_init)
  = on_adv_report 0 (sample_payload 1 10 1) state_init.
Proof.
  refine (proj2 (known_duplicate_dropped 0 (sample_payload 1 10 1)
                   (on_adv_report 0 (sample_payload 1 10 1) state_init) _ _ _)).
  - exact hist_init_wf.
  - vm_compute. discriminate.
  - right. vm_compute. repeat split; discriminate.
Defined.

(** ** Parsing advertising reports *)

Lemma u32_small x : 0 <= x < 4294967296 -> u32 x = x.
Proof. intros H. unfold u32. apply Z.mod_small. lia. Qed.

Lemma adv_report_scan_total fuel type adv index :
  0 <= index -> size adv <= 65535 ->
  (Z.to_nat (size adv - index) <= fuel)%nat ->
  exists r, adv_report_scan fuel type adv index = Some r.
Proof.
  revert index. induction fuel as [|fuel IH]; intros index Hi Hs Hf;
    cbn [adv_report_scan];
    destruct (Z.ltb_spec index (size adv)) as [Hlt|Hge]; eauto; [lia|].
  destruct (_ =? type); [eauto|].
  assert (Hb : 0 <= u8 (rd 0 (p_data adv) index) < 256)
    by (unfold u8; apply Z.mod_pos_bound; lia).
  rewrite u32_small by lia. apply IH; lia.
Qed.

(** X12. [adv_report_parse] ends on every report whose size fits the 16 bits
    of the size field, whatever its bytes are: a length byte of zero still
    moves the index on by one. *)
Theorem adv_report_parse_total (type : Z) (adv : uint8_array_t) :
  size adv <= 65535 ->
  exists r, adv_report_parse type adv = Some r.
Proof.
  intros Hs. apply adv_report_scan_total; lia.
Qed.

Lemma adv_report_parse_total_witness :
  exists r, adv_report_parse 9 (adv_report [0; 0; 0; 2; 9; 65]) = Some r.
Proof.
  apply (adv_report_parse_total 9 (adv_report [0; 0; 0; 2; 9; 65])).
  cbn. lia.
Defined.

Lemma rd_app_l {A : Type} (d : A) l1 l2 i :
  0 <= i < Z.of_nat (length l1) -> rd d (l1 ++ l2) i = rd d l1 i.
Proof.
  intros Hi. unfold rd. destruct (Z.leb_spec 0 i); [|lia].
  rewrite lookup_app_l by lia. reflexivity.
Qed.

Lemma rd_app_r {A : Type} (d : A) l1 l2 i :
  0 <= i -> rd d (l1 ++ l2) (Z.of_nat (length l1) + i) = rd d l2 i.
Proof.
  intros Hi. unfold rd.
  destruct (Z.leb_spec 0 i); [|lia].
  destruct (Z.leb_spec 0 (Z.of_nat (length l1) + i)); [|lia].
  replace (Z.to_nat (Z.of_nat (length l1) + i))
    with (length l1 + Z.to_nat i)%nat by lia.
  rewrite lookup_app_r by lia.
  replace (length l1 + Z.to_nat i - length l1)%nat with (Z.to_nat i) by lia.
  reflexivity.
Qed.

Lemma map_rd_prefix {A : Type} (d : A) (v rest : list A) :
  map (rd d (v ++ rest)) (zrange 0 (length v)) = v.
Proof.
  revert rest. induction v as [|a v IH] using rev_ind; intros rest;
    [reflexivity|].
  rewrite length_app. cbn [length].
  replace (length v + 1)%nat with (Z.to_nat (Z.of_nat (length v) + 1)) by lia.
  rewrite zrange_snoc by lia. rewrite Nat2Z.id, map_app. cbn [map].
  rewrite <- app_assoc. rewrite IH. f_equal. f_equal.
  replace (0 + Z.of_nat (length v)) with (Z.of_nat (length v) + 0) by lia.
  rewrite rd_app_r by lia. reflexivity.
Qed.

Lemma ad_field_length f : length (ad_field f) = (2 + length (snd f))%nat.
Proof. reflexivity. Qed.

Lemma adv_report_scan_fields t : forall fields pre fuel,
  ad_fields_ok fields ->
  (length (ad_encode fields) <= fuel)%nat ->
  Z.of_nat (length (pre ++ ad_encode fields)) <= 65535 ->
  match ad_lookup t fields with
  | Some v =>
      exists r,
        adv_report_scan fuel t (adv_report (pre ++ ad_encode fields))
                        (Z.of_nat (length pre)) = Some (Some r) /\
        size r = Z.of_nat (length v) /\ array_bytes r = v
  | None =>
      adv_report_scan fuel t (adv_report (pre ++ ad_encode fields))
                      (Z.of_nat (length pre)) = Some None
  end.
Proof.
  induction fields as [|f fs IH]; intros pre fuel Hok Hfuel Hsz.
  - cbn [ad_lookup ad_encode map concat]. rewrite app_nil_r.
    destruct fuel; cbn [adv_report_scan adv_report size];
      rewrite Z.ltb_irrefl; reflexivity.
  - apply Forall_cons in Hok as [[Hty Hlen] Hok].
    destruct f as [ty v]. cbn [fst snd] in *.
    unfold ad_encode in *. cbn [map concat] in *.
    fold (ad_encode fs) in *.
    unfold ad_field in *. cbn [fst snd] in *.
    rewrite !length_app in Hsz, Hfuel. cbn [length] in Hsz, Hfuel.
    rewrite ?length_app in Hsz, Hfuel.
    destruct fuel as [|fuel]; [cbn [app length] in Hfuel; lia|].
    cbn [adv_report_scan adv_report size p_data].
    destruct (Z.ltb_spec (Z.of_nat (length pre))
                (Z.of_nat (length (pre ++ (Z.of_nat (length v) + 1 :: ty :: v)
                                       ++ ad_encode fs)))) as [_|Hge].
    2:{ rewrite length_app in Hge. cbn [app length] in Hge. lia. }
    assert (E0 : rd 0 (pre ++ (Z.of_nat (length v) + 1 :: ty :: v) ++ ad_encode fs)
                    (Z.of_nat (length pre)) = Z.of_nat (length v) + 1).
    { replace (Z.of_nat (length pre)) with (Z.of_nat (length pre) + 0) by lia.
      rewrite rd_app_r by lia. reflexivity. }
    assert (E1 : rd 0 (pre ++ (Z.of_nat (length v) + 1 :: ty :: v) ++ ad_encode fs)
                    (Z.of_nat (length pre) + 1) = ty).
    { rewrite rd_app_r by lia. reflexivity. }
    rewrite E0, E1. rewrite !u8_small by lia.
    cbn [ad_lookup fst snd].
    destruct (Z.eqb_spec ty t) as [->|Hne].
    + eexists. split; [reflexivity|]. cbn [size p_data].
      replace (Z.of_nat (length v) + 1 - 1) with (Z.of_nat (length v)) by lia.
      rewrite u16_small by lia. split; [reflexivity|].
      unfold array_bytes. cbn [size p_data]. rewrite Nat2Z.id.
      replace (Z.to_nat (Z.of_nat (length pre) + 2)) with (length pre + 2)%nat
        by lia.
      rewrite <- drop_drop.
      rewrite drop_app_length. cbn [app drop].
      apply map_rd_prefix.
    + rewrite u32_small by lia.
      specialize (IH (pre ++ (Z.of_nat (length v) + 1 :: ty :: v)) fuel Hok).
      rewrite <- !app_assoc in IH. cbn [app] in IH.
      rewrite !length_app in IH. cbn [length] in IH.
      rewrite ?length_app in IH. cbn [app length] in *.
      replace (Z.of_nat (length pre) + (Z.of_nat (length v) + 1 + 1))
        with (Z.of_nat (length pre + S (S (length v)))) by lia.
      rewrite ?length_app in Hsz. apply IH; lia.
Qed.

Lemma adv_report_parse_encoded_aux (t : Z) (fields : list (Z * list Z)) :
  ad_fields_ok fields ->
  Z.of_nat (length (ad_encode fields)) <= 65535 ->
  match ad_lookup t fields with
  | Some v =>
      exists r,
        adv_report_parse t (adv_report (ad_encode fields)) = Some (Some r) /\
        size r = Z.of_nat (length v) /\ array_bytes r = v
  | None => adv_report_parse t (adv_report (ad_encode fields)) = Some None
  end.
Proof.
  intros Hok Hsz.
  pose proof (adv_report_scan_fields t fields []
                (Z.to_nat (size (adv_report (ad_encode fields)))) Hok) as H.
  cbn [app length adv_report size] in H. rewrite Nat2Z.id in H.
  specialize (H ltac:(lia) Hsz).
  unfold adv_report_parse. cbn [adv_report size]. rewrite Nat2Z.id.
  exact H.
Qed.

(** X13. Parsing what was encoded.  For a report made of fields laid out as
    length, type, value ([ad_encode]), [adv_report_parse] answers with the
    value of the first field of the type asked for, with its exact size, and
    with NRF_ERROR_NOT_FOUND when no field has that type; the empty report is
    one such case. *)
Theorem adv_report_parse_encoded (t : Z) (fields : list (Z * list Z)) :
  ad_fields_ok fields ->
  Z.of_nat (length (ad_encode fields)) <= 65535 ->
  match ad_lookup t fields with
  | Some v =>
      exists r,
        adv_report_parse t (adv_report (ad_encode fields)) = Some (Some r) /\
        size r = Z.of_nat (length v) /\ array_bytes r = v
  | None => adv_report_parse t (adv_report (ad_encode fields)) = Some None
  end.
Proof. apply adv_report_parse_encoded_aux. Qed.

Lemma adv_report_parse_encoded_witness :
  exists r,
    adv_report_parse 0xFF
      (adv_report (ad_encode [(1, [6]); (9, [65; 66]); (0xFF, [1; 10; 7; 0])]))
    = Some (Some r) /\
    size r = 4 /\ array_bytes r = [1; 10; 7; 0].
Proof.
  refine (adv_report_parse_encoded 0xFF
            [(1, [6]); (9, [65; 66]); (0xFF, [1; 10; 7; 0])] _ _).
  - repeat constructor; cbn; lia.
  - cbn. lia.
Defined.

(** X22. The length byte is taken on trust.  When the first field of a
    report has the type asked for, [adv_report_parse] answers with the length
    byte less one as the size, as a 16-bit value, without a look at the size
    of the report: a length byte of 0 gives a size of 65535, and a length
    byte larger than the rest of the report gives a size that reaches past
    its end. *)
Theorem adv_report_parse_trusts_length (t len : Z) (rest : list Z) :
  0 <= t < 256 -> 0 <= len < 256 ->
  exists r,
    adv_report_parse t (adv_report (len :: t :: rest)) = Some (Some r) /\
    p_data r = rest /\
    size r = (if len =? 0 then 65535 else len - 1) /\
    (Z.of_nat (length rest) < len - 1 ->
     Z.of_nat (length (p_data r)) < size r).
Proof.
  intros Ht Hlen. unfold adv_report_parse, adv_report.
  cbn [size p_data length].
  replace (Z.to_nat (Z.of_nat (S (S (length rest)))))
    with (S (S (length rest))) by lia.
  cbn [adv_report_scan size p_data].
  destruct (Z.ltb_spec 0 (Z.of_nat (S (S (length rest))))); [|lia].
  change (rd 0 (len :: t :: rest) 0) with len.
  change (rd 0 (len :: t :: rest) (0 + 1)) with t.
  rewrite !u8_small by lia. rewrite Z.eqb_refl.
  eexists. split; [reflexivity|]. cbn [size p_data].
  split; [reflexivity|].
  destruct (Z.eqb_spec len 0) as [->|Hne].
  - split; [reflexivity | lia].
  - rewrite u16_small by lia. split; [reflexivity | auto].
Qed.

Lemma adv_report_parse_trusts_length_witness :
  exists r,
    adv_report_parse 0xFF (adv_report [0; 0xFF; 1; 2]) = Some (Some r) /\
    size r = 65535.
Proof.
  destruct (adv_report_parse_trusts_length 0xFF 0 [1; 2]) as (r & H1 & _ & H2 & _).
  - lia.
  - lia.
  - exists r. split; [exact H1 | exact H2].
Defined.

(** ** From the scheduler to a neighbour's parser *)

Lemma ad_encode_app l1 l2 : ad_encode (l1 ++ l2) = ad_encode l1 ++ ad_encode l2.
Proof. unfold ad_encode. rewrite map_app. apply concat_app. Qed.

Lemma ad_lookup_app t l1 l2 :
  ad_lookup t (l1 ++ l2)
  = match ad_lookup t l1 with Some v => Some v | None => ad_lookup t l2 end.
Proof.
  induction l1 as [|f l1 IH]; [reflexivity|].
  cbn [app ad_lookup]. destruct (fst f =? t); [reflexivity | exact IH].
Qed.

Lemma rd_cons {A : Type} (d : A) x l k :
  0 <= k -> rd d (x :: l) (k + 1) = rd d l k.
Proof.
  intros Hk. unfold rd.
  destruct (Z.leb_spec 0 (k + 1)); [|lia]. destruct (Z.leb_spec 0 k); [|lia].
  replace (Z.to_nat (k + 1)) with (S (Z.to_nat k)) by lia. reflexivity.
Qed.

Lemma rd_map_zrange {B : Type} (d : B) (f : Z -> B) n : forall a k,
  0 <= k < Z.of_nat n -> rd d (map f (zrange a n)) k = f (a + k).
Proof.
  induction n as [|n IH]; intros a k Hk; [lia|].
  cbn [zrange map]. destruct (Z.eq_dec k 0) as [->|Hne].
  - rewrite Z.add_0_r. reflexivity.
  - replace k with ((k - 1) + 1) at 1 by lia. rewrite rd_cons by lia.
    rewrite IH by lia. f_equal. lia.
Qed.

Lemma array_bytes_rd a k :
  0 <= k < size a -> rd 0 (array_bytes a) k = rd 0 (p_data a) k.
Proof.
  intros Hk. unfold array_bytes. rewrite rd_map_zrange by lia. reflexivity.
Qed.

(** X14. One hop.  Let a tick advertise the block at the cursor (a stored
    record of 4 to 27 bytes), and let the advertising packet carry any fields
    in front of it, none of them of the manufacturer type.  Then
    [adv_report_parse], asked for the manufacturer data, gives back the
    stored record, byte for byte, but for the hop count, which is one higher
    (as a byte) -- so the identity that the receiver checks for duplicates is
    the one the sender stored. *)
Theorem relay_payload_parsed (st : state) (fields : list (Z * list Z)) :
  let buf := garr_userdata (pool st) in
  let c := g_userdata_currpos (pool st) in
  let rs := rd 0 buf (blk c 4) in
  length buf = 512%nat -> length (relay_data st) = 32%nat ->
  0 < g_userdata_size (pool st) -> 0 <= c < 16 -> 5 <= rs <= 28 ->
  ad_fields_ok fields ->
  ad_lookup BLE_GAP_AD_TYPE_MANUFACTURER_SPECIFIC_DATA fields = None ->
  Z.of_nat (length (ad_encode fields)) + rs + 1 <= 65535 ->
  exists st' bytes r,
    vf_relay_adv_data3 st = Some st' /\
    adv_log st' = adv_log st ++ [AdvRelay c bytes] /\
    adv_report_parse BLE_GAP_AD_TYPE_MANUFACTURER_SPECIFIC_DATA
                     (adv_report (ad_encode fields ++ bytes)) = Some (Some r) /\
    size r = rs - 1 /\
    array_bytes r
    = rd 0 buf (blk c 5) :: rd 0 buf (blk c 6) :: rd 0 buf (blk c 7)
        :: (rd 0 buf (blk c 8) + 1) mod 256
        :: map (rd 0 buf) (zrange (blk c 9) (Z.to_nat (rs - 5))) /\
    data_ids r = block_ids buf c.
Proof.
  intros buf c rs Hlen Hrl Hpos Hc Hrs Hok Hnone Hsz.
  set (data := rd 0 buf (blk c 5) :: rd 0 buf (blk c 6) :: rd 0 buf (blk c 7)
                 :: (rd 0 buf (blk c 8) + 1) mod 256
                 :: map (rd 0 buf) (zrange (blk c 9) (Z.to_nat (rs - 5)))).
  assert (Hdl : Z.of_nat (length data) = rs - 1).
  { unfold data. cbn [length]. rewrite length_map, zrange_length. lia. }
  assert (Hbytes : relay_payload buf c
                   = ad_encode [(BLE_GAP_AD_TYPE_MANUFACTURER_SPECIFIC_DATA, data)]).
  { unfold ad_encode, ad_field, relay_payload. cbn [map concat fst snd].
    rewrite app_nil_r. fold rs. rewrite Hdl.
    replace (rs - 1 + 1) with rs by lia. reflexivity. }
  exists (relay_transmit st), (relay_payload buf c).
  pose proof (adv_report_parse_encoded_aux
                BLE_GAP_AD_TYPE_MANUFACTURER_SPECIFIC_DATA
                (fields ++ [(BLE_GAP_AD_TYPE_MANUFACTURER_SPECIFIC_DATA, data)]))
    as Hparse.
  rewrite ad_lookup_app, Hnone in Hparse. cbn [ad_lookup fst snd] in Hparse.
  rewrite Z.eqb_refl in Hparse.
  rewrite ad_encode_app, <- Hbytes in Hparse.
  destruct Hparse as (r & Er & Hsize & Harr).
  { apply Forall_app. split; [exact Hok|].
    apply Forall_cons. split; [|constructor]. cbn [fst snd].
    unfold BLE_GAP_AD_TYPE_MANUFACTURER_SPECIFIC_DATA. lia. }
  { rewrite length_app. unfold relay_payload. cbn [length].
    rewrite length_map, zrange_length. fold rs. lia. }
  exists r.
  split; [apply tick_transmit; [exact Hpos | fold buf; fold c; fold rs; lia]|].
  split; [apply transmit_adv_log; assumption|].
  split; [exact Er|]. split; [lia|]. split; [exact Harr|].
  unfold data_ids, block_ids.
  rewrite <- !(array_bytes_rd r) by lia. rewrite Harr. reflexivity.
Qed.

Lemma relay_payload_parsed_witness :
  exists st' bytes r,
    vf_relay_adv_data3
      (snd (vf_add_packet_to_buffer3 (sample_payload 1 10 1) state_init))
    = Some st' /\
    adv_report_parse BLE_GAP_AD_TYPE_MANUFACTURER_SPECIFIC_DATA
                     (adv_report (ad_encode [(1, [6])] ++ bytes)) = Some (Some r) /\
    array_bytes r = [1; 10; 1; 1; 7; 8].
Proof.
  destruct (relay_payload_parsed
              (snd (vf_add_packet_to_buffer3 (sample_payload 1 10 1) state_init))
              [(1, [6])])
    as (st' & bytes & r & H1 & _ & H3 & _ & H5 & _).
  - reflexivity.
  - reflexivity.
  - reflexivity.
  - vm_compute. split; [discriminate | reflexivity].
  - vm_compute. split; discriminate.
  - repeat constructor; cbn; lia.
  - reflexivity.
  - vm_compute. discriminate.
  - exists st', bytes, r. split; [exact H1|]. split; [exact H3 | exact H5].
Defined.

(** ** Releasing a block *)

Lemma delete_cursor_inv cond st c r :
  relay_inv st (c :: r) ->
  let st' := vf_delete_block_buffer3 cond st in
  relay_inv st' r /\
  block_used (garr_userdata (pool st')) c = false /\
  hist st' = (if cond
              then snd (vf_add_buff_adv_hist3
                          (block_ids (garr_userdata (pool st)) c) (hist st))
              else hist st).
Proof.
  intros (Hrepr & Hblk & Hwf). cbv zeta.
  pose proof (pool_repr_size _ _ Hrepr) as Hsz. cbn [length] in Hsz.
  destruct (pool_repr_NoDup _ _ Hrepr) as [Hnd Hrange].
  pose proof Hrepr as (l1 & l2 & Hr & Hch & Hcur).
  destruct (delete_chain cond st l1 c l2 Hch Hcur) as (Hch' & Hc2 & Hc1 & Hfree).
  assert (Hrepr' : pool_repr (pool (vf_delete_block_buffer3 cond st)) r)
    by (rewrite Hr; apply pool_repr_of_chain; assumption).
  assert (Hhist : hist (vf_delete_block_buffer3 cond st)
                  = (if cond
                     then snd (vf_add_buff_adv_hist3
                                 (block_ids (garr_userdata (pool st)) c) (hist st))
                     else hist st)).
  { destruct cond.
    - rewrite delete_true_hist; [rewrite Hcur; reflexivity | lia |].
      rewrite Hcur. apply Hrange. left. reflexivity.
    - apply delete_false_hist. }
  split; [|split; assumption].
  split; [exact Hrepr'|]. split.
  - intros a Ha. assert (Ha' : In a (c :: r)) by (right; exact Ha).
    specialize (Hrange a Ha').
    rewrite !delete_frame by (unfold blk, MAX_USERDATA_BUFFER_BLOCKSIZE; mod_lia).
    apply Hblk. exact Ha'.
  - rewrite Hhist. destruct cond; [apply add_in_hist|]; assumption.
Qed.

(** X18. Releasing the block at the cursor.  In every state the node reaches
    from boot with a record in the pool, [vf_delete_block_buffer3] frees
    exactly the block at the cursor and no other, lowers the size by one,
    writes none of the bytes 3 to 31 of any block, and leaves the cursor at a
    used block if one is left.  With [cond] set the identity of the block goes
    to the history, otherwise the history is left alone. *)
Theorem delete_block_releases (cond : bool) (evs : list node_event) :
  Forall node_event_ok evs ->
  let st := node_run evs state_init in
  let st' := vf_delete_block_buffer3 cond st in
  let buf := garr_userdata (pool st) in
  let buf' := garr_userdata (pool st') in
  let c := g_userdata_currpos (pool st) in
  0 < g_userdata_size (pool st) ->
  block_used buf c = true /\ block_used buf' c = false /\
  (forall a, 0 <= a < 16 -> a <> c -> block_used buf' a = block_used buf a) /\
  g_userdata_size (pool st') = g_userdata_size (pool st) - 1 /\
  (forall a k, 0 <= a < 16 -> 3 <= k < 32 ->
     rd 0 buf' (blk a k) = rd 0 buf (blk a k)) /\
  (0 < g_userdata_size (pool st') ->
   block_used buf' (g_userdata_currpos (pool st')) = true) /\
  hist st' = (if cond then snd (vf_add_buff_adv_hist3 (block_ids buf c) (hist st))
              else hist st) /\
  adv_log st' = adv_log st.
Proof.
  intros Hok. cbv zeta. intros Hpos.
  destruct (node_reachable_inv evs Hok) as (rot & Hinv).
  set (st := node_run evs state_init) in *.
  pose proof (pool_repr_size _ _ (proj1 Hinv)) as Hsz.
  destruct rot as [|c r]; [cbn in Hsz; lia|].
  assert (Hcur : g_userdata_currpos (pool st) = c).
  { destruct Hinv as ((l1 & l2 & _ & _ & Hcur) & _). exact Hcur. }
  rewrite Hcur.
  destruct (delete_cursor_inv cond st c r Hinv) as (Hinv' & Hfree & Hhist).
  destruct (pool_repr_NoDup _ _ (proj1 Hinv)) as [Hnd Hrange].
  pose proof (pool_repr_size _ _ (proj1 Hinv')) as Hsz'.
  split; [apply (pool_repr_used _ (c :: r)); [apply Hinv | left; reflexivity]|].
  split; [exact Hfree|]. split; [|split; [|split; [|split; [|split]]]].
  - intros a Ha Hne.
    pose proof (pool_repr_used_iff _ _ a (proj1 Hinv) Ha) as H1.
    pose proof (pool_repr_used_iff _ _ a (proj1 Hinv') Ha) as H2.
    cbn [In] in H1.
    destruct (block_used (garr_userdata (pool (vf_delete_block_buffer3 cond st))) a),
             (block_used (garr_userdata (pool st)) a); try reflexivity.
    + exfalso. assert (In a r) by (apply H2; reflexivity).
      assert (c = a \/ In a r) as Hx by (right; assumption).
      apply H1 in Hx. discriminate.
    + exfalso. destruct (proj1 H1 eq_refl) as [E|Hin]; [congruence|].
      apply H2 in Hin. discriminate.
  - rewrite Hsz, Hsz'. cbn [length]. lia.
  - intros a k Ha Hk. apply delete_frame.
    unfold blk, MAX_USERDATA_BUFFER_BLOCKSIZE. mod_lia.
  - intros Hpos'. destruct r as [|c' r']; [cbn in Hsz'; lia|].
    assert (Hcur' : g_userdata_currpos (pool (vf_delete_block_buffer3 cond st)) = c').
    { destruct Hinv' as ((l1 & l2 & _ & _ & H) & _). exact H. }
    rewrite Hcur'. apply (pool_repr_used _ (c' :: r')); [apply Hinv' | left; reflexivity].
  - exact Hhist.
  - apply delete_adv_log.
Qed.

Lemma delete_block_releases_witness :
  g_userdata_size
    (pool (vf_delete_block_buffer3 true
             (node_run [NodeIngest 0 (sample_payload 1 10 1);
                        NodeIngest 0 (sample_payload 1 10 2)] state_init)))
  = g_userdata_size
      (pool (node_run [NodeIngest 0 (sample_payload 1 10 1);
                       NodeIngest 0 (sample_payload 1 10 2)] state_init)) - 1.
Proof.
  refine (proj1 (proj2 (proj2 (proj2
            (delete_block_releases true
               [NodeIngest 0 (sample_payload 1 10 1);
                NodeIngest 0 (sample_payload 1 10 2)] _ _))))).
  - repeat constructor; cbn; lia.
  - reflexivity.
Defined.

(** ** The history tick, whatever [j] holds *)

(** X19. Whatever the never-assigned [j] holds, a history tick on a
    well-formed ring leaves a well-formed ring and brings in no identity:
    every identity found afterwards was found before. *)
Theorem hist_tick_no_new_identity (j_uninit : Z) (s : hist_state) :
  hist_wf s ->
  let s' := vf_refresh_history_buff_callback j_uninit s in
  hist_wf s' /\
  (forall id, vf_find_id_buff_adv_hist3 id s' <> 0xFFFF ->
              vf_find_id_buff_adv_hist3 id s <> 0xFFFF).
Proof.
  intros Hwf. cbv zeta.
  destruct (refresh_hist_ids j_uninit s Hwf) as [Hwf' Hincl].
  split; [exact Hwf'|].
  intros id Hf. apply (find_spec id s Hwf). apply Hincl.
  apply (find_spec id _ Hwf'). exact Hf.
Qed.

Lemma hist_ticks_wf j_uninit n s :
  hist_wf s -> hist_wf (hist_ticks j_uninit n s).
Proof.
  intros Hwf. induction n as [|n IH]; [exact Hwf|].
  change (hist_wf (vf_refresh_history_buff_callback j_uninit
                     (hist_ticks j_uninit n s))).
  apply refresh_hist_ids. exact IH.
Qed.

Lemma hist_tick_no_new_identity_witness :
  hist_wf (vf_refresh_history_buff_callback 1 hist_wrapped).
Proof.
  refine (proj1 (hist_tick_no_new_identity 1 hist_wrapped _)).
  unfold hist_wrapped.
  apply hist_inserts_wf, hist_ticks_wf, hist_inserts_wf, hist_init_wf.
Defined.

(** ** Local records *)

Lemma run_thingy_aside evs st :
  hist (run_thingy evs st) = hist st /\
  adv_log (run_thingy evs st) = adv_log st /\
  phone_log (run_thingy evs st) = phone_log st.
Proof.
  revert st. induction evs as [|e evs IH]; intros st; [auto|].
  unfold run_thingy in *. cbn [fold_left].
  destruct (IH (vf_adv_thingy_data (fst e) (snd e) st)) as (H1 & H2 & H3).
  rewrite H1, H2, H3. unfold vf_adv_thingy_data, vf_add_packet_to_buffer3.
  destruct (_ <? _); [|auto]. destruct (find_free _ _ _); auto.
Qed.

(** X20. The sensor payload can be read back.  In the record a data update
    puts into the pool, the bytes 6 to 14 hold the temperature, the pressure
    and the humidity most significant byte first, and the button state: for
    values that fit their fields (16, 32, 16 and 8 bits) nothing is lost, and
    every byte of the payload is a byte.  The record is from this node, to
    the sink, with hop count 0. *)
Theorem data_update_payload (d : thingy_data_t) (st : state) :
  0 <= g_packetID st < 256 ->
  0 <= temperature d < 65536 -> 0 <= pressure d < 4294967296 ->
  0 <= humidity d < 65536 -> 0 <= button d < 256 ->
  let u := thingy_idata AGG_NODE_LINK_DATA_UPDATE d st in
  let b := rd 0 (p_data u) in
  size u = 15 /\
  b 0 = CLUSTER_ID /\ b 1 = SINK_ID /\ b 2 = g_packetID st /\ b 3 = 0 /\
  temperature d = 256 * b 6 + b 7 /\
  pressure d = 16777216 * b 8 + 65536 * b 9 + 256 * b 10 + b 11 /\
  humidity d = 256 * b 12 + b 13 /\
  button d = b 14 /\
  Forall (fun x => 0 <= x < 256) (array_bytes u).
Proof.
  intros Hid Ht Hp Hh Hb. cbv zeta.
  assert (Hab : array_bytes (thingy_idata AGG_NODE_LINK_DATA_UPDATE d st)
                = p_data (thingy_idata AGG_NODE_LINK_DATA_UPDATE d st))
    by reflexivity.
  rewrite Hab. clear Hab.
  unfold thingy_idata. cbn [size p_data app].
  unfold rd. cbn [Z.leb Z.compare].
  repeat match goal with
         | |- context [Z.to_nat ?k] =>
             let n := eval vm_compute in (Z.to_nat k) in
             change (Z.to_nat k) with n
         end.
  cbn [lookup list_lookup default id].
  change 255 with (Z.ones 8).
  rewrite !Z.land_ones, !Z.shiftr_div_pow2 by lia.
  unfold u8, CLUSTER_ID, SINK_ID.
  change (2 ^ 8) with 256. change (2 ^ 16) with 65536.
  change (2 ^ 24) with 16777216.
  assert (Hm : forall x, 0 <= x mod 256 < 256)
    by (intros x; apply Z.mod_pos_bound; lia).
  repeat split; try reflexivity;
    try (repeat constructor; try apply Hm; lia);
    try (Z.div_mod_to_equations; lia).
Qed.

Lemma data_update_payload_witness :
  300 = 256 * rd 0 (p_data (thingy_idata AGG_NODE_LINK_DATA_UPDATE
                              (mk_thingy_data 1 2 1 300 100000 70) state_init)) 6
        + rd 0 (p_data (thingy_idata AGG_NODE_LINK_DATA_UPDATE
                          (mk_thingy_data 1 2 1 300 100000 70) state_init)) 7.
Proof.
  refine (proj1 (proj2 (proj2 (proj2 (proj2 (proj2
            (data_update_payload (mk_thingy_data 1 2 1 300 100000 70) state_init
               _ _ _ _ _))))))); cbn; lia.
Defined.

(** ** The periodic sensor report *)

Lemma adv_thingy_aside c d st :
  g_packetID (vf_adv_thingy_data c d st) = u8 (g_packetID st + 1) /\
  hist (vf_adv_thingy_data c d st) = hist st /\
  adv_log (vf_adv_thingy_data c d st) = adv_log st /\
  phone_log (vf_adv_thingy_data c d st) = phone_log st.
Proof.
  unfold vf_adv_thingy_data, vf_add_packet_to_buffer3.
  destruct (_ <? _); [|auto]. destruct (find_free _ _ _); auto.
Qed.

Lemma edata_callback_cons g upd l links st :
  vf_add_edata_adv_buff_callback g upd (l :: links) st
  = vf_add_edata_adv_buff_callback g upd links
      (if tes_conn_handle l =? ThingyUis.BLE_CONN_HANDLE_INVALID then st
       else if g then st
       else vf_adv_thingy_data AGG_NODE_LINK_DATA_UPDATE
              (mk_thingy_data (u8 (tes_conn_handle l)) (u8 upd)
                              (u8 (edata_button l)) (u16 (avg_temperature l))
                              (u32 (avg_pressure l)) (u16 (avg_humidity l)))
              st).
Proof.
  unfold vf_add_edata_adv_buff_callback. cbn [fold_left].
  destruct (tes_conn_handle l =? _), g; reflexivity.
Qed.

Lemma connected_links_cons l links :
  connected_links (l :: links)
  = if tes_conn_handle l =? ThingyUis.BLE_CONN_HANDLE_INVALID
    then connected_links links else l :: connected_links links.
Proof.
  unfold connected_links. cbn [List.filter].
  destruct (tes_conn_handle l =? _); reflexivity.
Qed.

Lemma edata_callback_sink upd links st :
  vf_add_edata_adv_buff_callback true upd links st = st.
Proof.
  induction links as [|l links IH]; [reflexivity|].
  rewrite edata_callback_cons. destruct (_ =? _); exact IH.
Qed.

Lemma edata_callback_node upd links : forall st,
  0 <= g_packetID st < 256 ->
  let st' := vf_add_edata_adv_buff_callback false upd links st in
  g_packetID st'
  = (g_packetID st + Z.of_nat (length (connected_links links))) mod 256 /\
  hist st' = hist st /\ adv_log st' = adv_log st /\
  phone_log st' = phone_log st.
Proof.
  induction links as [|l links IH]; intros st Hid; cbv zeta.
  - cbn. rewrite Z.add_0_r, Z.mod_small by lia. auto.
  - rewrite edata_callback_cons, connected_links_cons.
    destruct (tes_conn_handle l =? ThingyUis.BLE_CONN_HANDLE_INVALID).
    + apply IH. exact Hid.
    + set (d := mk_thingy_data _ _ _ _ _ _).
      destruct (adv_thingy_aside AGG_NODE_LINK_DATA_UPDATE d st)
        as (Hg & Hh & Ha & Hp).
      destruct (IH (vf_adv_thingy_data AGG_NODE_LINK_DATA_UPDATE d st))
        as (Hg' & Hh' & Ha' & Hp').
      { rewrite Hg. unfold u8. apply Z.mod_pos_bound. lia. }
      rewrite Hg', Hh', Ha', Hp', Hg, Hh, Ha, Hp. cbn [length].
      split; [|auto]. unfold u8. rewrite Zplus_mod_idemp_l. f_equal. lia.
Qed.

(** ** The history tick on a ring that has wrapped *)

Lemma In_ring_from q a k :
  In q (ring_from a k) <-> exists t, 0 <= t < Z.of_nat k /\ q = (a + t) mod 128.
Proof.
  unfold ring_from, MAX_HIST_ADV_BUFF_SIZE. rewrite in_map_iff. split.
  - intros (t & <- & Ht). apply In_zrange in Ht. exists t. split; [lia | reflexivity].
  - intros (t & Ht & ->). exists t. split; [reflexivity | apply In_zrange; lia].
Qed.

Lemma ring_from_S a k :
  ring_from a (S k) = a mod 128 :: ring_from (a + 1) k.
Proof.
  unfold ring_from, MAX_HIST_ADV_BUFF_SIZE. cbn [zrange map].
  rewrite Z.add_0_r. f_equal.
  apply map_zrange_shift. intros t Ht. f_equal. lia.
Qed.

Lemma ring_from_mod a k : ring_from (a mod 128) k = ring_from a k.
Proof.
  unfold ring_from, MAX_HIST_ADV_BUFF_SIZE. apply map_ext. intros t.
  apply Zplus_mod_idemp_l.
Qed.

Lemma ring_from_app a k1 k2 :
  ring_from a (k1 + k2) = ring_from a k1 ++ ring_from (a + Z.of_nat k1) k2.
Proof.
  unfold ring_from. rewrite zrange_app, map_app. f_equal.
  apply map_zrange_shift. intros t Ht. f_equal. lia.
Qed.

Lemma ring_from_flat a k :
  0 <= a -> a + Z.of_nat k <= 128 -> ring_from a k = zrange a k.
Proof.
  intros Ha Hk. unfold ring_from, MAX_HIST_ADV_BUFF_SIZE.
  rewrite <- (map_id (zrange a k)).
  apply map_zrange_shift. intros t Ht. apply Z.mod_small. lia.
Qed.

Lemma ring_from_over a k :
  128 <= a < 256 -> a + Z.of_nat k <= 256 -> ring_from a k = zrange (a - 128) k.
Proof.
  intros Ha Hk. rewrite <- ring_from_mod.
  replace (a mod 128) with (a - 128) by mod_lia.
  apply ring_from_flat; lia.
Qed.

Lemma hist_positions_ring_from s :
  hist_wf s ->
  hist_positions s
  = ring_from (g_buff_adv_hist_firstpos s) (Z.to_nat (g_buff_adv_hist_size s)).
Proof.
  intros (_ & Hf & Hl & Hsz). unfold hist_positions, MAX_HIST_ADV_BUFF_SIZE in *.
  destruct (Z.eqb_spec (g_buff_adv_hist_size s) 0) as [E|Hne].
  - rewrite E. reflexivity.
  - destruct (Z.ltb_spec (g_buff_adv_hist_firstpos s) (g_buff_adv_hist_lastpos s)).
    + rewrite ring_from_flat by lia. f_equal. lia.
    + replace (Z.to_nat (g_buff_adv_hist_size s))
        with (Z.to_nat (128 - g_buff_adv_hist_firstpos s)
              + Z.to_nat (g_buff_adv_hist_lastpos s))%nat by lia.
      rewrite ring_from_app. f_equal.
      * apply eq_sym, ring_from_flat; lia.
      * rewrite ring_from_over by lia. f_equal. lia.
Qed.

Lemma hist_compact_wrap L n : forall h i c j,
  length h = 128%nat -> 0 <= j -> j + Z.of_nat n <= L -> L <= 128 ->
  0 <= i < 128 -> (L <= i \/ i <= j) ->
  let surv := filter (fun e => h_TTL e <> 0)
                     (map (rd hist0 h) (zrange j n)) in
  let h' := fst (fst (hist_compact true h i c j n)) in
  hist_compact true h i c j n
  = (h', (i + Z.of_nat (length surv)) mod 128,
     c + Z.of_nat n - Z.of_nat (length surv)) /\
  length h' = 128%nat /\
  map (rd hist0 h') (ring_from i (length surv)) = surv /\
  (forall q, ~ In q (ring_from i (length surv)) -> rd hist0 h' q = rd hist0 h q).
Proof.
  induction n as [|n IH]; intros h i c j Hlen Hj HL HL128 Hi Hinv; cbv zeta.
  - cbn [hist_compact zrange map fst]. rewrite filter_nil. cbn [length].
    split; [f_equal; [f_equal; mod_lia | lia]|]. auto.
  - cbn [hist_compact zrange map]. unfold MAX_HIST_ADV_BUFF_SIZE. cbn [andb].
    set (e := rd hist0 h j).
    destruct (Z.eqb_spec (h_TTL e) 0) as [E0|Hne]; cbn [negb].
    + rewrite filter_cons_False by (intros H; apply H; exact E0).
      destruct (Z.leb_spec 128 i); [lia|].
      destruct (IH h i (c + 1) (j + 1)) as (E & Hl & Hm & Hfr);
        try assumption; try lia.
      rewrite E at 1. cbn [fst].
      split; [f_equal; lia|]. auto.
    + rewrite filter_cons_True by exact Hne.
      set (i1 := if 128 <=? i + 1 then 0 else i + 1).
      assert (Ei1 : i1 = (i + 1) mod 128)
        by (unfold i1; destruct (Z.leb_spec 128 (i + 1)); mod_lia).
      destruct (IH (wr h i e) i1 c (j + 1)) as (E & Hl & Hm & Hfr);
        try lia.
      { rewrite wr_length. exact Hlen. }
      { unfold i1. destruct (Z.leb_spec 128 (i + 1)); lia. }
      { unfold i1. destruct (Z.leb_spec 128 (i + 1)); lia. }
      assert (Hmap : map (rd hist0 (wr h i e)) (zrange (j + 1) n)
                     = map (rd hist0 h) (zrange (j + 1) n)).
      { apply map_rd_wr_notin. intros Hin. apply In_zrange in Hin. lia. }
      rewrite Hmap in E, Hm, Hfr.
      set (surv := filter (fun e0 => h_TTL e0 <> 0)
                          (map (rd hist0 h) (zrange (j + 1) n))) in *.
      assert (Hsl : (length surv <= n)%nat).
      { unfold surv. etransitivity; [apply length_filter|].
        rewrite length_map, zrange_length. lia. }
      assert (Hni : ~ In i (ring_from i1 (length surv))).
      { rewrite In_ring_from. intros (t & Ht & Hq). rewrite Ei1 in Hq.
        rewrite Zplus_mod_idemp_l in Hq. mod_lia. }
      rewrite E at 1. cbn [fst length].
      split; [f_equal; [f_equal|]; [|lia]|].
      { rewrite Ei1, Zplus_mod_idemp_l. f_equal. lia. }
      split; [exact Hl|]. split.
      * rewrite ring_from_S. cbn [map].
        rewrite <- ring_from_mod, <- Ei1. rewrite Hm.
        rewrite (Z.mod_small i) by lia. f_equal.
        rewrite Hfr by exact Hni. apply rd_wr_eq. lia.
      * intros q Hq. rewrite ring_from_S in Hq.
        rewrite <- ring_from_mod, <- Ei1 in Hq.
        rewrite (Z.mod_small i) in Hq by lia.
        rewrite Hfr by (intros H; apply Hq; right; exact H).
        apply rd_wr_ne. intros ->. apply Hq. left. reflexivity.
Qed.

Lemma hist_tick_wrapped_high_live j_uninit s :
  hist_wf s ->
  g_buff_adv_hist_lastpos s <= g_buff_adv_hist_firstpos s ->
  g_buff_adv_hist_size s <> 0 ->
  (forall e, In e (hist_live s) -> 1 <= h_TTL e) ->
  (exists q, g_buff_adv_hist_firstpos s <= q < MAX_HIST_ADV_BUFF_SIZE /\
             h_TTL (rd hist0 (g_buff_adv_hist s) q) = 1) ->
  let s' := vf_refresh_history_buff_callback j_uninit s in
  hist_wf s' /\
  hist_live s' = hist_tick_spec (hist_live s) /\
  g_buff_adv_hist_firstpos s' = g_buff_adv_hist_firstpos s.
Proof.
  intros Hwf Hlf Hnz Httl (q0 & Hq0 & Hq0ttl).
  destruct Hwf as (Hlen & Hf & Hl & Hsz).
  destruct s as [h sz first last].
  cbn [g_buff_adv_hist g_buff_adv_hist_size g_buff_adv_hist_firstpos
       g_buff_adv_hist_lastpos] in *.
  unfold MAX_HIST_ADV_BUFF_SIZE in *.
  assert (Esz : sz = 128 - first + last) by lia. clear Hsz.
  set (nhi := Z.to_nat (128 - first)).
  assert (Hlive : hist_live (mk_hist_state h sz first last)
                  = map (rd hist0 h) (zrange first nhi ++ zrange 0 (Z.to_nat last))).
  { unfold hist_live, hist_positions.
    cbn [g_buff_adv_hist g_buff_adv_hist_size g_buff_adv_hist_firstpos
         g_buff_adv_hist_lastpos].
    destruct (Z.eqb_spec sz 0); [lia|].
    destruct (Z.ltb_spec first last); [lia | reflexivity]. }
  assert (Hq : forall q, first <= q < 128 \/ 0 <= q < last ->
                         1 <= h_TTL (rd hist0 h q)).
  { intros q Hq. apply Httl. rewrite Hlive. apply in_map_iff.
    exists q. split; [reflexivity|]. apply in_app_iff.
    destruct Hq; [left | right]; apply In_zrange; lia. }
  cbv zeta. unfold vf_refresh_history_buff_callback, hist_tick_spec.
  rewrite Hlive.
  cbn [g_buff_adv_hist g_buff_adv_hist_size g_buff_adv_hist_firstpos
       g_buff_adv_hist_lastpos].
  unfold MAX_HIST_ADV_BUFF_SIZE.
  destruct (Z.eqb_spec sz 0) as [|_]; [lia|].
  destruct (Z.ltb_spec first last) as [|_]; [lia|].
  fold nhi.
  set (h1 := hist_dec (hist_dec h first nhi) 0 (Z.to_nat last)).
  assert (Hlen1 : length h1 = 128%nat)
    by (unfold h1; rewrite !hist_dec_length; exact Hlen).
  assert (Hcell : forall q, first <= q < 128 \/ 0 <= q < last ->
            rd hist0 h1 q = mk_hist (h_id (rd hist0 h q)) (h_TTL (rd hist0 h q) - 1)).
  { intros q Hq'. specialize (Hq q Hq'). unfold h1.
    rewrite !hist_dec_cells by lia.
    assert (Hd : ttl_dec (rd hist0 h q)
                 = mk_hist (h_id (rd hist0 h q)) (h_TTL (rd hist0 h q) - 1)).
    { unfold ttl_dec. destruct (Z.ltb_spec 0 (h_TTL (rd hist0 h q)));
        [reflexivity | lia]. }
    destruct (Z.leb_spec 0 q), (Z.ltb_spec q (0 + Z.of_nat (Z.to_nat last)));
      destruct (Z.leb_spec first q), (Z.ltb_spec q (first + Z.of_nat nhi));
      cbn [andb]; try exact Hd; lia. }
  assert (Hdec : map (fun e => mk_hist (h_id e) (h_TTL e - 1))
                     (map (rd hist0 h) (zrange first nhi ++ zrange 0 (Z.to_nat last)))
                 = map (rd hist0 h1) (zrange first nhi)
                   ++ map (rd hist0 h1) (zrange 0 (Z.to_nat last))).
  { rewrite map_map, map_app. f_equal; apply map_ext_in; intros q Hq';
      apply In_zrange in Hq'; symmetry; apply Hcell; lia. }
  rewrite Hdec, filter_app. clear Hdec.
  set (zero := fun i => h_TTL (rd hist0 h1 i) =? 0).
  destruct (break_scan_first zero first nhi) as (Hr & Hbefore & Hat).
  set (i := break_scan zero first nhi) in *.
  replace (first + Z.of_nat nhi) with 128 in * by lia.
  assert (Hi : first <= i < 128).
  { split; [lia|]. destruct (Z.eq_dec i 128) as [Ei|]; [|lia].
    exfalso. specialize (Hbefore q0 ltac:(lia)). unfold zero in Hbefore.
    rewrite Hcell in Hbefore by lia. cbn [h_TTL] in Hbefore.
    rewrite Hq0ttl in Hbefore. discriminate. }
  destruct (Z.eqb_spec i 128) as [|_]; [lia|]. cbn [negb].
  (* the first compaction, over the rest of the upper part *)
  set (k0 := Z.to_nat (i - first)).
  set (m := Z.to_nat (128 - (i + 1))).
  assert (Hsplit : zrange first nhi = zrange first k0 ++ i :: zrange (i + 1) m).
  { rewrite (zrange_split first nhi k0) by lia.
    replace (first + Z.of_nat k0) with i by lia.
    replace (nhi - k0 - 1)%nat with m by lia. reflexivity. }
  rewrite Hsplit, map_app, filter_app. cbn [map].
  rewrite filter_cons_False
    by (intros H; apply H; apply Z.eqb_eq; apply Hat; lia).
  rewrite (filter_all _ (map (rd hist0 h1) (zrange first k0))).
  2:{ intros e He. apply in_map_iff in He as (q & <- & Hq').
      apply In_zrange in Hq'. specialize (Hbefore q ltac:(lia)).
      unfold zero in Hbefore. apply Z.eqb_neq in Hbefore. exact Hbefore. }
  destruct (hist_compact_filter m h1 i 1 (i + 1)) as (E1 & Hl2 & Hm1 & Hfr1);
    [lia | lia |].
  set (surv_hi := filter (fun e => h_TTL e <> 0)
                         (map (rd hist0 h1) (zrange (i + 1) m))) in *.
  rewrite E1.
  set (h2 := fst (fst (hist_compact false h1 i 1 (i + 1) m))) in *.
  assert (Hk1 : (length surv_hi <= m)%nat).
  { unfold surv_hi. etransitivity; [apply length_filter|].
    rewrite length_map, zrange_length. lia. }
  set (i2 := i + Z.of_nat (length surv_hi)) in *.
  (* the second compaction, over the lower part *)
  destruct (hist_compact_wrap last (Z.to_nat last) h2 i2
              (1 + Z.of_nat m - Z.of_nat (length surv_hi)) 0)
    as (E2 & Hl3 & Hm2 & Hfr2);
    [congruence | lia | lia | lia | unfold i2; lia | left; unfold i2; lia |].
  assert (Hlo : map (rd hist0 h2) (zrange 0 (Z.to_nat last))
                = map (rd hist0 h1) (zrange 0 (Z.to_nat last))).
  { apply map_ext_in. intros q Hq'. apply In_zrange in Hq'. apply Hfr1. lia. }
  rewrite Hlo in E2, Hm2, Hfr2.
  set (surv_lo := filter (fun e => h_TTL e <> 0)
                         (map (rd hist0 h1) (zrange 0 (Z.to_nat last)))) in *.
  rewrite E2.
  set (h3 := fst (fst (hist_compact true h2 i2 _ 0 (Z.to_nat last)))) in *.
  assert (Hk2 : (length surv_lo <= Z.to_nat last)%nat).
  { unfold surv_lo. etransitivity; [apply length_filter|].
    rewrite length_map, zrange_length. lia. }
  set (K := (k0 + length surv_hi + length surv_lo)%nat).
  assert (EK : sz - (1 + Z.of_nat m - Z.of_nat (length surv_hi)
                     + Z.of_nat (Z.to_nat last) - Z.of_nat (length surv_lo))
               = Z.of_nat K) by (unfold K; lia).
  rewrite EK.
  assert (Ei3 : (i2 + Z.of_nat (length surv_lo)) mod 128
                = (first + Z.of_nat K) mod 128)
    by (f_equal; unfold i2, K; lia).
  rewrite Ei3.
  assert (HK : (K <= 127)%nat) by (unfold K; lia).
  rewrite !u8_small by mod_lia.
  set (s' := mk_hist_state h3 (Z.of_nat K) first ((first + Z.of_nat K) mod 128)).
  assert (Hwf' : hist_wf s').
  { unfold hist_wf, s', MAX_HIST_ADV_BUFF_SIZE.
    cbn [g_buff_adv_hist g_buff_adv_hist_size g_buff_adv_hist_firstpos
         g_buff_adv_hist_lastpos].
    split; [exact Hl3|]. split; [lia|]. split; [mod_lia|]. mod_lia. }
  split; [exact Hwf'|]. split; [|reflexivity].
  unfold hist_live. rewrite (hist_positions_ring_from s' Hwf').
  unfold s'. cbn [g_buff_adv_hist g_buff_adv_hist_size g_buff_adv_hist_firstpos].
  rewrite Nat2Z.id. unfold K.
  rewrite !ring_from_app, !map_app.
  rewrite (ring_from_flat first k0) by lia.
  rewrite (ring_from_flat (first + Z.of_nat k0) (length surv_hi)) by lia.
  replace (first + Z.of_nat k0) with i by lia.
  replace (first + Z.of_nat (k0 + length surv_hi)) with i2 by (unfold i2; lia).
  rewrite Hm2. f_equal. f_equal.
  - apply map_ext_in. intros q Hq'. apply In_zrange in Hq'.
    rewrite Hfr2.
    + apply Hfr1. lia.
    + rewrite In_ring_from. intros (t & Ht & Eq). unfold i2 in Eq. mod_lia.
  - transitivity (map (rd hist0 h2) (zrange i (length surv_hi)));
      [|exact Hm1].
    apply map_ext_in. intros q Hq'. apply In_zrange in Hq'.
    apply Hfr2. rewrite In_ring_from. intros (t & Ht & Eq). unfold i2 in Eq.
    mod_lia.
Qed.

(** X25. On a well-formed history ring that has wrapped ([lastpos] not
    above [firstpos], not empty), whose live entries all have a ttl of at
    least 1 and which has an entry in its upper part, from [firstpos] to the
    end of the array, that is about to expire, one tick lowers every ttl by
    one and removes exactly the entries that reach zero, in the upper and in
    the lower part, keeping the order of the others; this path does not read
    the never-assigned [j]. *)
Theorem hist_tick_wrapped_expiring (j_uninit : Z) (s : hist_state) :
  hist_wf s ->
  g_buff_adv_hist_lastpos s <= g_buff_adv_hist_firstpos s ->
  g_buff_adv_hist_size s <> 0 ->
  (forall e, In e (hist_live s) -> 1 <= h_TTL e) ->
  (exists q, g_buff_adv_hist_firstpos s <= q < MAX_HIST_ADV_BUFF_SIZE /\
             h_TTL (rd hist0 (g_buff_adv_hist s) q) = 1) ->
  let s' := vf_refresh_history_buff_callback j_uninit s in
  hist_wf s' /\
  hist_live s' = hist_tick_spec (hist_live s) /\
  g_buff_adv_hist_size s' = Z.of_nat (length (hist_tick_spec (hist_live s))) /\
  g_buff_adv_hist_firstpos s' = g_buff_adv_hist_firstpos s.
Proof.
  intros Hwf Hlf Hnz Httl Hex. cbv zeta.
  destruct (hist_tick_wrapped_high_live j_uninit s Hwf Hlf Hnz Httl Hex)
    as (Hwf' & Hlive & Hfirst).
  split; [exact Hwf'|]. split; [exact Hlive|]. split; [|exact Hfirst].
  rewrite <- Hlive. unfold hist_live. rewrite length_map.
  symmetry. apply hist_positions_length. exact Hwf'.
Qed.

Lemma hist_tick_wrapped_expiring_witness :
  hist_live (vf_refresh_history_buff_callback 0 hist_high_expiry)
  = [mk_hist 2 4; mk_hist 3 4].
Proof.
  refine (proj1 (proj2 (hist_tick_wrapped_expiring 0 hist_high_expiry _ _ _ _ _))).
  - unfold hist_wf. vm_compute. intuition discriminate.
  - vm_compute. discriminate.
  - vm_compute. discriminate.
  - vm_compute. intros e [<-|[<-|[<-|[]]]]; discriminate.
  - exists 127. vm_compute. intuition discriminate.
Defined.

(** ** The earlier duplicate check *)

Lemma validate2_chain u buf lastpos : forall l a p fuel,
  lseg buf p (a :: l) 0xFF -> List.NoDup (a :: l) ->
  List.last (a :: l) 0 = lastpos -> (length l <= fuel)%nat ->
  exists r,
    validate2_loop fuel u buf lastpos a = Some r /\
    ((r = 0xFFFF /\
      forall x, In x (removelast (a :: l)) -> same_ids u buf x = false) \/
     (In r (removelast (a :: l)) /\ same_ids u buf r = true)).
Proof.
  induction l as [|b l IH]; intros a p fuel Hseg Hnd Hlast Hfuel.
  - cbn [List.last] in Hlast. subst lastpos.
    exists 0xFFFF. split.
    + destruct fuel; cbn [validate2_loop]; rewrite Z.eqb_refl; reflexivity.
    + left. split; [reflexivity|]. intros x [].
  - destruct fuel as [|fuel]; [cbn in Hfuel; lia|].
    cbn [length] in Hfuel.
    assert (Hne : a <> lastpos).
    { rewrite <- Hlast. change (List.last (a :: b :: l) 0)
        with (List.last (b :: l) 0).
      intros E. apply List.NoDup_cons_iff in Hnd as [Hni _]. apply Hni.
      rewrite E. apply last_In. discriminate. }
    cbn [validate2_loop].
    destruct (Z.eqb_spec a lastpos) as [|_]; [contradiction|].
    change (removelast (a :: b :: l)) with (a :: removelast (b :: l)).
    destruct (same_ids u buf a) eqn:Ea.
    + exists a. split; [reflexivity|]. right. split; [left; reflexivity | exact Ea].
    + cbn [lseg] in Hseg. destruct Hseg as (_ & Hnxt & Hseg).
      unfold nxt in Hnxt. cbn [List.hd] in Hnxt. rewrite Hnxt.
      apply List.NoDup_cons_iff in Hnd as [_ Hnd].
      destruct (IH b a fuel Hseg Hnd Hlast ltac:(lia)) as (r & Er & Hr).
      exists r. split; [exact Er|].
      destruct Hr as [[E0 Hnone]|[Hin Hm]].
      * left. split; [exact E0|]. intros x [<-|Hx]; [exact Ea | apply Hnone, Hx].
      * right. split; [right; exact Hin | exact Hm].
Qed.

Lemma In_removelast_NoDup (l : list Z) x :
  List.NoDup l -> (In x (removelast l) <-> In x l /\ x <> List.last l 0).
Proof.
  intros Hnd. destruct l as [|a l]; [cbn; tauto|].
  assert (Hne : a :: l <> []) by discriminate.
  pose proof (app_removelast_last 0 Hne) as E.
  rewrite E in Hnd. apply NoDup_remove in Hnd as [_ Hni].
  rewrite app_nil_r in Hni. split.
  - intros Hx. split.
    + rewrite E. apply in_or_app. left. exact Hx.
    + intros ->. contradiction.
  - intros [Hx Hl]. rewrite E in Hx. apply in_app_or in Hx as [Hx|[Hx|[]]];
      [exact Hx | congruence].
Qed.

(** X26. The earlier duplicate check, [vf_validate_relay_packet2], follows
    the list of records where [vf_validate_relay_packet3] stops at the first
    one.  In every state the node reaches from boot with two or more records
    in the pool it ends, and it finds a record with the three identity bytes
    of the payload exactly when a record other than the last one carries
    them; the last record is never compared. *)
Theorem legacy_validate_scans_but_last (evs : list node_event)
    (u : uint8_array_t) :
  Forall node_event_ok evs ->
  let st := node_run evs state_init in
  let buf := garr_userdata (pool st) in
  let lastpos := g_userdata_lastpos (pool st) in
  2 <= g_userdata_size (pool st) ->
  exists r,
    vf_validate_relay_packet2 u st = Some r /\
    (r <> 0xFFFF ->
     0 <= r < 16 /\ block_used buf r = true /\ r <> lastpos /\
     same_ids u buf r = true) /\
    (r = 0xFFFF ->
     forall a, 0 <= a < 16 -> block_used buf a = true -> a <> lastpos ->
               same_ids u buf a = false).
Proof.
  intros Hok. cbv zeta. intros Hsz2.
  destruct (node_reachable_inv evs Hok) as (rot & Hinv).
  set (st := node_run evs state_init) in *.
  destruct (pool_repr_chain _ _ (proj1 Hinv)) as (ch & Hch & Hl & Hin).
  destruct Hch as (Hlen & Hnd & Hrange & Hsize & Hused & Hseg & Hfl).
  destruct ch as [|a l]; [cbn in Hsize; lia|].
  destruct (Hfl ltac:(discriminate)) as [Hfirst Hlast].
  cbn [List.hd] in Hfirst.
  pose proof (slots_length_le (a :: l) Hnd Hrange) as H16.
  cbn [length] in H16, Hsize.
  unfold vf_validate_relay_packet2.
  destruct (Z.eqb_spec (g_userdata_size (pool st)) 0); [lia|].
  destruct (Z.eqb_spec (g_userdata_size (pool st)) 1); [lia|].
  rewrite Hfirst.
  destruct (validate2_chain u (garr_userdata (pool st))
              (g_userdata_lastpos (pool st)) l a 0xFF
              (Z.to_nat MAX_USERDATA_BUFFER_BLOCK) Hseg Hnd
              (eq_sym Hlast))
    as (r & Er & Hr).
  { unfold MAX_USERDATA_BUFFER_BLOCK. lia. }
  exists r. split; [exact Er|].
  pose proof (In_removelast_NoDup (a :: l)) as Hrl.
  rewrite <- Hlast in Hrl.
  destruct Hr as [[E0 Hnone]|[Hinr Hm]].
  - split; [contradiction|]. intros _ x Hx Hu Hxl.
    apply Hnone. apply (Hrl x Hnd). split; [|exact Hxl].
    apply (Hused x Hx). exact Hu.
  - apply (Hrl r Hnd) in Hinr as [Hinr Hrne].
    pose proof (Hrange r Hinr) as Hr16.
    split.
    + intros _. split; [exact Hr16|]. split; [apply (Hused r Hr16); exact Hinr|].
      split; assumption.
    + intros E. lia.
Qed.

Lemma legacy_validate_scans_but_last_witness :
  exists r,
    vf_validate_relay_packet2 (sample_payload 1 10 2)
      (node_run [NodeIngest 0 (sample_payload 1 10 1);
                 NodeIngest 0 (sample_payload 1 10 2)] state_init) = Some r /\
    (r = 0xFFFF ->
     same_ids (sample_payload 1 10 2)
       (garr_userdata
          (pool (node_run [NodeIngest 0 (sample_payload 1 10 1);
                           NodeIngest 0 (sample_payload 1 10 2)] state_init)))
       0 = false).
Proof.
  destruct (legacy_validate_scans_but_last
              [NodeIngest 0 (sample_payload 1 10 1);
               NodeIngest 0 (sample_payload 1 10 2)] (sample_payload 1 10 2))
    as (r & Er & _ & H0).
  - repeat constructor; cbn; lia.
  - vm_compute. discriminate.
  - exists r. split; [exact Er|]. intros E. apply (H0 E 0).
    + lia.
    + reflexivity.
    + vm_compute. discriminate.
Defined.

(** ** How long a duplicate is recognised *)

Lemma node_run_app l1 l2 st :
  node_run (l1 ++ l2) st = node_run l2 (node_run l1 st).
Proof. unfold node_run. apply fold_left_app. Qed.

Lemma node_run_hist_ticks j_uninit n st :
  node_run (repeat (NodeHistTick j_uninit) n) st
  = set_hist (hist_ticks j_uninit n (hist st)) st.
Proof.
  revert st. induction n as [|n IH]; intros st.
  - destruct st. reflexivity.
  - replace (S n) with (n + 1)%nat by lia.
    rewrite repeat_app, node_run_app, IH. cbn [repeat node_run fold_left node_step].
    unfold hist_tick. cbn [hist set_hist pool g_packetID relay_data adv_log phone_log].
    rewrite Nat.add_1_r. reflexivity.
Qed.

(** An ingested record on its way through an empty pool. *)
Lemma relay_once i_uninit u :
  3 <= size u <= 27 ->
  vf_check_source u = false -> vf_check_destination u = false ->
  let st := node_run [NodeIngest i_uninit u; NodeTick; NodeTick] state_init in
  relay_inv st [] /\
  hist st = hist_inserts [data_ids u] hist_init /\
  length (adv_positions (adv_log st)) = 2%nat.
Proof.
  intros Hsz Hs Hd. cbv zeta.
  cbn [node_run fold_left node_step].
  assert (E1 : on_adv_report i_uninit u state_init
               = snd (vf_add_packet_to_buffer3 u state_init)).
  { unfold on_adv_report. rewrite Hs, Hd. reflexivity. }
  rewrite E1.
  destruct (add_inv u state_init [] state_init_inv ltac:(lia) ltac:(cbn; lia))
    as (_ & pos & pre & post & Hinv1 & Hrot & _ & _ & Httl & Hdata & (Hpos & _)
        & Hh & Hlog & _).
  set (st1 := snd (vf_add_packet_to_buffer3 u state_init)) in *.
  destruct pre; [|discriminate]. destruct post; [|discriminate].
  cbn [app] in Hinv1.
  assert (Hids : block_ids (garr_userdata (pool st1)) pos = data_ids u).
  { unfold block_ids, data_ids.
    rewrite <- (Hdata 0), <- (Hdata 1), <- (Hdata 2) by lia.
    repeat f_equal; unfold blk, MAX_USERDATA_BUFFER_BLOCKSIZE; lia. }
  (* first advertisement *)
  destruct (inv_tick st1 pos [] Hinv1) as (st2 & b2 & E2 & Hlog2 & Hfr2 & Hcase2).
  rewrite Httl in Hcase2. change (2 =? 1) with false in Hcase2.
  destruct Hcase2 as (Hinv2 & Httl2 & Hh2). cbn [app] in Hinv2.
  assert (T1 : tick st1 = st2) by (unfold tick; rewrite E2; reflexivity).
  rewrite T1.
  (* second advertisement: released *)
  destruct (inv_tick st2 pos [] Hinv2) as (st3 & b3 & E3 & Hlog3 & _ & Hcase3).
  rewrite Httl2 in Hcase3. change (1 =? 1) with true in Hcase3.
  destruct Hcase3 as (Hinv3 & _ & _ & Hh3).
  assert (T2 : tick st2 = st3) by (unfold tick; rewrite E3; reflexivity).
  rewrite T2.
  split; [exact Hinv3|]. split.
  - rewrite Hh3, Hh2, Hh.
    assert (Hids2 : block_ids (garr_userdata (pool st2)) pos
                    = block_ids (garr_userdata (pool st1)) pos).
    { unfold block_ids. rewrite !Hfr2; try reflexivity;
        unfold blk, MAX_USERDATA_BUFFER_BLOCKSIZE; mod_lia. }
    rewrite Hids2, Hids. reflexivity.
  - rewrite Hlog3, Hlog2, Hlog. cbn. reflexivity.
Qed.

(** X27. How long a duplicate is recognised.  Let a node fresh from boot
    receive a payload in transit (3 to 27 bytes) and advertise it twice, which
    moves its identity to the history, and let [n] history ticks follow.
    While [n] is below 10 a second copy of the payload changes nothing
    (provided [i + 8000] is not 0xFFFF for the value the never-assigned [i]
    holds); from the tenth tick on the identity is forgotten and the copy is
    admitted to the pool again, with two advertisements. *)
Theorem suppression_window (i1 i2 j_uninit : Z) (u : uint8_array_t) (n : nat) :
  3 <= size u <= 27 ->
  vf_check_source u = false -> vf_check_destination u = false ->
  let st := node_run ([NodeIngest i1 u; NodeTick; NodeTick]
                      ++ repeat (NodeHistTick j_uninit) n) state_init in
  let st' := on_adv_report i2 u st in
  g_userdata_size (pool st) = 0 /\
  length (adv_positions (adv_log st)) = 2%nat /\
  ((n < 10)%nat -> u16 (i2 + 8000) <> 0xFFFF -> st' = st) /\
  ((10 <= n)%nat ->
   g_userdata_size (pool st') = 1 /\
   block_ids (garr_userdata (pool st')) (g_userdata_lastpos (pool st'))
   = data_ids u /\
   rd 0 (garr_userdata (pool st')) (blk (g_userdata_lastpos (pool st')) 3) = 2).
Proof.
  intros Hsz Hs Hd. cbv zeta.
  rewrite node_run_app, node_run_hist_ticks.
  destruct (relay_once i1 u Hsz Hs Hd) as (Hinv3 & Hh3 & Hadv).
  set (st3 := node_run [NodeIngest i1 u; NodeTick; NodeTick] state_init) in *.
  set (st := set_hist (hist_ticks j_uninit n (hist st3)) st3).
  assert (Hnd : List.NoDup [data_ids u]) by (repeat constructor; intros []).
  assert (Hwf : hist_wf (hist st)).
  { unfold st. cbn [hist set_hist]. apply hist_ticks_wf. apply Hinv3. }
  assert (Hinv : relay_inv st []).
  { destruct Hinv3 as (Hr & Hb & _). split; [exact Hr|]. split; assumption. }
  pose proof (pool_repr_size _ _ (proj1 Hinv)) as Hsize. cbn [length] in Hsize.
  split; [exact Hsize|]. split; [exact Hadv|]. split.
  - intros Hn Hi2.
    destruct (hist_ticks_fresh j_uninit [data_ids u] n Hnd ltac:(discriminate)
                ltac:(cbn; lia) ltac:(lia)) as (_ & _ & Hlive).
    assert (Hin : In (data_ids u) (hist_ids (hist st))).
    { unfold st. cbn [hist set_hist]. rewrite Hh3. unfold hist_ids.
      rewrite Hlive. left. reflexivity. }
    unfold on_adv_report. rewrite Hs, Hd.
    rewrite (validate_history_hit i2 u st Hwf Hin).
    destruct (Z.eqb_spec (u16 (i2 + 8000)) 0xFFFF); [contradiction | reflexivity].
  - intros Hn.
    destruct (hist_ticks_expired j_uninit [data_ids u] Hnd ltac:(discriminate)
                ltac:(cbn; lia)) as [Hs0 _].
    assert (Hh0 : g_buff_adv_hist_size (hist st) = 0).
    { unfold st. cbn [hist set_hist]. rewrite Hh3.
      replace n with ((n - 10) + 10)%nat by lia.
      rewrite hist_ticks_add, hist_ticks_empty by exact Hs0. exact Hs0. }
    assert (Ev : vf_validate_relay_packet3 i2 u st = 0xFFFF).
    { unfold vf_validate_relay_packet3, vf_find_id_buff_adv_hist3.
      rewrite Hh0, Hsize. reflexivity. }
    unfold on_adv_report. rewrite Hs, Hd, Ev. cbn [Z.eqb Pos.eqb].
    change (65535 =? 65535) with true. cbv iota.
    destruct (add_inv u st [] Hinv ltac:(lia) ltac:(cbn; lia))
      as (_ & pos & pre & post & Hinv1 & Hrot & _ & Hlast & Httl & Hdata & _).
    destruct pre; [|discriminate]. destruct post; [|discriminate].
    cbn [app] in Hinv1.
    pose proof (pool_repr_size _ _ (proj1 Hinv1)) as Hsize1.
    cbn [length] in Hsize1.
    split; [exact Hsize1|]. rewrite Hlast. split; [|exact Httl].
    unfold block_ids, data_ids.
    rewrite <- (Hdata 0), <- (Hdata 1), <- (Hdata 2) by lia.
    repeat f_equal; unfold blk, MAX_USERDATA_BUFFER_BLOCKSIZE; lia.
Qed.

Lemma suppression_window_witness :
  g_userdata_size
    (pool (on_adv_report 0 (sample_payload 1 10 1)
             (node_run ([NodeIngest 0 (sample_payload 1 10 1); NodeTick; NodeTick]
                        ++ repeat (NodeHistTick 0) 10) state_init)))
  = 1.
Proof.
  refine (proj1 (proj2 (proj2 (proj2
            (suppression_window 0 0 0 (sample_payload 1 10 1) 10 _ _ _))) _)).
  - cbn. lia.
  - reflexivity.
  - reflexivity.
  - lia.
Defined.

(** ** The records local events leave in the pool *)

Lemma thingy_idata_pid c d st :
  thingy_idata c d st
  = thingy_idata c d (mk_state pool_init hist_init (g_packetID st) [] [] []).
Proof. destruct c; reflexivity. Qed.

Lemma adv_thingy_stored c d st rot :
  relay_inv st rot -> (length rot < 16)%nat ->
  let st1 := vf_adv_thingy_data c d st in
  let idata := thingy_idata c d st in
  exists pos pre post,
    relay_inv st1 (pre ++ pos :: post) /\
    rot = pre ++ post /\ ~ In pos rot /\ 0 <= pos < 16 /\
    g_userdata_lastpos (pool st1) = pos /\
    rd 0 (garr_userdata (pool st1)) (blk pos 3) = 2 /\
    (forall k, 0 <= k < size idata ->
       rd 0 (garr_userdata (pool st1)) (blk pos (5 + k)) = rd 0 (p_data idata) k) /\
    (forall a k, 0 <= a < 16 -> a <> pos -> 3 <= k < 32 ->
       rd 0 (garr_userdata (pool st1)) (blk a k)
       = rd 0 (garr_userdata (pool st)) (blk a k)) /\
    g_packetID st1 = u8 (g_packetID st + 1).
Proof.
  intros Hinv Hlen. cbv zeta.
  unfold vf_adv_thingy_data.
  set (st0 := mk_state (pool st) (hist st) (u8 (g_packetID st + 1))
                       (relay_data st) (adv_log st) (phone_log st)).
  assert (Hinv0 : relay_inv st0 rot) by exact Hinv.
  assert (Hsz : 0 <= size (thingy_idata c d st) <= 27)
    by (destruct (thingy_idata_size c d st) as [E|E]; rewrite E; lia).
  destruct (add_inv (thingy_idata c d st) st0 rot Hinv0 Hsz Hlen)
    as (_ & pos & pre & post & Hinv1 & Hrot & Hni & Hlast & Httl & Hdata
        & (Hpos & Hframe) & _).
  exists pos, pre, post.
  split; [exact Hinv1|]. split; [exact Hrot|]. split; [exact Hni|].
  split; [exact Hpos|]. split; [exact Hlast|]. split; [exact Httl|].
  split; [exact Hdata|]. split; [exact Hframe|].
  rewrite add_packet_g_packetID. reflexivity.
Qed.

Lemma on_adv_report_g_packetID i u st :
  g_packetID (on_adv_report i u st) = g_packetID st.
Proof.
  unfold on_adv_report, vf_process_adv_command3.
  destruct (vf_check_source u); [reflexivity|].
  destruct (vf_check_destination u).
  - destruct (_ =? _); reflexivity.
  - destruct (_ =? _); [apply add_packet_g_packetID | reflexivity].
Qed.

Lemma node_step_g_packetID e st :
  g_packetID (node_step e st)
  = match e with
    | NodeLocal _ _ => u8 (g_packetID st + 1)
    | _ => g_packetID st
    end.
Proof.
  destruct e as [|j|i u|c d|]; cbn [node_step].
  - apply tick_aside.
  - reflexivity.
  - apply on_adv_report_g_packetID.
  - apply adv_thingy_aside.
  - apply add_packet_g_packetID.
Qed.

Lemma node_run_g_packetID evs : forall st,
  0 <= g_packetID st < 256 ->
  g_packetID (node_run evs st)
  = (g_packetID st + Z.of_nat (count_local evs)) mod 256.
Proof.
  induction evs as [|e evs IH]; intros st Hr.
  - cbn. rewrite Z.add_0_r, Z.mod_small; lia.
  - change (node_run (e :: evs) st) with (node_run evs (node_step e st)).
    pose proof (node_step_g_packetID e st) as He.
    assert (Hr1 : 0 <= g_packetID (node_step e st) < 256).
    { rewrite He. destruct e; try exact Hr. unfold u8. apply Z.mod_pos_bound. lia. }
    rewrite (IH _ Hr1), He. unfold count_local.
    destruct e; cbn [List.filter length]; try reflexivity.
    unfold u8. rewrite Zplus_mod_idemp_l. f_equal. lia.
Qed.

Lemma node_reachable_g_packetID evs :
  0 <= g_packetID (node_run evs state_init) < 256.
Proof.
  rewrite node_run_g_packetID by (cbn; lia). apply Z.mod_pos_bound. lia.
Qed.

Lemma adv_thingy_last_identity c d st rot :
  relay_inv st rot -> (length rot < 16)%nat ->
  let st1 := vf_adv_thingy_data c d st in
  block_used (garr_userdata (pool st)) (g_userdata_lastpos (pool st1)) = false /\
  block_used (garr_userdata (pool st1)) (g_userdata_lastpos (pool st1)) = true /\
  last_identity st1 = (CLUSTER_ID, SINK_ID, g_packetID st) /\
  exists rot1, relay_inv st1 rot1.
Proof.
  intros Hinv Hlen. cbv zeta.
  destruct (adv_thingy_stored c d st rot Hinv Hlen)
    as (pos & pre & post & Hinv1 & Hrot & Hni & Hpos & Hlast & _ & Hdata & _).
  rewrite Hlast. split; [|split; [|split]].
  - destruct (block_used (garr_userdata (pool st)) pos) eqn:E; [|reflexivity].
    apply (pool_repr_used_iff _ _ _ (proj1 Hinv) Hpos) in E. contradiction.
  - apply (pool_repr_used _ _ _ (proj1 Hinv1)). apply in_or_app. right. left.
    reflexivity.
  - unfold last_identity. rewrite Hlast.
    assert (Hsz : 6 <= size (thingy_idata c d st))
      by (destruct (thingy_idata_size c d st) as [E|E]; rewrite E; lia).
    change (blk pos 5) with (blk pos (5 + 0)).
    change (blk pos 6) with (blk pos (5 + 1)).
    change (blk pos 7) with (blk pos (5 + 2)).
    rewrite !Hdata by lia. destruct c; reflexivity.
  - eexists. exact Hinv1.
Qed.

(** C10. The packet id of local records is an 8-bit counter.  A local
    event submitted in a state the node has reached, with room in the pool,
    leaves a new record in the last block of the list whose identity bytes
    are the node's id, the sink's id and the packet id, and moves the packet
    id on by one modulo 256.  After any further events, the record of a later
    submission has the identity of the first one exactly when the number of
    submissions from the first to the later one is a multiple of 256: after
    256 submissions an identity repeats, and within 256 consecutive
    submissions no two records share one. *)
Theorem C10_sequence_id_wraps (evs0 evs : list node_event)
    (c c' : link_case) (d d' : thingy_data_t) :
  Forall node_event_ok evs0 -> Forall node_event_ok evs ->
  let st0 := node_run evs0 state_init in
  let stA := vf_adv_thingy_data c d st0 in
  let stB := node_run evs stA in
  let stC := vf_adv_thingy_data c' d' stB in
  g_userdata_size (pool st0) < 16 -> g_userdata_size (pool stB) < 16 ->
  g_packetID stA = (g_packetID st0 + 1) mod 256 /\
  block_used (garr_userdata (pool st0)) (g_userdata_lastpos (pool stA)) = false /\
  block_used (garr_userdata (pool stA)) (g_userdata_lastpos (pool stA)) = true /\
  last_identity stA = (CLUSTER_ID, SINK_ID, g_packetID st0) /\
  block_used (garr_userdata (pool stB)) (g_userdata_lastpos (pool stC)) = false /\
  block_used (garr_userdata (pool stC)) (g_userdata_lastpos (pool stC)) = true /\
  last_identity stC = (CLUSTER_ID, SINK_ID, g_packetID stB) /\
  g_packetID stB
  = (g_packetID st0 + 1 + Z.of_nat (count_local evs)) mod 256 /\
  (last_identity stC = last_identity stA
   <-> (1 + Z.of_nat (count_local evs)) mod 256 = 0).
Proof.
  intros Hok0 Hok. cbv zeta. intros Hroom0 HroomB.
  destruct (node_reachable_inv evs0 Hok0) as (rot0 & Hinv0).
  pose proof (node_reachable_g_packetID evs0) as Hpid0.
  set (st0 := node_run evs0 state_init) in *.
  assert (Hlen0 : (length rot0 < 16)%nat).
  { pose proof (pool_repr_size _ _ (proj1 Hinv0)). lia. }
  destruct (adv_thingy_last_identity c d st0 rot0 Hinv0 Hlen0)
    as (HfreeA & HusedA & HidA & rotA & HinvA).
  assert (HpidA : g_packetID (vf_adv_thingy_data c d st0)
                  = (g_packetID st0 + 1) mod 256) by apply adv_thingy_aside.
  set (stA := vf_adv_thingy_data c d st0) in *.
  destruct (node_run_inv evs stA rotA HinvA Hok) as (rotB & HinvB).
  assert (HpidB : g_packetID (node_run evs stA)
                  = (g_packetID st0 + 1 + Z.of_nat (count_local evs)) mod 256).
  { rewrite node_run_g_packetID, HpidA.
    - rewrite Zplus_mod_idemp_l. reflexivity.
    - rewrite HpidA. apply Z.mod_pos_bound. lia. }
  set (stB := node_run evs stA) in *.
  assert (HlenB : (length rotB < 16)%nat).
  { pose proof (pool_repr_size _ _ (proj1 HinvB)). lia. }
  destruct (adv_thingy_last_identity c' d' stB rotB HinvB HlenB)
    as (HfreeC & HusedC & HidC & _).
  repeat (split; [assumption|]).
  rewrite HidC, HidA, HpidB. split.
  - intros [= H]. revert H. generalize (Z.of_nat (count_local evs)).
    intros n H.
    rewrite <- (Z.mod_small (g_packetID st0) 256) in H at 2 by lia.
    assert (E : ((g_packetID st0 + 1 + n) - g_packetID st0) mod 256 = 0).
    { rewrite Zminus_mod, H, Z.sub_diag. reflexivity. }
    rewrite <- E. f_equal. lia.
  - intros H. f_equal.
    rewrite <- Z.add_assoc, Zplus_mod, H, Z.add_0_r, Z.mod_mod by lia.
    apply Z.mod_small. lia.
Qed.

Lemma local_rounds_ok : Forall node_event_ok local_rounds.
Proof.
  apply List.Forall_forall. intros e He. unfold local_rounds in He.
  apply in_concat in He as (l & Hl & He). apply repeat_spec in Hl. subst l.
  destruct He as [<-|[<-|[<-|[<-|[]]]]]; exact I.
Qed.

Lemma C10_sequence_id_wraps_witness :
  last_identity
    (vf_adv_thingy_data AGG_NODE_LINK_CONNECTED (mk_thingy_data 1 2 0 0 0 0)
       (node_run local_rounds
          (vf_adv_thingy_data AGG_NODE_LINK_CONNECTED
             (mk_thingy_data 1 2 0 0 0 0) state_init)))
  = last_identity
      (vf_adv_thingy_data AGG_NODE_LINK_CONNECTED (mk_thingy_data 1 2 0 0 0 0)
         state_init).
Proof.
  destruct (C10_sequence_id_wraps [] local_rounds
              AGG_NODE_LINK_CONNECTED AGG_NODE_LINK_CONNECTED
              (mk_thingy_data 1 2 0 0 0 0) (mk_thingy_data 1 2 0 0 0 0))
    as (_ & _ & _ & _ & _ & _ & _ & _ & H).
  - constructor.
  - exact local_rounds_ok.
  - vm_compute. reflexivity.
  - vm_compute. reflexivity.
  - apply H. vm_compute. reflexivity.
Defined.

(** ** The records of the periodic sensor report *)

Lemma edata_callback_records upd : forall links st rot,
  relay_inv st rot -> 0 <= g_packetID st < 256 ->
  (length rot + length (connected_links links) <= 16)%nat ->
  let st' := vf_add_edata_adv_buff_callback false upd links st in
  exists ps rot',
    relay_inv st' rot' /\
    length ps = length (connected_links links) /\
    List.NoDup ps /\
    (forall a, In a ps -> 0 <= a < 16 /\ ~ In a rot) /\
    (forall a, In a rot' <-> In a rot \/ In a ps) /\
    (forall k l p,
       connected_links links !! k = Some l -> ps !! k = Some p ->
       rd 0 (garr_userdata (pool st')) (blk p 3) = 2 /\
       forall j, 0 <= j < 15 ->
         rd 0 (garr_userdata (pool st')) (blk p (5 + j))
         = rd 0 (link_record upd ((g_packetID st + Z.of_nat k) mod 256) l) j) /\
    (forall a k, In a rot -> 3 <= k < 32 ->
       rd 0 (garr_userdata (pool st')) (blk a k)
       = rd 0 (garr_userdata (pool st)) (blk a k)).
Proof.
  induction links as [|l links IH]; intros st rot Hinv Hpid Hroom; cbv zeta.
  - exists [], rot. cbn.
    split; [exact Hinv|]. split; [reflexivity|]. split; [constructor|].
    split; [intros a []|]. split; [tauto|].
    split; [intros k l p Hk; discriminate | reflexivity].
  - rewrite edata_callback_cons. rewrite connected_links_cons in Hroom |- *.
    destruct (Z.eqb_spec (tes_conn_handle l) ThingyUis.BLE_CONN_HANDLE_INVALID)
      as [Einv|Hconn].
    + exact (IH st rot Hinv Hpid Hroom).
    + cbn [length] in Hroom.
      fold (link_data upd l).
      destruct (adv_thingy_stored AGG_NODE_LINK_DATA_UPDATE (link_data upd l)
                  st rot Hinv ltac:(lia))
        as (pos & pre & post & Hinv1 & Hrot & Hni & Hpos & _ & Httl & Hdata
            & Hframe & Hpid1).
      set (st1 := vf_adv_thingy_data AGG_NODE_LINK_DATA_UPDATE
                    (link_data upd l) st) in *.
      assert (Hr1 : 0 <= g_packetID st1 < 256)
        by (rewrite Hpid1; unfold u8; apply Z.mod_pos_bound; lia).
      assert (Hlen1 : length (pre ++ pos :: post) = S (length rot)).
      { rewrite Hrot, !length_app. cbn [length]. lia. }
      assert (Hin1 : forall a, In a (pre ++ pos :: post) <-> a = pos \/ In a rot).
      { intros a. rewrite Hrot, !in_app_iff. cbn [In]. intuition congruence. }
      destruct (IH st1 (pre ++ pos :: post) Hinv1 Hr1 ltac:(lia))
        as (ps & rot' & Hinv' & Hlen & Hnd & Hps & Hrot' & Hrec & Hfr).
      destruct (pool_repr_NoDup _ _ (proj1 Hinv)) as [_ Hrange].
      exists (pos :: ps), rot'.
      split; [exact Hinv'|]. split; [cbn [length]; lia|].
      split.
      { constructor; [|exact Hnd]. intros Hp. apply (Hps pos Hp).
        apply Hin1. left. reflexivity. }
      split.
      { intros a [<-|Ha]; [split; assumption|].
        destruct (Hps a Ha) as [Hr Hn]. split; [exact Hr|].
        intros Har. apply Hn, Hin1. right. exact Har. }
      split.
      { intros a. rewrite Hrot', Hin1. cbn [In]. intuition congruence. }
      split.
      { intros k l0 p Hk Hp. destruct k as [|k].
        - cbn in Hk, Hp. injection Hk as <-. injection Hp as <-.
          assert (Hpin : In pos (pre ++ pos :: post))
            by (apply Hin1; left; reflexivity).
          split; [rewrite Hfr by (assumption || lia); exact Httl|].
          intros j Hj. rewrite Hfr by (assumption || lia).
          rewrite Hdata by (cbn; lia).
          rewrite thingy_idata_pid. unfold link_record.
          rewrite Z.add_0_r, Z.mod_small by lia. reflexivity.
        - cbn in Hk, Hp. destruct (Hrec k l0 p Hk Hp) as [Ht Hd].
          split; [exact Ht|]. intros j Hj. rewrite (Hd j Hj). f_equal.
          rewrite Hpid1. unfold u8. rewrite Zplus_mod_idemp_l.
          replace (g_packetID st + Z.of_nat (S k))
            with (g_packetID st + 1 + Z.of_nat k) by lia.
          reflexivity. }
      intros a k Ha Hk.
      rewrite Hfr by (try apply Hin1; auto).
      apply Hframe; [apply Hrange, Ha | congruence | exact Hk].
Qed.

(** X21. The periodic sensor report.  On a sink the callback changes
    nothing.  On any other node, in a state the node has reached, it moves
    the packet id on by the number of connected links modulo 256, and when
    the pool has room for them it stores one data update for every connected
    link and none for the others: the pool grows by as many blocks, all free
    before, the block of the k-th connected link holds the 15 bytes
    [vf_adv_thingy_data] builds from the link's values under the k-th packet
    id and has two advertisements, and the records that were in the pool keep
    their bytes.  The callback never touches the history, the advertiser or
    the phone. *)
Theorem edata_callback_packet_ids (evs : list node_event) (g_is_sink : bool)
    (update_state : Z) (links : list thingy_link) :
  Forall node_event_ok evs ->
  let st := node_run evs state_init in
  let st' := vf_add_edata_adv_buff_callback g_is_sink update_state links st in
  let n := length (connected_links links) in
  let buf := garr_userdata (pool st) in
  let buf' := garr_userdata (pool st') in
  (g_is_sink = true -> st' = st) /\
  (g_is_sink = false ->
   g_packetID st' = (g_packetID st + Z.of_nat n) mod 256 /\
   (g_userdata_size (pool st) + Z.of_nat n <= 16 ->
    g_userdata_size (pool st') = g_userdata_size (pool st) + Z.of_nat n /\
    exists ps,
      length ps = n /\ List.NoDup ps /\
      (forall a, In a ps -> 0 <= a < 16 /\ block_used buf a = false) /\
      (forall a, 0 <= a < 16 ->
         (block_used buf' a = true <-> block_used buf a = true \/ In a ps)) /\
      (forall k l p,
         connected_links links !! k = Some l -> ps !! k = Some p ->
         rd 0 buf' (blk p 3) = 2 /\
         forall j, 0 <= j < 15 ->
           rd 0 buf' (blk p (5 + j))
           = rd 0 (link_record update_state
                     ((g_packetID st + Z.of_nat k) mod 256) l) j) /\
      (forall a k, 0 <= a < 16 -> block_used buf a = true -> 3 <= k < 32 ->
         rd 0 buf' (blk a k) = rd 0 buf (blk a k)))) /\
  hist st' = hist st /\ adv_log st' = adv_log st /\ phone_log st' = phone_log st.
Proof.
  intros Hok. cbv zeta.
  destruct (node_reachable_inv evs Hok) as (rot & Hinv).
  pose proof (node_reachable_g_packetID evs) as Hpid.
  set (st := node_run evs state_init) in *.
  destruct g_is_sink.
  - rewrite edata_callback_sink. split; [reflexivity|].
    split; [discriminate|]. auto.
  - destruct (edata_callback_node update_state links st Hpid) as (Hg & H).
    split; [discriminate|]. split; [|exact H]. intros _.
    split; [exact Hg|]. intros Hroom.
    pose proof (pool_repr_size _ _ (proj1 Hinv)) as Hsz.
    assert (Hroom' : (length rot + length (connected_links links) <= 16)%nat)
      by lia.
    destruct (edata_callback_records update_state links st rot Hinv Hpid Hroom')
      as (ps & rot' & Hinv' & Hlen & Hnd & Hps & Hrot' & Hrec & Hfr).
    pose proof (pool_repr_size _ _ (proj1 Hinv')) as Hsz'.
    pose proof (pool_repr_NoDup _ _ (proj1 Hinv')) as [Hnd' _].
    split.
    { rewrite Hsz', Hsz, <- Hlen, <- Nat2Z.inj_add. f_equal.
      assert (Hnd0 : List.NoDup (rot ++ ps)).
      { apply List.NoDup_app;
          [apply (pool_repr_NoDup _ _ (proj1 Hinv)) | exact Hnd |].
        intros a Ha Hp. apply (Hps a Hp). exact Ha. }
      rewrite <- length_app.
      apply Nat.le_antisymm; apply List.NoDup_incl_length;
        try assumption; intros a Ha.
      - apply in_or_app, Hrot', Ha.
      - apply Hrot', in_app_or, Ha. }
    exists ps. split; [exact Hlen|]. split; [exact Hnd|].
    split.
    { intros a Ha. destruct (Hps a Ha) as [Hr Hn]. split; [exact Hr|].
      destruct (block_used _ a) eqn:E; [|reflexivity].
      apply (pool_repr_used_iff _ _ _ (proj1 Hinv) Hr) in E. contradiction. }
    split.
    { intros a Ha.
      rewrite (pool_repr_used_iff _ _ _ (proj1 Hinv') Ha),
              (pool_repr_used_iff _ _ _ (proj1 Hinv) Ha).
      apply Hrot'. }
    split; [exact Hrec|].
    intros a k Ha Hu Hk. apply Hfr; [|exact Hk].
    apply (pool_repr_used_iff _ _ _ (proj1 Hinv) Ha). exact Hu.
Qed.

Lemma edata_callback_packet_ids_witness :
  g_userdata_size
    (pool (vf_add_edata_adv_buff_callback false 3
             [mk_thingy_link 0 2500 100000 40 1; mk_thingy_link 0xFFFF 0 0 0 0;
              mk_thingy_link 2 2400 100100 45 0]
             (node_run [NodeStartBroadcast] state_init)))
  = g_userdata_size (pool (node_run [NodeStartBroadcast] state_init)) + 2.
Proof.
  destruct (edata_callback_packet_ids [NodeStartBroadcast] false 3
              [mk_thingy_link 0 2500 100000 40 1; mk_thingy_link 0xFFFF 0 0 0 0;
               mk_thingy_link 2 2400 100100 45 0])
    as (_ & H & _).
  - repeat constructor.
  - destruct (H eq_refl) as (_ & Hpool).
    refine (proj1 (Hpool _)). vm_compute. discriminate.
Defined.

(** ** The transmit ring *)

Section ThingyUisFacts.
Import ThingyUis.

Lemma uis_wf_cases (s : uis_state) :
  uis_wf s ->
  (exists m0 m1 m2 m3 m4 m5 m6 m7,
      m_tx_buffer s = [m0; m1; m2; m3; m4; m5; m6; m7]) /\
  In (m_tx_index s) [0; 1; 2; 3; 4; 5; 6; 7] /\
  In (m_tx_insert_index s) [0; 1; 2; 3; 4; 5; 6; 7].
Proof.
  unfold uis_wf, TX_BUFFER_SIZE, TX_BUFFER_MASK. intros (Hlen & Hi & Hk).
  split; [|split; cbn [In]; lia].
  destruct (m_tx_buffer s) as [|m0 [|m1 [|m2 [|m3 [|m4 [|m5 [|m6 [|m7 [|]]]]]]]]];
    try discriminate.
  eauto 10.
Qed.

Ltac ring_cases s H :=
  destruct (uis_wf_cases s H) as ((m0 & m1 & m2 & m3 & m4 & m5 & m6 & m7 & Hb)
                                  & Hi & Hk);
  destruct s as [buf ins idx calls];
  cbn [m_tx_buffer m_tx_index m_tx_insert_index sd_calls] in *; subst buf;
  cbn [In] in Hi, Hk;
  repeat (destruct Hi as [<-|Hi]; [|]); try contradiction;
  repeat (destruct Hk as [<-|Hk]; [|]); try contradiction.

(** Storing a message and processing the ring: the ring holds at most 7
    requests; with fewer than 7 pending the new request joins the end of the
    queue, the request at the head is issued, and it leaves the queue
    exactly when the SoftDevice accepts it. *)
Lemma tx_enqueue_fifo (s : uis_state) (m : tx_message_t) (rc : Z) :
  uis_wf s ->
  let s' := tx_buffer_process rc (tx_stored m s) in
  uis_wf s' /\
  (length (tx_pending s) <= 7)%nat /\
  ((length (tx_pending s) < 7)%nat ->
   let q := tx_pending s ++ [m] in
   sd_calls s' = sd_calls s ++ [(tx_call (List.hd m q), rc)] /\
   tx_pending s' = if rc =? NRF_SUCCESS then tl q else q).
Proof.
  intros Hwf. cbv zeta. unfold tx_buffer_process, tx_stored, NRF_SUCCESS.
  destruct (rc =? 0);
    ring_cases s Hwf;
    (split; [split; [reflexivity | vm_compute; intuition discriminate]|]);
    (split; [apply Nat.leb_le; reflexivity|]);
    intros Hlt;
    try (exfalso; apply Nat.ltb_lt in Hlt; vm_compute in Hlt; discriminate);
    split; reflexivity.
Qed.

(** Processing the ring on a write response. *)
Lemma tx_process_fifo (s : uis_state) (rc : Z) :
  uis_wf s ->
  let s' := tx_buffer_process rc s in
  uis_wf s' /\
  match tx_pending s with
  | [] => s' = s
  | m :: q =>
      sd_calls s' = sd_calls s ++ [(tx_call m, rc)] /\
      tx_pending s' = if rc =? NRF_SUCCESS then q else m :: q
  end.
Proof.
  intros Hwf. cbv zeta. unfold tx_buffer_process, NRF_SUCCESS.
  destruct (rc =? 0);
    ring_cases s Hwf;
    (split; [split; [reflexivity | vm_compute; intuition discriminate]|]);
    vm_compute; auto.
Qed.


(** C9 (fails on the code). With seven requests pending an eighth is
    accepted like any other, with NRF_SUCCESS; the insert index then meets
    the read index, the ring counts as empty, and the eight requests are
    lost without one of them having been accepted by the SoftDevice. *)
Lemma C9_counterexample :
  let r := cccd_configure 1 10 true NRF_ERROR_BUSY uis_seven_pending in
  length (tx_pending uis_seven_pending) = 7%nat /\
  fst r = NRF_SUCCESS /\
  tx_pending (snd r) = [] /\
  tx_issued (snd r) = [].
Proof. vm_compute. auto. Qed.

(** C9, as amended. Enqueuing never answers Full: [cccd_configure], and
    [ble_thingy_uis_led_status_send] on a valid link, store the request at
    the insert index and return NRF_SUCCESS.  The ring holds at most 7
    pending requests.  With fewer than 7 pending, the new request joins the
    end of the queue and no pending request is overwritten; the request at
    the head is the one issued, and it leaves the queue exactly when the
    SoftDevice accepts it.  The LED write is one of at most 8 bytes, all of
    them bytes of [led_state]: the source copies [length] bytes without a
    check, and 8 is the size of the value buffer of a slot. *)
Theorem C9_tx_ring_fifo (s : uis_state) (conn handle_cccd : Z) (enable : bool)
    (c : ble_thingy_uis_c_t) (led_state : list Z) (len : Z) (rc : Z) :
  uis_wf s -> uis_conn_handle c <> BLE_CONN_HANDLE_INVALID ->
  0 <= len <= 8 -> len <= Z.of_nat (length led_state) ->
  let old := rd tx_message0 (m_tx_buffer s) (m_tx_insert_index s) in
  length (gattc_value (write_req old)) = 8%nat ->
  let r1 := cccd_configure conn handle_cccd enable rc s in
  let fifo (m : tx_message_t) (s' : uis_state) :=
    sd_calls s' = sd_calls s ++ [(tx_call (List.hd m (tx_pending s ++ [m])), rc)] /\
    tx_pending s'
    = if rc =? NRF_SUCCESS then tl (tx_pending s ++ [m])
      else tx_pending s ++ [m] in
  fst r1 = NRF_SUCCESS /\ uis_wf (snd r1) /\
  (length (tx_pending s) <= 7)%nat /\
  ((length (tx_pending s) < 7)%nat ->
   fifo (cccd_message old conn handle_cccd enable) (snd r1)) /\
  exists s2,
    ble_thingy_uis_led_status_send c led_state len rc s
    = Some (NRF_SUCCESS, s2) /\
    uis_wf s2 /\
    ((length (tx_pending s) < 7)%nat ->
     fifo (led_message old c led_state len) s2).
Proof.
  intros Hwf Hc Hlen Hsrc. cbv zeta. intros _.
  unfold ble_thingy_uis_led_status_send, cccd_configure.
  destruct (Z.eqb_spec (uis_conn_handle c) BLE_CONN_HANDLE_INVALID);
    [contradiction|].
  destruct (Z.ltb_spec TUIS_WRITE_MESSAGE_LENGTH len) as [Hgt|_];
    [unfold TUIS_WRITE_MESSAGE_LENGTH in Hgt; lia|].
  destruct (Z.ltb_spec (Z.of_nat (length led_state)) len) as [Hgt|_]; [lia|].
  cbn [orb fst snd].
  set (m1 := cccd_message _ conn handle_cccd enable).
  set (m2 := led_message _ c led_state len).
  destruct (tx_enqueue_fifo s m1 rc Hwf) as (Hwf1 & Hle & Hf1).
  destruct (tx_enqueue_fifo s m2 rc Hwf) as (Hwf2 & _ & Hf2).
  split; [reflexivity|]. split; [exact Hwf1|]. split; [exact Hle|].
  split; [exact Hf1|].
  eexists. split; [reflexivity|]. split; [exact Hwf2 | exact Hf2].
Qed.

Lemma C9_tx_ring_fifo_witness :
  exists s2,
    ble_thingy_uis_led_status_send (mk_uis_c 1 2 3 4) [1; 0; 0; 0] 4
      NRF_SUCCESS uis_three_pending
    = Some (NRF_SUCCESS, s2) /\
    tx_pending s2
    = tl (tx_pending uis_three_pending
          ++ [led_message
                (rd tx_message0 (m_tx_buffer uis_three_pending)
                    (m_tx_insert_index uis_three_pending))
                (mk_uis_c 1 2 3 4) [1; 0; 0; 0] 4]).
Proof.
  assert (Hwf : uis_wf uis_three_pending)
    by (split; [reflexivity | vm_compute; intuition discriminate]).
  assert (Hc : uis_conn_handle (mk_uis_c 1 2 3 4) <> BLE_CONN_HANDLE_INVALID)
    by (vm_compute; discriminate).
  assert (Hlen : 0 <= 4 <= 8) by lia.
  assert (Hsrc : 4 <= Z.of_nat (length [1; 0; 0; 0])) by (cbn; lia).
  assert (Hbuf : length (gattc_value
                           (write_req
                              (rd tx_message0 (m_tx_buffer uis_three_pending)
                                  (m_tx_insert_index uis_three_pending))))
                 = 8%nat) by reflexivity.
  assert (Hroom : (length (tx_pending uis_three_pending) < 7)%nat)
    by (vm_compute; repeat constructor).
  destruct (C9_tx_ring_fifo uis_three_pending 1 10 true (mk_uis_c 1 2 3 4)
              [1; 0; 0; 0] 4 NRF_SUCCESS Hwf Hc Hlen Hsrc Hbuf)
    as (_ & _ & _ & _ & s2 & E & _ & H).
  exists s2. split; [exact E | exact (proj2 (H Hroom))].
Defined.

(** X15. Write responses drive the ring.  A write response on another link
    than the instance's own changes nothing.  One on its own link issues the
    request at the head of the queue, if there is one: accepted by the
    SoftDevice it leaves the queue, refused it stays at the head and is
    issued again on the next response. *)
Theorem write_rsp_retry (c : ble_thingy_uis_c_t) (evt_conn rc : Z)
    (s : uis_state) :
  uis_wf s ->
  let s' := on_write_rsp c evt_conn rc s in
  uis_wf s' /\
  (uis_conn_handle c <> evt_conn -> s' = s) /\
  (uis_conn_handle c = evt_conn ->
   match tx_pending s with
   | [] => s' = s
   | m :: q =>
       sd_calls s' = sd_calls s ++ [(tx_call m, rc)] /\
       tx_pending s' = if rc =? NRF_SUCCESS then q else m :: q
   end).
Proof.
  intros Hwf. cbv zeta. unfold on_write_rsp.
  destruct (tx_process_fifo s rc Hwf) as [Hwf' Hq].
  destruct (Z.eqb_spec (uis_conn_handle c) evt_conn) as [E|Hne]; cbn [negb].
  - split; [exact Hwf'|]. split; [contradiction | intros _; exact Hq].
  - split; [exact Hwf|]. split; [reflexivity | contradiction].
Qed.

Lemma write_rsp_retry_witness :
  tx_pending (on_write_rsp (mk_uis_c 1 2 3 4) 1 NRF_ERROR_BUSY
                (snd (cccd_configure 1 10 true NRF_ERROR_BUSY uis_init)))
  = tx_pending (snd (cccd_configure 1 10 true NRF_ERROR_BUSY uis_init)).
Proof.
  pose proof (write_rsp_retry (mk_uis_c 1 2 3 4) 1 NRF_ERROR_BUSY
                (snd (cccd_configure 1 10 true NRF_ERROR_BUSY uis_init))) as H.
  cbv zeta in H.
  destruct H as (_ & _ & H).
  - split; [reflexivity | vm_compute; intuition discriminate].
  - specialize (H eq_refl). destruct H as [_ H]. exact H.
Defined.

Lemma write_responses_cons c e rsps s :
  write_responses c (e :: rsps) s
  = write_responses c rsps (on_write_rsp c (fst e) (snd e) s).
Proof. reflexivity. Qed.

Lemma tx_drain c : forall q s,
  uis_wf s -> tx_pending s = q ->
  let s' := write_responses c
              (repeat (uis_conn_handle c, NRF_SUCCESS) (length q)) s in
  uis_wf s' /\ tx_pending s' = [] /\
  sd_calls s' = sd_calls s ++ map (fun m => (tx_call m, NRF_SUCCESS)) q.
Proof.
  induction q as [|m q IH]; intros s Hwf Hq; cbv zeta.
  - cbn [length repeat map]. rewrite app_nil_r. auto.
  - cbn [length repeat]. rewrite write_responses_cons. cbn [fst snd].
    unfold on_write_rsp. rewrite Z.eqb_refl. cbn [negb].
    destruct (tx_process_fifo s NRF_SUCCESS Hwf) as [Hwf' H].
    rewrite Hq in H. destruct H as [Hcalls Hpend].
    change (NRF_SUCCESS =? NRF_SUCCESS) with true in Hpend. cbv iota in Hpend.
    destruct (IH _ Hwf' Hpend) as (Hwf2 & Hp2 & Hc2).
    split; [exact Hwf2|]. split; [exact Hp2|].
    rewrite Hc2, Hcalls, <- app_assoc. reflexivity.
Qed.

(** X16. Draining the ring.  With [n] requests pending and a SoftDevice that
    accepts them, [n] write responses on the instance's link issue exactly
    the pending requests, oldest first, and leave the queue empty. *)
Theorem tx_ring_drains (c : ble_thingy_uis_c_t) (s : uis_state) :
  uis_wf s ->
  let s' := write_responses c
              (repeat (uis_conn_handle c, NRF_SUCCESS)
                      (length (tx_pending s))) s in
  uis_wf s' /\ tx_pending s' = [] /\
  sd_calls s' = sd_calls s
                ++ map (fun m => (tx_call m, NRF_SUCCESS)) (tx_pending s).
Proof. intros Hwf. apply tx_drain; [exact Hwf | reflexivity]. Qed.

Lemma tx_ring_drains_witness :
  tx_pending
    (write_responses (mk_uis_c 1 2 3 4)
       (repeat (1, NRF_SUCCESS) (length (tx_pending uis_seven_pending)))
       uis_seven_pending) = [].
Proof.
  refine (proj1 (proj2 (tx_ring_drains (mk_uis_c 1 2 3 4) uis_seven_pending _))).
  split; [reflexivity | vm_compute; intuition discriminate].
Defined.

(** X17. After the disconnection.  [on_disconnected] on the instance's own
    connection invalidates the connection handle and the three attribute
    handles; from then on [ble_thingy_uis_led_status_send] and
    [ble_thingy_uis_c_button_notif_enable] answer NRF_ERROR_INVALID_STATE
    and store nothing, until [ble_thingy_uis_c_handles_assign] gives the
    instance a connection again.  Assigned with NULL handles, the instance
    has the new connection and its three attribute handles are still
    invalid: an LED write of at most 8 bytes of [led_state] is accepted, and
    enabling the
    button notification configures the CCCD at the invalid handle.  A
    disconnection of another link changes nothing. *)
Theorem disconnected_link_rejects (c : ble_thingy_uis_c_t) (evt_conn : Z)
    (led_state : list Z) (len rc : Z) (s : uis_state) :
  let c' := on_disconnected c evt_conn in
  (uis_conn_handle c <> evt_conn -> c' = c) /\
  (uis_conn_handle c = evt_conn ->
   uis_conn_handle c' = BLE_CONN_HANDLE_INVALID /\
   led_handle c' = BLE_GATT_HANDLE_INVALID /\
   button_handle c' = BLE_GATT_HANDLE_INVALID /\
   button_cccd_handle c' = BLE_GATT_HANDLE_INVALID /\
   ble_thingy_uis_led_status_send c' led_state len rc s
   = Some (NRF_ERROR_INVALID_STATE, s) /\
   ble_thingy_uis_c_button_notif_enable c' rc s = (NRF_ERROR_INVALID_STATE, s) /\
   forall conn, conn <> BLE_CONN_HANDLE_INVALID ->
     let c2 := snd (ble_thingy_uis_c_handles_assign c' conn None) in
     uis_conn_handle c2 = conn /\
     led_handle c2 = BLE_GATT_HANDLE_INVALID /\
     button_handle c2 = BLE_GATT_HANDLE_INVALID /\
     button_cccd_handle c2 = BLE_GATT_HANDLE_INVALID /\
     (0 <= len <= 8 -> len <= Z.of_nat (length led_state) ->
      exists s2,
        ble_thingy_uis_led_status_send c2 led_state len rc s
        = Some (NRF_SUCCESS, s2)) /\
     ble_thingy_uis_c_button_notif_enable c2 rc s
     = cccd_configure conn BLE_GATT_HANDLE_INVALID true rc s).
Proof.
  cbv zeta. unfold on_disconnected.
  destruct (Z.eqb_spec (uis_conn_handle c) evt_conn) as [E|Hne].
  - split; [contradiction|]. intros _.
    unfold ble_thingy_uis_led_status_send, ble_thingy_uis_c_button_notif_enable.
    cbn [uis_conn_handle led_handle button_handle button_cccd_handle].
    rewrite Z.eqb_refl.
    do 6 (split; [reflexivity|]).
    intros conn Hc. cbn [ble_thingy_uis_c_handles_assign snd uis_conn_handle
                         led_handle button_handle button_cccd_handle].
    destruct (Z.eqb_spec conn BLE_CONN_HANDLE_INVALID); [contradiction|].
    do 4 (split; [reflexivity|]). split; [|reflexivity].
    intros Hlen Hsrc.
    destruct (Z.ltb_spec TUIS_WRITE_MESSAGE_LENGTH len) as [Hgt|_];
      [unfold TUIS_WRITE_MESSAGE_LENGTH in Hgt; lia|].
    destruct (Z.ltb_spec (Z.of_nat (length led_state)) len) as [Hgt|_]; [lia|].
    eexists. reflexivity.
  - split; [reflexivity | contradiction].
Qed.

Lemma disconnected_link_rejects_witness :
  button_cccd_handle (on_disconnected (mk_uis_c 1 2 3 4) 1)
  = BLE_GATT_HANDLE_INVALID /\
  ble_thingy_uis_led_status_send (on_disconnected (mk_uis_c 1 2 3 4) 1)
    [1; 0; 0; 0] 4 NRF_SUCCESS uis_init
  = Some (NRF_ERROR_INVALID_STATE, uis_init).
Proof.
  destruct (disconnected_link_rejects (mk_uis_c 1 2 3 4) 1
              [1; 0; 0; 0] 4 NRF_SUCCESS uis_init) as [_ H].
  destruct (H eq_refl) as (_ & _ & _ & Hcccd & Hled & _).
  split; [exact Hcccd | exact Hled].
Defined.
Section DiscoveryFacts.

Variables (UIS SENSOR LED BUTTON : Z).

(** X23. What discovery may not change.  The discovery handler never changes
    the connection handle.  It leaves the instance as it is when the instance
    has no connection or when one of its three handles is already set.  An
    event that is not a completed discovery, or is for another UUID type or
    for a service other than the UI and the sensor service, changes nothing
    and hands no event to the application. *)
Theorem discovery_guards (c : ble_thingy_uis_c_t) (uuid_type : Z)
    (complete : bool) (srv_uuid srv_type evt_conn : Z)
    (chars : list gatt_db_char) (peer_db_uninit : thingy_uis_db_t) :
  let r := ble_thingy_uis_on_db_disc_evt UIS SENSOR LED BUTTON c uuid_type complete srv_uuid srv_type evt_conn chars
                      peer_db_uninit in
  uis_conn_handle (fst r) = uis_conn_handle c /\
  (uis_conn_handle c = BLE_CONN_HANDLE_INVALID \/
   led_handle c <> BLE_GATT_HANDLE_INVALID \/
   button_handle c <> BLE_GATT_HANDLE_INVALID \/
   button_cccd_handle c <> BLE_GATT_HANDLE_INVALID -> fst r = c) /\
  (complete = false \/ srv_type <> uuid_type \/
   (srv_uuid <> UIS /\ srv_uuid <> SENSOR) -> r = (c, None)).
Proof.
  cbv zeta. unfold ble_thingy_uis_on_db_disc_evt.
  split; [|split].
  - destruct (_ && _ && _); [|reflexivity]. cbn [fst].
    destruct (negb _); [|reflexivity]. destruct (_ && _ && _); reflexivity.
  - intros H. destruct (_ && _ && (srv_type =? uuid_type)); [|reflexivity].
    cbn [fst].
    destruct (Z.eqb_spec (uis_conn_handle c) BLE_CONN_HANDLE_INVALID);
      [reflexivity|]. cbn [negb].
    destruct (Z.eqb_spec (led_handle c) BLE_GATT_HANDLE_INVALID);
      [|reflexivity].
    destruct (Z.eqb_spec (button_handle c) BLE_GATT_HANDLE_INVALID);
      [|reflexivity].
    destruct (Z.eqb_spec (button_cccd_handle c) BLE_GATT_HANDLE_INVALID);
      [|reflexivity].
    exfalso. tauto.
  - intros H. destruct complete; cbn [andb].
    + destruct (Z.eqb_spec srv_uuid UIS), (Z.eqb_spec srv_uuid SENSOR),
        (Z.eqb_spec srv_type uuid_type); cbn [orb andb];
        try reflexivity; exfalso; intuition congruence.
    + reflexivity.
Qed.

Lemma disc_chars_snoc srv chars ch db :
  disc_chars UIS LED BUTTON srv (chars ++ [ch]) db
  = (let db' := disc_chars UIS LED BUTTON srv chars db in
     if srv =? UIS then
       if char_uuid ch =? LED then
         mk_uis_db (handle_value ch) (db_button_handle db')
                   (db_button_cccd_handle db')
       else if char_uuid ch =? BUTTON then
         mk_uis_db (db_led_handle db') (handle_value ch) (cccd_handle ch)
       else db'
     else db').
Proof. unfold disc_chars. rewrite fold_left_app. reflexivity. Qed.

Lemma disc_chars_last chars db :
  LED <> BUTTON ->
  let db' := disc_chars UIS LED BUTTON UIS chars db in
  let last_of u := List.find (fun ch => char_uuid ch =? u) (rev chars) in
  db_led_handle db'
  = match last_of LED with
    | Some ch => handle_value ch | None => db_led_handle db end /\
  db_button_handle db'
  = match last_of BUTTON with
    | Some ch => handle_value ch | None => db_button_handle db end /\
  db_button_cccd_handle db'
  = match last_of BUTTON with
    | Some ch => cccd_handle ch | None => db_button_cccd_handle db end.
Proof.
  intros Hne. induction chars as [|ch chars IH] using rev_ind; cbv zeta.
  - auto.
  - rewrite disc_chars_snoc, rev_app_distr. cbn [rev app List.find].
    cbv zeta in IH. destruct IH as (H1 & H2 & H3).
    rewrite Z.eqb_refl.
    destruct (Z.eqb_spec (char_uuid ch) LED) as [E|E].
    + destruct (Z.eqb_spec (char_uuid ch) BUTTON); [congruence|].
      cbn [db_led_handle db_button_handle db_button_cccd_handle]. auto.
    + destruct (Z.eqb_spec (char_uuid ch) BUTTON);
        cbn [db_led_handle db_button_handle db_button_cccd_handle]; auto.
Qed.

(** X24. What discovery stores.  Take a connected instance whose three
    handles are not set, and a completed discovery of the right UUID type.
    For the UI service the instance gets the value handle of the last LED
    characteristic, and the value and CCCD handles of the last button
    characteristic; the handles of a characteristic that was not discovered,
    and all three handles when the service is the sensor service, are what the
    never-initialised event happens to hold. *)
Theorem discovery_stores (c : ble_thingy_uis_c_t) (uuid_type : Z)
    (srv_uuid evt_conn : Z) (chars : list gatt_db_char)
    (peer_db_uninit : thingy_uis_db_t) :
  LED <> BUTTON -> UIS <> SENSOR ->
  uis_conn_handle c <> BLE_CONN_HANDLE_INVALID ->
  led_handle c = BLE_GATT_HANDLE_INVALID ->
  button_handle c = BLE_GATT_HANDLE_INVALID ->
  button_cccd_handle c = BLE_GATT_HANDLE_INVALID ->
  let r := ble_thingy_uis_on_db_disc_evt UIS SENSOR LED BUTTON c uuid_type true srv_uuid uuid_type evt_conn chars
                      peer_db_uninit in
  let last_of u := List.find (fun ch => char_uuid ch =? u) (rev chars) in
  (srv_uuid = UIS ->
   fst r
   = mk_uis_c (uis_conn_handle c)
       (match last_of LED with
        | Some ch => handle_value ch
        | None => db_led_handle peer_db_uninit end)
       (match last_of BUTTON with
        | Some ch => handle_value ch
        | None => db_button_handle peer_db_uninit end)
       (match last_of BUTTON with
        | Some ch => cccd_handle ch
        | None => db_button_cccd_handle peer_db_uninit end)) /\
  (srv_uuid = SENSOR ->
   r = (mk_uis_c (uis_conn_handle c) (db_led_handle peer_db_uninit)
                 (db_button_handle peer_db_uninit)
                 (db_button_cccd_handle peer_db_uninit),
        Some (evt_conn, peer_db_uninit))).
Proof.
  intros Hlb Hus Hc Hl Hb Hcc. cbv zeta.
  unfold ble_thingy_uis_on_db_disc_evt.
  rewrite Hl, Hb, Hcc, !Z.eqb_refl. cbn [andb].
  destruct (Z.eqb_spec (uis_conn_handle c) BLE_CONN_HANDLE_INVALID);
    [contradiction|]. cbn [negb].
  split.
  - intros ->. rewrite Z.eqb_refl. cbn [orb fst].
    destruct (disc_chars_last chars peer_db_uninit Hlb) as (H1 & H2 & H3).
    rewrite H1, H2, H3. reflexivity.
  - intros ->. destruct (Z.eqb_spec SENSOR UIS) as [E|_]; [congruence|].
    cbn [orb].
    assert (E : disc_chars UIS LED BUTTON SENSOR chars peer_db_uninit
                = peer_db_uninit).
    { unfold disc_chars. generalize peer_db_uninit.
      induction chars as [|ch l IH]; intros db; [reflexivity|].
      cbn [fold_left]. destruct (Z.eqb_spec SENSOR UIS); [congruence|].
      apply IH. }
    cbv zeta. rewrite E, Z.eqb_refl. reflexivity.
Qed.

End DiscoveryFacts.

Lemma discovery_guards_witness :
  fst (ble_thingy_uis_on_db_disc_evt 1 2 3 4 (mk_uis_c 1 20 0 0) 2 true 1 2 1
         [mk_gatt_db_char 3 30 0] (mk_uis_db 0 0 0))
  = mk_uis_c 1 20 0 0.
Proof.
  refine (proj1 (proj2 (discovery_guards 1 2 3 4 (mk_uis_c 1 20 0 0) 2 true 1 2 1
                          [mk_gatt_db_char 3 30 0] (mk_uis_db 0 0 0))) _).
  right. left. vm_compute. discriminate.
Defined.

Lemma discovery_stores_witness :
  ble_thingy_uis_on_db_disc_evt 1 2 3 4 (mk_uis_c 1 0 0 0) 2 true 2 2 1
    [mk_gatt_db_char 3 30 0] (mk_uis_db 7 8 9)
  = (mk_uis_c 1 7 8 9, Some (1, mk_uis_db 7 8 9)).
Proof.
  refine (proj2 (discovery_stores 1 2 3 4 (mk_uis_c 1 0 0 0) 2 2 1
                   [mk_gatt_db_char 3 30 0] (mk_uis_db 7 8 9) _ _ _ _ _ _) _);
    try reflexivity; vm_compute; discriminate.
Defined.

End ThingyUisFacts.
